(** * The sharded buffer cache of kernel/bio.c

    A shallow embedding of the buffer cache (binit, bget, bread, bwrite,
    brelse, bpin, bunpin) as computations of a small state-and-outcome monad
    over an explicit machine state, together with the properties of the
    cache that the design document states. *)

From Stdlib Require Import ZArith Lia.
From stdpp Require Import base option list strings.

Local Open Scope Z_scope.

(** ** Machine integers *)

(** [uint] is a 32-bit unsigned integer: values are kept as [Z] and the
    increment and decrement of the source wrap modulo [2^32]. *)
Definition UINT_MOD : Z := 2 ^ 32.

Definition wrap (z : Z) : Z := z mod UINT_MOD.

(** ** Data model *)

(** Modelled from the spec: spinlock.h is not part of the sources.  A shard
    lock is non-suspending; [spin_name] is the debugging name that
    [initlock] installs, the null pointer before that. *)
Record spinlock := mkspin {
  spin_locked : Z;
  spin_name : option string
}.

(** Modelled from the spec: sleeplock.h is not part of the sources.  The
    exclusive lock of a slot tracks its owner: [sleep_pid] is the process
    holding it while [sleep_locked] is nonzero. *)
Record sleeplock := mksleep {
  sleep_locked : Z;
  sleep_pid : Z;
  sleep_name : option string
}.

(** Modelled from the spec: buf.h is not part of the sources; these are the
    fields bio.c reads and writes, and the payload. *)
Record buf := mkbuf {
  valid : Z;
  dev : Z;
  blockno : Z;
  lock : sleeplock;
  refcnt : Z;
  tstamp : Z;
  data : list Byte.byte
}.

(** One element of the array [bcache]: the shard lock and its slots. *)
Record bucket := mkbucket {
  bk_lock : spinlock;
  bk_buf : list buf
}.

(** A [struct buf*] into [bcache]: bucket index and slot index. *)
Definition bufptr : Type := nat * nat.

(** What a thread that cannot go on is waiting for. *)
Inductive wait :=
  | WSpin (id : nat)
  | WSleep (b : bufptr).

(** The observable actions, in program order. *)
Inductive event :=
  | EvInitLock (id : nat)
  | EvInitSleepLock (b : bufptr)
  | EvAcquire (id : nat)
  | EvRelease (id : nat)
  | EvAcquireSleep (p : Z) (b : bufptr)
  | EvReleaseSleep (b : bufptr)
  | EvStore (b : bufptr)
  | EvDiskRw (b : bufptr) (write : bool)
  | EvPanic (msg : string).

(** The state bio.c runs on: the global [bcache], the global [ticks], the
    disk behind the driver, and the actions performed so far. *)
Record machine := mkmachine {
  bcache : list bucket;
  ticks : Z;
  disk : Z * Z -> list Byte.byte;
  trace : list event
}.

Definition set_bcache (f : list bucket -> list bucket) (m : machine) : machine :=
  mkmachine (f (bcache m)) (ticks m) (disk m) (trace m).

Definition set_disk (f : (Z * Z -> list Byte.byte) -> Z * Z -> list Byte.byte) (m : machine) : machine :=
  mkmachine (bcache m) (ticks m) (f (disk m)) (trace m).

Definition set_ticks (t : Z) (m : machine) : machine :=
  mkmachine (bcache m) t (disk m) (trace m).

Definition log (e : event) (m : machine) : machine :=
  mkmachine (bcache m) (ticks m) (disk m) (trace m ++ [e]).

Definition set_bk_lock (l : spinlock) (k : bucket) : bucket :=
  mkbucket l (bk_buf k).

Definition set_bk_buf (f : list buf -> list buf) (k : bucket) : bucket :=
  mkbucket (bk_lock k) (f (bk_buf k)).

Definition set_lock (l : sleeplock) (b : buf) : buf :=
  mkbuf (valid b) (dev b) (blockno b) l (refcnt b) (tstamp b) (data b).

Definition set_refcnt (r : Z) (b : buf) : buf :=
  mkbuf (valid b) (dev b) (blockno b) (lock b) r (tstamp b) (data b).

Definition set_tstamp (t : Z) (b : buf) : buf :=
  mkbuf (valid b) (dev b) (blockno b) (lock b) (refcnt b) t (data b).

Definition set_valid (v : Z) (b : buf) : buf :=
  mkbuf v (dev b) (blockno b) (lock b) (refcnt b) (tstamp b) (data b).

Definition set_dev (d : Z) (b : buf) : buf :=
  mkbuf (valid b) d (blockno b) (lock b) (refcnt b) (tstamp b) (data b).

Definition set_blockno (n : Z) (b : buf) : buf :=
  mkbuf (valid b) (dev b) n (lock b) (refcnt b) (tstamp b) (data b).

Definition set_data (d : list Byte.byte) (b : buf) : buf :=
  mkbuf (valid b) (dev b) (blockno b) (lock b) (refcnt b) (tstamp b) d.

(** Dereferencing: the shard lock of a bucket, the slots of a bucket, and
    a [struct buf*]. *)
Definition get_spin (id : nat) (m : machine) : option spinlock :=
  bk_lock <$> bcache m !! id.

Definition get_bufs (id : nat) (m : machine) : option (list buf) :=
  bk_buf <$> bcache m !! id.

Definition get_buf (b : bufptr) (m : machine) : option buf :=
  match bcache m !! b.1 with
  | Some k => bk_buf k !! b.2
  | None => None
  end.

Definition put_spin (id : nat) (l : spinlock) (m : machine) : machine :=
  set_bcache (fun c => alter (set_bk_lock l) id c) m.

Definition put_buf (b : bufptr) (x : buf) (m : machine) : machine :=
  set_bcache (fun c => alter (set_bk_buf (fun l => <[b.2 := x]> l)) b.1 c) m.

(** ** The monad of kernel code *)

(** A call returns, aborts through [panic], leaves its thread waiting for a
    lock, or dereferences a pointer outside [bcache]. *)
Inductive outcome (A : Type) :=
  | Ret (a : A) (m : machine)
  | Panic (msg : string) (m : machine)
  | Blocked (w : wait) (m : machine)
  | Undef.

Arguments Ret {A} a m.
Arguments Panic {A} msg m.
Arguments Blocked {A} w m.
Arguments Undef {A}.

Definition M (A : Type) : Type := machine -> outcome A.

Definition ret {A} (a : A) : M A := fun m => Ret a m.

Definition bind {A B} (c : M A) (k : A -> M B) : M B :=
  fun m =>
    match c m with
    | Ret a m' => k a m'
    | Panic s m' => Panic s m'
    | Blocked w m' => Blocked w m'
    | Undef => Undef
    end.

Declare Scope kernel_scope.
Delimit Scope kernel_scope with kernel.
Notation "x <- c ;; k" := (bind c (fun x => k))
  (at level 100, c at next level, right associativity) : kernel_scope.
Notation "c ;; k" := (bind c (fun _ => k))
  (at level 100, right associativity) : kernel_scope.
Local Open Scope kernel_scope.

Definition load (b : bufptr) : M buf :=
  fun m => match get_buf b m with Some x => Ret x m | None => Undef end.

(** A write to the bookkeeping fields of a slot. *)
Definition update (b : bufptr) (f : buf -> buf) : M unit :=
  fun m =>
    match get_buf b m with
    | Some x => Ret tt (log (EvStore b) (put_buf b (f x) m))
    | None => Undef
    end.

(** The slots of bucket [id], as the loop of [bget] walks them. *)
Definition slots (id : nat) : M (list buf) :=
  fun m => match get_bufs id m with Some l => Ret l m | None => Undef end.

Definition read_ticks : M Z := fun m => Ret (ticks m) m.

Fixpoint for_each {A} (l : list A) (body : A -> M unit) : M unit :=
  match l with
  | [] => ret tt
  | x :: l' => body x ;; for_each l' body
  end.

(** ** The collaborators of bio.c *)

(** Modelled from the spec: panic (printf.c) is not part of the sources.
    The fatal-abort facility halts the kernel with a message. *)
Definition panic {A} (msg : string) : M A :=
  fun m => Panic msg (log (EvPanic msg) m).

(** Modelled from the spec: initlock (spinlock.c) is not part of the
    sources.  It names the lock and leaves it free. *)
Definition initlock (id : nat) (nm : string) : M unit :=
  fun m =>
    match get_spin id m with
    | Some _ => Ret tt (log (EvInitLock id) (put_spin id (mkspin 0 (Some nm)) m))
    | None => Undef
    end.

(** Modelled from the spec: acquire (spinlock.c) is not part of the
    sources.  A thread that cannot take the shard lock at once spins. *)
Definition acquire (id : nat) : M unit :=
  fun m =>
    match get_spin id m with
    | Some l =>
        if spin_locked l =? 0
        then Ret tt (log (EvAcquire id) (put_spin id (mkspin 1 (spin_name l)) m))
        else Blocked (WSpin id) m
    | None => Undef
    end.

(** Modelled from the spec: release (spinlock.c) is not part of the
    sources. *)
Definition release (id : nat) : M unit :=
  fun m =>
    match get_spin id m with
    | Some l => Ret tt (log (EvRelease id) (put_spin id (mkspin 0 (spin_name l)) m))
    | None => Undef
    end.

(** Modelled from the spec: initsleeplock (sleeplock.c) is not part of the
    sources.  It names the lock and leaves it free and unowned. *)
Definition initsleeplock (b : bufptr) (nm : string) : M unit :=
  fun m =>
    match get_buf b m with
    | Some x => Ret tt (log (EvInitSleepLock b)
                  (put_buf b (set_lock (mksleep 0 0 (Some nm)) x) m))
    | None => Undef
    end.

(** Modelled from the spec: acquiresleep (sleeplock.c) is not part of the
    sources.  The caller [p] is suspended while another holder has the
    lock, and owns the lock when the call returns. *)
Definition acquiresleep (p : Z) (b : bufptr) : M unit :=
  fun m =>
    match get_buf b m with
    | Some x =>
        if sleep_locked (lock x) =? 0
        then Ret tt (log (EvAcquireSleep p b)
               (put_buf b (set_lock (mksleep 1 p (sleep_name (lock x))) x) m))
        else Blocked (WSleep b) m
    | None => Undef
    end.

(** Modelled from the spec: releasesleep (sleeplock.c) is not part of the
    sources. *)
Definition releasesleep (b : bufptr) : M unit :=
  fun m =>
    match get_buf b m with
    | Some x => Ret tt (log (EvReleaseSleep b)
                  (put_buf b (set_lock (mksleep 0 0 (sleep_name (lock x))) x) m))
    | None => Undef
    end.

(** Modelled from the spec: holdingsleep (sleeplock.c) is not part of the
    sources.  The lock is held by the caller when it is taken and the
    caller is its owner. *)
Definition holding (p : Z) (x : buf) : bool :=
  negb (sleep_locked (lock x) =? 0) && (sleep_pid (lock x) =? p).

Definition holdingsleep (p : Z) (b : bufptr) : M bool :=
  x <- load b ;; ret (holding p x).

(** Modelled from the spec: virtio_disk_rw (virtio_disk.c) is not part of
    the sources.  The driver transfers the block addressed by the slot's
    device and block number into the payload, or the payload onto it. *)
Definition virtio_disk_rw (b : bufptr) (write : bool) : M unit :=
  fun m =>
    match get_buf b m with
    | Some x =>
        if write
        then Ret tt (log (EvDiskRw b true)
               (set_disk (fun d k =>
                  if decide (k = (dev x, blockno x)) then data x else d k) m))
        else Ret tt (log (EvDiskRw b false)
               (put_buf b (set_data (disk m (dev x, blockno x)) x) m))
    | None => Undef
    end.

(** ** bio.c *)

(** The outcome of the scan of one bucket in [bget]: the slot that holds the
    block, or else the least recently used unused slot met, if any. *)
Inductive scan_result :=
  | Hit (i : nat)
  | Miss (lru : option nat).

(** [lru==0 || lru->tstamp > b->tstamp], [lru] pointing into [bufs]. *)
Definition lru_older (bufs : list buf) (lru : option nat) (b : buf) : bool :=
  match lru with
  | None => true
  | Some l =>
      match bufs !! l with
      | Some x => tstamp x >? tstamp b
      | None => false
      end
  end.

(** The loop of [bget] over the slots [rest] of the bucket [bufs], the
    first of them at index [i]. *)
Fixpoint scan_from (d n : Z) (bufs rest : list buf) (i : nat) (lru : option nat)
  : scan_result :=
  match rest with
  | [] => Miss lru
  | b :: rest' =>
      if (dev b =? d) && (blockno b =? n) then Hit i
      else if (refcnt b =? 0) && lru_older bufs lru b
           then scan_from d n bufs rest' (S i) (Some i)
           else scan_from d n bufs rest' (S i) lru
  end.

Definition scan (d n : Z) (bufs : list buf) : scan_result :=
  scan_from d n bufs bufs 0 None.

(** What [bget] writes into the slot it recycles. *)
Definition recycle (d n t : Z) (b : buf) : buf :=
  set_tstamp t (set_refcnt 1 (set_valid 0 (set_blockno n (set_dev d b)))).

Definition incr_refcnt (b : buf) : buf := set_refcnt (wrap (refcnt b + 1)) b.

Definition decr_refcnt (b : buf) : buf := set_refcnt (wrap (refcnt b - 1)) b.

Section Bio.

(** param.h is not part of the sources: the number of buckets, the number
    of slots of a bucket and the block size are parameters. *)
Variables NBUCKETS NBUF BSIZE : nat.

(** [blockno % NBUCKETS] *)
Definition bucket_of (n : Z) : nat := Z.to_nat (n mod Z.of_nat NBUCKETS).

(** The array [bcache] has static storage: every byte of it is zero when
    the kernel starts. *)
Definition zero_buf : buf :=
  mkbuf 0 0 0 (mksleep 0 0 None) 0 0 (replicate BSIZE Byte.x00).

Definition zero_bucket : bucket :=
  mkbucket (mkspin 0 None) (replicate NBUF zero_buf).

Definition boot (d : Z * Z -> list Byte.byte) : machine :=
  mkmachine (replicate NBUCKETS zero_bucket) 0 d [].

Definition binit : M unit :=
  for_each (seq 0 NBUCKETS) (fun i =>
    initlock i "bcache" ;;
    for_each (seq 0 NBUF) (fun j => initsleeplock (i, j) "buffer")).

(** The part of [bget] that runs under the shard lock: it returns the slot
    that [bget] goes on to lock and return. *)
Definition bget_locked (d n : Z) : M bufptr :=
  let id := bucket_of n in
  acquire id ;;
  bufs <- slots id ;;
  match scan d n bufs with
  | Hit i =>
      update (id, i) incr_refcnt ;;
      release id ;;
      ret (id, i)
  | Miss (Some l) =>
      t <- read_ticks ;;
      update (id, l) (recycle d n t) ;;
      release id ;;
      ret (id, l)
  | Miss None =>
      release id ;;
      panic "bget: no buffers"
  end.

Definition bget (p d n : Z) : M bufptr :=
  let id := bucket_of n in
  acquire id ;;
  bufs <- slots id ;;
  match scan d n bufs with
  | Hit i =>
      update (id, i) incr_refcnt ;;
      release id ;;
      acquiresleep p (id, i) ;;
      ret (id, i)
  | Miss (Some l) =>
      t <- read_ticks ;;
      update (id, l) (recycle d n t) ;;
      release id ;;
      acquiresleep p (id, l) ;;
      ret (id, l)
  | Miss None =>
      release id ;;
      panic "bget: no buffers"
  end.

(** The part of [bread] after [bget] has returned [b]. *)
Definition bread_fill (b : bufptr) : M bufptr :=
  x <- load b ;;
  (if valid x =? 0
   then virtio_disk_rw b false ;; update b (set_valid 1)
   else ret tt) ;;
  ret b.

Definition bread (p d n : Z) : M bufptr :=
  b <- bget p d n ;;
  bread_fill b.

Definition bwrite (p : Z) (b : bufptr) : M unit :=
  h <- holdingsleep p b ;;
  if negb h then panic "bwrite"
  else virtio_disk_rw b true.

(** The part of [brelse] that runs under the shard lock. *)
Definition brelse_locked (b : bufptr) : M unit :=
  x <- load b ;;
  let id := bucket_of (blockno x) in
  acquire id ;;
  t <- read_ticks ;;
  update b (fun x => set_tstamp t (decr_refcnt x)) ;;
  release id.

Definition brelse (p : Z) (b : bufptr) : M unit :=
  h <- holdingsleep p b ;;
  if negb h then panic "brelse"
  else
    releasesleep b ;;
    brelse_locked b.

Definition bpin (b : bufptr) : M unit :=
  x <- load b ;;
  let id := bucket_of (blockno x) in
  acquire id ;;
  update b incr_refcnt ;;
  release id.

Definition bunpin (b : bufptr) : M unit :=
  x <- load b ;;
  let id := bucket_of (blockno x) in
  acquire id ;;
  update b decr_refcnt ;;
  release id.

End Bio.


(** ** Cache states *)

(** The machine state a call leaves behind, when there is one. *)
Definition final {A} (o : outcome A) : option machine :=
  match o with
  | Ret _ m => Some m
  | Panic _ m => Some m
  | Blocked _ m => Some m
  | Undef => None
  end.

(** The number of slots of every bucket. *)
Definition dims (m : machine) : list nat :=
  (fun k => length (bk_buf k)) <$> bcache m.

(** Slot [b] carries the identity [(d, n)]. *)
Definition carries (m : machine) (d n : Z) (b : bufptr) : Prop :=
  exists x, get_buf b m = Some x /\ dev x = d /\ blockno x = n.

(** At most one slot of the cache carries the identity [(d, n)]. *)
Definition unique_ident (m : machine) (d n : Z) : Prop :=
  forall b1 b2, carries m d n b1 -> carries m d n b2 -> b1 = b2.

(** No slot of [bufs] holds the block [(d, n)]. *)
Definition no_match (d n : Z) (bufs : list buf) : Prop :=
  forall x, x ∈ bufs -> ~ (dev x = d /\ blockno x = n).

(** Slot [i] of [bufs] is unused and is the first, in scan order, of the
    unused slots with the smallest time stamp. *)
Definition first_lru (bufs : list buf) (i : nat) : Prop :=
  exists x, bufs !! i = Some x /\ refcnt x = 0 /\
    forall j y, bufs !! j = Some y -> refcnt y = 0 ->
      tstamp x <= tstamp y /\ ((j < i)%nat -> tstamp x < tstamp y).

(** What the scan knows of the slots before index [i] when it holds the
    candidate [lru]. *)
Definition lru_upto (bufs : list buf) (i : nat) (lru : option nat) : Prop :=
  match lru with
  | None => forall j y, (j < i)%nat -> bufs !! j = Some y -> refcnt y <> 0
  | Some l =>
      (l < i)%nat /\
      exists x, bufs !! l = Some x /\ refcnt x = 0 /\
        forall j y, (j < i)%nat -> bufs !! j = Some y -> refcnt y = 0 ->
          tstamp x <= tstamp y /\ ((j < l)%nat -> tstamp x < tstamp y)
  end.

(** What the scan of [bufs] for the block [(d, n)] ends with. *)
Definition scan_post (d n : Z) (bufs : list buf) (r : scan_result) : Prop :=
  match r with
  | Hit h =>
      exists y, bufs !! h = Some y /\ dev y = d /\ blockno y = n /\
        forall j z, (j < h)%nat -> bufs !! j = Some z ->
          ~ (dev z = d /\ blockno z = n)
  | Miss lru => no_match d n bufs /\ lru_upto bufs (length bufs) lru
  end.

(** [m'] differs from [m] in slot [b], which now holds [x'], and in the
    trace, which has grown by [evs]; every other slot, every shard lock,
    the clock and the disk are those of [m]. *)
Definition writes (m m' : machine) (b : bufptr) (x' : buf) (evs : list event)
  : Prop :=
  get_buf b m' = Some x' /\
  (forall b', b' <> b -> get_buf b' m' = get_buf b' m) /\
  (forall id, get_spin id m' = get_spin id m) /\
  dims m' = dims m /\
  disk m' = disk m /\
  ticks m' = ticks m /\
  trace m' = trace m ++ evs.

(** Modelled from the spec: the callers of bio.c (the file system and the
    log) are not part of the sources.  Between [bread] and [brelse] the
    holder of the lock of a slot may overwrite the payload of the slot;
    this is the store of the new payload [dta] into slot [b]. *)
Definition write_data (b : bufptr) (dta : list Byte.byte) : M unit :=
  fun m =>
    match get_buf b m with
    | Some x => Ret tt (put_buf b (set_data dta x) m)
    | None => Undef
    end.

Section States.

Variables NBUCKETS NBUF BSIZE : nat.

(** [bcache] is an array of [NBUCKETS] buckets of [NBUF] slots. *)
Definition wf (m : machine) : Prop := dims m = replicate NBUCKETS NBUF.

(** Slot [b] lies in the bucket that its block number hashes to. *)
Definition hashed (m : machine) (b : bufptr) : Prop :=
  exists x, get_buf b m = Some x /\ bucket_of NBUCKETS (blockno x) = b.1.

(** The states of the cache, with the slots [R] that [bget] has chosen for
    its callers so far.  A step is one of the sections of bio.c that run
    without interruption with respect to the cache: the code under a shard
    lock, the taking and the release of a slot lock, a disk transfer, a
    clock tick; or a store into the payload of a slot by the holder of its
    lock.  Calls of different threads interleave at this grain, so these
    are the states at the boundaries of the sections: the states in which
    no thread is inside a section under a shard lock. *)
Inductive reach : machine -> list bufptr -> Prop :=
  | reach_binit d m :
      binit NBUCKETS NBUF (boot NBUCKETS NBUF BSIZE d) = Ret tt m ->
      reach m []
  | reach_tick m R :
      reach m R ->
      reach (set_ticks (wrap (ticks m + 1)) m) R
  | reach_bget_locked m R d n b m' :
      reach m R ->
      bget_locked NBUCKETS d n m = Ret b m' ->
      reach m' (b :: R)
  | reach_acquiresleep m R p b m' :
      reach m R -> b ∈ R ->
      acquiresleep p b m = Ret tt m' ->
      reach m' R
  | reach_bread_fill m R b m' :
      reach m R ->
      bread_fill b m = Ret b m' ->
      reach m' R
  | reach_bwrite m R p b m' :
      reach m R ->
      bwrite p b m = Ret tt m' ->
      reach m' R
  | reach_releasesleep m R p b m' :
      reach m R ->
      holdingsleep p b m = Ret true m ->
      releasesleep b m = Ret tt m' ->
      reach m' R
  | reach_brelse_locked m R b m' :
      reach m R ->
      brelse_locked NBUCKETS b m = Ret tt m' ->
      reach m' R
  | reach_bpin m R b m' :
      reach m R ->
      bpin NBUCKETS b m = Ret tt m' ->
      reach m' R
  | reach_bunpin m R b m' :
      reach m R ->
      bunpin NBUCKETS b m = Ret tt m' ->
      reach m' R
  | reach_write_data m R p b dta m' :
      reach m R ->
      holdingsleep p b m = Ret true m ->
      write_data b dta m = Ret tt m' ->
      reach m' R.

(** What holds of every state of the cache. *)
Record inv (m : machine) (R : list bufptr) : Prop := mkinv {
  inv_wf : wf m;
  inv_spin : forall id l, get_spin id m = Some l -> spin_locked l = 0;
  inv_refcnt : forall b x, get_buf b m = Some x -> 0 <= refcnt x < UINT_MOD;
  inv_home : forall b x, get_buf b m = Some x ->
      (dev x = 0 /\ blockno x = 0) \/ bucket_of NBUCKETS (blockno x) = b.1;
  inv_uniq : forall i j1 j2 x1 x2,
      get_buf (i, j1) m = Some x1 -> get_buf (i, j2) m = Some x2 ->
      dev x1 = dev x2 -> blockno x1 = blockno x2 ->
      j1 = j2 \/ (dev x1 = 0 /\ blockno x1 = 0);
  inv_locked : forall b x, get_buf b m = Some x ->
      sleep_locked (lock x) <> 0 -> bucket_of NBUCKETS (blockno x) = b.1;
  inv_ret : forall b, b ∈ R -> hashed m b
}.

(** The state of [binit] when the shard locks before [si], the slot locks
    of the buckets before [i] and those of the slots before [j] of bucket
    [i] have been initialized: nothing else of [bcache] has changed since
    the kernel started. *)
Definition init_upto (si i j : nat) (m : machine) : Prop :=
  wf m /\
  (forall id l, get_spin id m = Some l ->
     spin_locked l = 0 /\ ((id < si)%nat -> spin_name l = Some "bcache")) /\
  (forall b x, get_buf b m = Some x ->
     valid x = 0 /\ dev x = 0 /\ blockno x = 0 /\ refcnt x = 0 /\
     tstamp x = 0 /\ sleep_locked (lock x) = 0 /\ sleep_pid (lock x) = 0 /\
     ((b.1 < i)%nat \/ (b.1 = i /\ (b.2 < j)%nat) ->
      sleep_name (lock x) = Some "buffer")).

End States.

(** ** A small cache

    Two buckets of two slots, with blocks of one byte, and the states that
    a few calls lead it through. *)

Definition blank_disk : Z * Z -> list Byte.byte := fun _ => [Byte.x2a].

(** The state a call leaves behind, for calls that leave one. *)
Definition state_of {A} (o : outcome A) : machine :=
  default (boot 0 0 0 blank_disk) (final o).

(** After [binit]. *)
Definition fresh : machine := state_of (binit 2 2 (boot 2 2 1 blank_disk)).

(** After process 7 has got block 5 of device 1. *)
Definition held : machine := state_of (bget 2 7 1 5 fresh).

(** After process 8 has got block 3 of device 1 as well. *)
Definition full : machine := state_of (bget 2 8 1 3 held).

(** After process 7 has released block 5 again. *)
Definition released : machine := state_of (brelse 2 7 (1, 0)%nat held).

Definition fresh_lock : spinlock := mkspin 0 (Some "bcache"%string).

Definition fresh_buf : buf :=
  mkbuf 0 0 0 (mksleep 0 0 (Some "buffer"%string)) 0 0 [Byte.x00].

Definition held_buf : buf :=
  mkbuf 0 1 5 (mksleep 1 7 (Some "buffer"%string)) 1 0 [Byte.x00].

Definition held_buf' : buf :=
  mkbuf 0 1 3 (mksleep 1 8 (Some "buffer"%string)) 1 0 [Byte.x00].

Definition released_buf : buf :=
  mkbuf 0 1 5 (mksleep 0 0 (Some "buffer"%string)) 0 0 [Byte.x00].

(** ** Calls and their traces *)

(** Slot [b] holds the block [(d, n)] and no slot before it in its bucket
    does. *)
Definition first_holder (m : machine) (d n : Z) (b : bufptr) (x : buf) : Prop :=
  get_buf b m = Some x /\ dev x = d /\ blockno x = n /\
  forall j z, (j < b.2)%nat -> get_buf (b.1, j) m = Some z ->
    ~ (dev z = d /\ blockno z = n).

(** The calls of the interface of bio.c. *)
Inductive call :=
  | CBget (p d n : Z)
  | CBread (p d n : Z)
  | CBwrite (p : Z) (b : bufptr)
  | CBrelse (p : Z) (b : bufptr)
  | CBpin (b : bufptr)
  | CBunpin (b : bufptr).

Definition exec (NBUCKETS : nat) (c : call) : M unit :=
  match c with
  | CBget p d n => bget NBUCKETS p d n ;; ret tt
  | CBread p d n => bread NBUCKETS p d n ;; ret tt
  | CBwrite p b => bwrite p b
  | CBrelse p b => brelse NBUCKETS p b
  | CBpin b => bpin NBUCKETS b
  | CBunpin b => bunpin NBUCKETS b
  end.

(** The [struct buf*] that a call is given points into [bcache]. *)
Definition in_cache (NBUCKETS NBUF : nat) (c : call) : Prop :=
  match c with
  | CBget _ _ _ | CBread _ _ _ => True
  | CBwrite _ b | CBrelse _ b | CBpin b | CBunpin b =>
      (b.1 < NBUCKETS)%nat /\ (b.2 < NBUF)%nat
  end.

(** The shard lock held after the events [evs], when [held] was held
    before them, if the events respect the order of the locks: a shard lock
    is taken only when none is held, the one released is the one held, and
    no slot lock is taken or released, no disk transfer starts and no panic
    happens while a shard lock is held. *)
Fixpoint lock_order (held : option nat) (evs : list event)
  : option (option nat) :=
  match evs with
  | [] => Some held
  | e :: evs' =>
      match e, held with
      | EvAcquire id, None => lock_order (Some id) evs'
      | EvRelease id, Some id' =>
          if decide (id = id') then lock_order None evs' else None
      | EvStore _, _ => lock_order held evs'
      | EvAcquireSleep _ _, None => lock_order None evs'
      | EvReleaseSleep _, None => lock_order None evs'
      | EvDiskRw _ _, None => lock_order None evs'
      | EvPanic _, None => lock_order None evs'
      | EvInitLock _, None => lock_order None evs'
      | EvInitSleepLock _, None => lock_order None evs'
      | _, _ => None
      end
  end.

(** Between [m] and [m'] no slot but [b] has changed, the shard locks, the
    size of the array and the clock are the same, and the trace has grown
    by [evs]. *)
Definition footprint (m m' : machine) (b : bufptr) (evs : list event) : Prop :=
  (forall b', b' <> b -> get_buf b' m' = get_buf b' m) /\
  (forall id, get_spin id m' = get_spin id m) /\
  dims m' = dims m /\
  ticks m' = ticks m /\
  trace m' = trace m ++ evs.

(** Slot contents that differ at most in the reference count and in the
    slot lock. *)
Definition same_block (x x' : buf) : Prop :=
  dev x' = dev x /\ blockno x' = blockno x /\ valid x' = valid x /\
  data x' = data x /\ tstamp x' = tstamp x.

(** The state of [binit], started on [m0], when the shard locks before
    [si], the slot locks of the buckets before [i] and those of the slots
    before [j] of bucket [i] have been initialized. *)
Definition reinit_upto (m0 : machine) (si i j : nat) (m : machine) : Prop :=
  dims m = dims m0 /\ disk m = disk m0 /\ ticks m = ticks m0 /\
  (forall id, get_spin id m =
     if decide (id < si)%nat
     then (fun _ => mkspin 0 (Some "bcache"%string)) <$> get_spin id m0
     else get_spin id m0) /\
  (forall b : bufptr, get_buf b m =
     if decide ((b.1 < i)%nat \/ (b.1 = i /\ (b.2 < j)%nat))
     then set_lock (mksleep 0 0 (Some "buffer"%string)) <$> get_buf b m0
     else get_buf b m0).

(** A slot as [binit] and the calls leave it: the valid flag and the lock
    word are 0 or 1, and the slot lock has the name [binit] gave it. *)
Definition slot_ok (x : buf) : Prop :=
  (valid x = 0 \/ valid x = 1) /\
  (sleep_locked (lock x) = 0 \/ sleep_locked (lock x) = 1) /\
  sleep_name (lock x) = Some "buffer"%string.

(** The small cache after process 7 has read block 5 of device 1. *)
Definition read : machine := state_of (bread 2 7 1 5 fresh).

Definition read_buf : buf :=
  mkbuf 1 1 5 (mksleep 1 7 (Some "buffer"%string)) 1 0 [Byte.x2a].

(** After process 7 has then overwritten the payload of the slot. *)
Definition modified : machine :=
  state_of (write_data (1, 0)%nat [Byte.x07] read).

Definition modified_buf : buf :=
  mkbuf 1 1 5 (mksleep 1 7 (Some "buffer"%string)) 1 0 [Byte.x07].

(** After process 7 has got block 5 and process 8 block 4 of device 1: a
    slot in use in each of the two buckets. *)
Definition both : machine := state_of (bget 2 8 1 4 held).

Definition held_buf4 : buf :=
  mkbuf 0 1 4 (mksleep 1 8 (Some "buffer"%string)) 1 0 [Byte.x00].

(** ** Reading the state through its updates *)

Lemma get_buf_log b e m : get_buf b (log e m) = get_buf b m.
Proof. reflexivity. Qed.

Lemma get_spin_log id e m : get_spin id (log e m) = get_spin id m.
Proof. reflexivity. Qed.

Lemma get_bufs_log id e m : get_bufs id (log e m) = get_bufs id m.
Proof. reflexivity. Qed.

Lemma dims_log e m : dims (log e m) = dims m.
Proof. reflexivity. Qed.

Lemma ticks_log e m : ticks (log e m) = ticks m.
Proof. reflexivity. Qed.

Lemma disk_log e m : disk (log e m) = disk m.
Proof. reflexivity. Qed.

Lemma trace_log e m : trace (log e m) = trace m ++ [e].
Proof. reflexivity. Qed.

Lemma get_buf_set_disk b f m : get_buf b (set_disk f m) = get_buf b m.
Proof. reflexivity. Qed.

Lemma get_spin_set_disk id f m : get_spin id (set_disk f m) = get_spin id m.
Proof. reflexivity. Qed.

Lemma dims_set_disk f m : dims (set_disk f m) = dims m.
Proof. reflexivity. Qed.

Lemma get_buf_set_ticks b t m : get_buf b (set_ticks t m) = get_buf b m.
Proof. reflexivity. Qed.

Lemma get_spin_set_ticks id t m : get_spin id (set_ticks t m) = get_spin id m.
Proof. reflexivity. Qed.

Lemma dims_set_ticks t m : dims (set_ticks t m) = dims m.
Proof. reflexivity. Qed.

Lemma ticks_put_buf b x m : ticks (put_buf b x m) = ticks m.
Proof. reflexivity. Qed.

Lemma ticks_put_spin id l m : ticks (put_spin id l m) = ticks m.
Proof. reflexivity. Qed.

Lemma disk_put_buf b x m : disk (put_buf b x m) = disk m.
Proof. reflexivity. Qed.

Lemma disk_put_spin id l m : disk (put_spin id l m) = disk m.
Proof. reflexivity. Qed.

Lemma trace_put_buf b x m : trace (put_buf b x m) = trace m.
Proof. reflexivity. Qed.

Lemma trace_put_spin id l m : trace (put_spin id l m) = trace m.
Proof. reflexivity. Qed.

Lemma trace_set_disk f m : trace (set_disk f m) = trace m.
Proof. reflexivity. Qed.

Lemma get_buf_put_spin b id l m : get_buf b (put_spin id l m) = get_buf b m.
Proof.
  unfold get_buf, put_spin, set_bcache; cbn [bcache].
  destruct (decide (id = b.1)) as [->|Hne].
  - rewrite list_lookup_alter_eq. by destruct (bcache m !! b.1).
  - by rewrite list_lookup_alter_ne.
Qed.

Lemma get_bufs_put_spin id' id l m : get_bufs id' (put_spin id l m) = get_bufs id' m.
Proof.
  unfold get_bufs, put_spin, set_bcache; cbn [bcache].
  destruct (decide (id = id')) as [->|Hne].
  - rewrite list_lookup_alter_eq. by destruct (bcache m !! id').
  - by rewrite list_lookup_alter_ne.
Qed.

Lemma get_spin_put_spin id' id l m :
  get_spin id' (put_spin id l m)
  = if decide (id = id') then (fun _ => l) <$> get_spin id m else get_spin id' m.
Proof.
  unfold get_spin, put_spin, set_bcache; cbn [bcache].
  case_decide as H.
  - subst. rewrite list_lookup_alter_eq. by destruct (bcache m !! id').
  - by rewrite list_lookup_alter_ne.
Qed.

Lemma get_spin_put_buf id b x m : get_spin id (put_buf b x m) = get_spin id m.
Proof.
  unfold get_spin, put_buf, set_bcache; cbn [bcache].
  destruct (decide (b.1 = id)) as [<-|Hne].
  - rewrite list_lookup_alter_eq. by destruct (bcache m !! b.1).
  - by rewrite list_lookup_alter_ne.
Qed.

Lemma get_bufs_put_buf id b x m :
  get_bufs id (put_buf b x m)
  = if decide (b.1 = id) then (fun l => <[b.2 := x]> l) <$> get_bufs id m
    else get_bufs id m.
Proof.
  unfold get_bufs, put_buf, set_bcache; cbn [bcache].
  case_decide as H.
  - subst. rewrite list_lookup_alter_eq. by destruct (bcache m !! b.1).
  - by rewrite list_lookup_alter_ne.
Qed.

Lemma get_buf_put_buf b' b x m :
  get_buf b' (put_buf b x m)
  = if decide (b = b') then (fun _ => x) <$> get_buf b m else get_buf b' m.
Proof.
  destruct b as [i j], b' as [i' j'].
  unfold get_buf, put_buf, set_bcache; cbn [bcache fst snd].
  destruct (decide (i = i')) as [<-|Hi].
  - rewrite list_lookup_alter_eq.
    destruct (bcache m !! i) as [k|] eqn:Hk; cbn.
    + destruct (decide (j = j')) as [<-|Hj].
      * rewrite decide_True by done.
        destruct (bk_buf k !! j) as [y|] eqn:Hy; cbn.
        -- apply list_lookup_insert_eq. by eapply lookup_lt_Some.
        -- apply lookup_ge_None. rewrite length_insert. by apply lookup_ge_None.
      * rewrite decide_False by congruence. by apply list_lookup_insert_ne.
    + case_decide; [|done]. by simplify_eq.
  - rewrite list_lookup_alter_ne by done.
    rewrite decide_False by congruence. done.
Qed.

Lemma dims_put_spin id l m : dims (put_spin id l m) = dims m.
Proof.
  unfold dims, put_spin, set_bcache; cbn [bcache].
  apply list_eq; intros i. rewrite !list_lookup_fmap.
  destruct (decide (id = i)) as [->|Hne].
  - rewrite list_lookup_alter_eq. by destruct (bcache m !! i).
  - by rewrite list_lookup_alter_ne.
Qed.

Lemma dims_put_buf b x m : dims (put_buf b x m) = dims m.
Proof.
  unfold dims, put_buf, set_bcache; cbn [bcache].
  apply list_eq; intros i. rewrite !list_lookup_fmap.
  destruct (decide (b.1 = i)) as [<-|Hne].
  - rewrite list_lookup_alter_eq.
    destruct (bcache m !! b.1); cbn; [|done]. by rewrite length_insert.
  - by rewrite list_lookup_alter_ne.
Qed.

Lemma get_bufs_get_buf id i bufs m :
  get_bufs id m = Some bufs -> get_buf (id, i) m = bufs !! i.
Proof.
  unfold get_bufs, get_buf; cbn [fst snd].
  destruct (bcache m !! id); cbn; [|done]. by intros [= <-].
Qed.

Lemma get_buf_get_bufs b x m :
  get_buf b m = Some x -> exists bufs, get_bufs b.1 m = Some bufs /\ bufs !! b.2 = Some x.
Proof.
  unfold get_bufs, get_buf.
  destruct (bcache m !! b.1) as [k|]; cbn; [|done]. eauto.
Qed.

Lemma get_buf_get_spin b x m :
  get_buf b m = Some x -> is_Some (get_spin b.1 m).
Proof.
  unfold get_spin, get_buf.
  destruct (bcache m !! b.1) as [k|]; cbn; [|done]. eauto.
Qed.

Lemma dims_get_bufs id bufs m :
  get_bufs id m = Some bufs -> dims m !! id = Some (length bufs).
Proof.
  unfold get_bufs, dims. rewrite list_lookup_fmap.
  destruct (bcache m !! id); cbn; [|done]. by intros [= <-].
Qed.

Lemma dims_get_spin id m : is_Some (get_spin id m) <-> is_Some (dims m !! id).
Proof.
  unfold get_spin, dims. rewrite list_lookup_fmap. by rewrite !fmap_is_Some.
Qed.

Lemma dims_get_buf b m :
  is_Some (get_buf b m) <-> exists c, dims m !! b.1 = Some c /\ (b.2 < c)%nat.
Proof.
  unfold get_buf, dims. rewrite list_lookup_fmap.
  destruct (bcache m !! b.1) as [k|]; cbn.
  - rewrite lookup_lt_is_Some. split.
    + eauto.
    + by intros (? & [= <-] & ?).
  - split; [by intros []|by intros (? & ? & ?)].
Qed.

Create Rewrite HintDb mach.

#[local] Hint Rewrite get_buf_log get_spin_log get_bufs_log dims_log ticks_log
  disk_log trace_log get_buf_set_disk get_spin_set_disk dims_set_disk
  get_buf_set_ticks get_spin_set_ticks dims_set_ticks ticks_put_buf
  ticks_put_spin disk_put_buf disk_put_spin trace_put_buf trace_put_spin
  trace_set_disk get_buf_put_spin get_bufs_put_spin get_spin_put_spin
  get_spin_put_buf get_bufs_put_buf get_buf_put_buf dims_put_spin
  dims_put_buf : mach.

(** ** The scan of a bucket *)

Section Scan.

Variables (d n : Z) (bufs : list buf).

Local Abbreviation lru_upto := (lru_upto bufs).
Local Abbreviation scan_post := (scan_post d n bufs).

Lemma lru_upto_skip i lru b :
  bufs !! i = Some b ->
  (refcnt b =? 0) && lru_older bufs lru b = false ->
  lru_upto i lru -> lru_upto (S i) lru.
Proof.
  intros Hb Hc. destruct lru as [l|]; cbn in *.
  - intros (Hl & x & Hx & Hr & Hmin). split; [lia|].
    exists x. split_and!; [done..|].
    intros j y Hj Hy Hry.
    destruct (decide (j = i)) as [->|Hne].
    + simplify_eq. rewrite Hx in Hc.
      apply andb_false_iff in Hc as [Hc|Hc]; [lia|]. lia.
    + apply Hmin; [lia|done..].
  - intros Hall j y Hj Hy.
    destruct (decide (j = i)) as [->|Hne].
    + simplify_eq. rewrite andb_true_r in Hc. lia.
    + apply Hall with j; [lia|done].
Qed.

Lemma lru_upto_take i lru b :
  bufs !! i = Some b ->
  (refcnt b =? 0) && lru_older bufs lru b = true ->
  lru_upto i lru -> lru_upto (S i) (Some i).
Proof.
  intros Hb Hc Hlru. apply andb_true_iff in Hc as [Hr Hc].
  cbn. split; [lia|]. exists b. split_and!; [done|lia|].
  intros j y Hj Hy Hry.
  destruct (decide (j = i)) as [->|Hne]; [simplify_eq; lia|].
  assert (j < i)%nat as Hji by lia.
  destruct lru as [l|]; cbn in *.
  - destruct Hlru as (Hl & x & Hx & Hrx & Hmin). rewrite Hx in Hc.
    destruct (Hmin j y Hji Hy Hry) as [Hle _]. lia.
  - exfalso. by eapply Hlru.
Qed.

Lemma scan_from_post rest i lru :
  drop i bufs = rest ->
  lru_upto i lru ->
  (forall j z, (j < i)%nat -> bufs !! j = Some z -> ~ (dev z = d /\ blockno z = n)) ->
  scan_post (scan_from d n bufs rest i lru).
Proof.
  revert i lru. induction rest as [|b rest IH]; intros i lru Hdrop Hlru Hno; cbn.
  - assert (length bufs <= i)%nat as Hlen.
    { apply drop_nil_inv in Hdrop. lia. }
    split.
    + intros x Hx. apply list_elem_of_lookup in Hx as [j Hj].
      apply Hno with j; [|done]. apply lookup_lt_Some in Hj. lia.
    + destruct lru as [l|]; cbn in *.
      * destruct Hlru as (Hl & x & Hx & Hrx & Hmin).
        split; [apply lookup_lt_Some in Hx; lia|].
        exists x. split_and!; [done..|].
        intros j y Hj Hy. apply Hmin; [|done].
        apply lookup_lt_Some in Hy. lia.
      * intros j y Hj Hy. apply Hlru with j; [|done].
        apply lookup_lt_Some in Hy. lia.
  - assert (bufs !! i = Some b) as Hb.
    { rewrite <- (Nat.add_0_r i), <- lookup_drop, Hdrop. done. }
    assert (drop (S i) bufs = rest) as Hdrop'.
    { erewrite drop_S in Hdrop by done. by simplify_eq. }
    destruct ((dev b =? d) && (blockno b =? n)) eqn:Hm.
    + cbn. exists b. apply andb_true_iff in Hm as [??].
      split_and!; [done|lia|lia|done].
    + assert (forall j z, (j < S i)%nat -> bufs !! j = Some z ->
                ~ (dev z = d /\ blockno z = n)) as Hno'.
      { intros j z Hj Hz. destruct (decide (j = i)) as [->|Hne].
        - simplify_eq. apply andb_false_iff in Hm as [?|?]; lia.
        - apply Hno with j; [lia|done]. }
      destruct ((refcnt b =? 0) && lru_older bufs lru b) eqn:Hc.
      * apply IH; [done| |done]. by eapply lru_upto_take.
      * apply IH; [done| |done]. by eapply lru_upto_skip.
Qed.

Lemma scan_spec : scan_post (scan d n bufs).
Proof.
  apply scan_from_post; [done| |]; cbn; intros; lia.
Qed.

(** A scan that meets no slot holding the block ends with the first least
    recently used unused slot, or with none when every slot is in use. *)
Lemma scan_no_match :
  no_match d n bufs ->
  (exists i, scan d n bufs = Miss (Some i) /\ first_lru bufs i) \/
  (scan d n bufs = Miss None /\ forall y, y ∈ bufs -> refcnt y <> 0).
Proof.
  intros Hno. pose proof scan_spec as Hs.
  destruct (scan d n bufs) as [h|[l|]]; cbn in Hs.
  - destruct Hs as (y & Hy & Hd & Hn & _). exfalso.
    apply (Hno y); [by eapply list_elem_of_lookup_2|done].
  - destruct Hs as (_ & Hl & x & Hx & Hr & Hmin). left. exists l.
    split; [done|]. exists x. split_and!; [done..|].
    intros j y Hy. apply Hmin; [|done]. by eapply lookup_lt_Some.
  - destruct Hs as (_ & Hall). right. split; [done|].
    intros y Hy. apply list_elem_of_lookup in Hy as [j Hj].
    apply Hall with j; [|done]. by eapply lookup_lt_Some.
Qed.

(** A scan of a bucket that holds the block stops at its first holder. *)
Lemma scan_match i x :
  bufs !! i = Some x -> dev x = d -> blockno x = n ->
  exists h y, scan d n bufs = Hit h /\ (h <= i)%nat /\ bufs !! h = Some y /\
    dev y = d /\ blockno y = n.
Proof.
  intros Hx Hd Hn. pose proof scan_spec as Hs.
  destruct (scan d n bufs) as [h|lru]; cbn in Hs.
  - destruct Hs as (y & Hy & Hdy & Hny & Hfirst). exists h, y.
    split_and!; [done| |done..].
    destruct (decide (h <= i)%nat); [done|]. exfalso.
    apply (Hfirst i x); [lia|done..].
  - destruct Hs as [Hno _]. exfalso.
    apply (Hno x); [by eapply list_elem_of_lookup_2|done].
Qed.

End Scan.

(** ** Running the code *)

Ltac unfold_ops :=
  unfold bget, bget_locked, bread, bread_fill, bwrite, brelse, brelse_locked,
    bpin, bunpin, holdingsleep, bind, ret, acquire, release, acquiresleep,
    releasesleep, initlock, initsleeplock, virtio_disk_rw, update, load, slots,
    read_ticks, panic in *;
  cbv beta zeta in *.

Ltac unfold_calls :=
  unfold bget, bget_locked, bread, bread_fill, bwrite, brelse, brelse_locked,
    bpin, bunpin, bind in *;
  cbv beta zeta in *.

Ltac unfold_bucket := unfold bucket_of in *.

Ltac unfold_wf := unfold wf in *.

Ltac unfold_boot := unfold binit, boot, zero_bucket, zero_buf in *.

Ltac views :=
  repeat (progress (autorewrite with mach in *;
                    try rewrite !decide_True in * by done;
                    cbn [fmap option_fmap option_map fst snd] in *)).

Ltac zero_test :=
  change (0 =? 0) with true in *; cbv beta iota in *.

Lemma spin_free_eta l : spin_locked l = 0 -> mkspin 0 (spin_name l) = l.
Proof. destruct l; cbn; by intros ->. Qed.

(** Closes an equation between the shard locks of a state and those of
    its updates, the lock taken having been free. *)
Ltac spin_done :=
  views; repeat case_decide; simplify_eq; views;
  repeat match goal with
         | H : get_spin _ _ = Some _ |- _ => rewrite H
         end;
  cbn [fmap option_fmap option_map spin_name];
  rewrite ?spin_free_eta by done; done.

Lemma writes_other m m' b x' evs b' :
  writes m m' b x' evs -> b' <> b -> get_buf b' m' = get_buf b' m.
Proof. intros (_ & H & _). apply H. Qed.

Lemma writes_spin m m' b x' evs id :
  writes m m' b x' evs -> get_spin id m' = get_spin id m.
Proof. intros (_ & _ & H & _). apply H. Qed.

Lemma writes_trace m m' b x' evs :
  writes m m' b x' evs -> trace m' = trace m ++ evs.
Proof. intros (_ & _ & _ & _ & _ & _ & H). apply H. Qed.

Lemma writes_ticks m m' b x' evs : writes m m' b x' evs -> ticks m' = ticks m.
Proof. intros (_ & _ & _ & _ & _ & H & _). apply H. Qed.

Lemma writes_disk m m' b x' evs : writes m m' b x' evs -> disk m' = disk m.
Proof. intros (_ & _ & _ & _ & H & _). apply H. Qed.

Lemma writes_trans m m1 m2 b x1 x2 e1 e2 :
  writes m m1 b x1 e1 -> writes m1 m2 b x2 e2 -> writes m m2 b x2 (e1 ++ e2).
Proof.
  intros (H1 & H2 & H3 & H4 & H5 & H6 & H7) (G1 & G2 & G3 & G4 & G5 & G6 & G7).
  unfold writes. split_and!.
  - done.
  - intros b' Hne. rewrite G2, H2; done.
  - intros id. by rewrite G3, H3.
  - congruence.
  - congruence.
  - congruence.
  - by rewrite G7, H7, app_assoc.
Qed.

(** *** The slot locks *)

Lemma acquiresleep_run p b x m :
  get_buf b m = Some x -> sleep_locked (lock x) = 0 ->
  exists m', acquiresleep p b m = Ret tt m' /\
    writes m m' b (set_lock (mksleep 1 p (sleep_name (lock x))) x)
      [EvAcquireSleep p b].
Proof.
  intros Hx Hfree. unfold_ops. rewrite Hx, Hfree. zero_test.
  eexists. split; [done|]. unfold writes. views. rewrite Hx.
  split_and!; try done.
  - intros b' Hne. views. by rewrite decide_False by done.
  - intros id. by views.
Qed.

Lemma acquiresleep_blocked p b x m :
  get_buf b m = Some x -> sleep_locked (lock x) <> 0 ->
  acquiresleep p b m = Blocked (WSleep b) m.
Proof.
  intros Hx Hheld. unfold_ops. rewrite Hx.
  destruct (Z.eqb_spec (sleep_locked (lock x)) 0); done.
Qed.

Lemma acquiresleep_pre p b m m' :
  acquiresleep p b m = Ret tt m' ->
  exists x, get_buf b m = Some x /\ sleep_locked (lock x) = 0.
Proof.
  unfold_ops. intros H. repeat case_match; simplify_eq.
  eexists. split; [done|]. lia.
Qed.

Lemma releasesleep_run b x m :
  get_buf b m = Some x ->
  exists m', releasesleep b m = Ret tt m' /\
    writes m m' b (set_lock (mksleep 0 0 (sleep_name (lock x))) x)
      [EvReleaseSleep b].
Proof.
  intros Hx. unfold_ops. rewrite Hx.
  eexists. split; [done|]. unfold writes. views. rewrite Hx.
  split_and!; try done.
  - intros b' Hne. views. by rewrite decide_False by done.
  - intros id. by views.
Qed.

Lemma releasesleep_pre b m m' :
  releasesleep b m = Ret tt m' -> is_Some (get_buf b m).
Proof. unfold_ops. intros H. repeat case_match; simplify_eq. eauto. Qed.

(** *** The sections under a shard lock *)

(** A section that takes the free shard lock [id], stores [x'] into slot
    [b] and drops the lock again changes slot [b] and nothing else. *)
Lemma locked_store_writes id l b x x' m :
  get_spin id m = Some l -> spin_locked l = 0 -> get_buf b m = Some x ->
  writes m
    (log (EvRelease id)
       (put_spin id (mkspin 0 (spin_name l))
          (log (EvStore b)
             (put_buf b x'
                (log (EvAcquire id)
                   (put_spin id (mkspin 1 (spin_name l)) m))))))
    b x' [EvAcquire id; EvStore b; EvRelease id].
Proof.
  intros Hl Hfree Hx. unfold writes. views. rewrite Hx. cbn [fmap option_fmap option_map].
  split_and!; try done.
  - intros b' Hne. views. by rewrite decide_False by done.
  - intros id'. spin_done.
  - by rewrite <- !app_assoc.
Qed.

Section Proofs.

Variables NBUCKETS NBUF BSIZE : nat.

Local Abbreviation bucket_of := (bucket_of NBUCKETS).
Local Abbreviation bget := (bget NBUCKETS).
Local Abbreviation bget_locked := (bget_locked NBUCKETS).
Local Abbreviation bread := (bread NBUCKETS).
Local Abbreviation brelse := (brelse NBUCKETS).
Local Abbreviation brelse_locked := (brelse_locked NBUCKETS).
Local Abbreviation bpin := (bpin NBUCKETS).
Local Abbreviation bunpin := (bunpin NBUCKETS).
Local Abbreviation wf := (wf NBUCKETS NBUF).
Local Abbreviation hashed := (hashed NBUCKETS).
Local Abbreviation inv := (inv NBUCKETS NBUF).
Local Abbreviation reach := (reach NBUCKETS NBUF BSIZE).

(** [bget] is its section under the shard lock followed by the taking of
    the slot lock. *)
Lemma bget_split p d n m :
  bget p d n m = (b <- bget_locked d n ;; acquiresleep p b ;; ret b) m.
Proof.
  unfold_calls.
  destruct (acquire _ m) as [[] m1| | |]; try done.
  destruct (slots _ m1) as [bufs m2| | |]; try done.
  destruct (scan d n bufs) as [h|[i|]].
  - destruct (update _ _ m2) as [[] m3| | |]; try done.
    destruct (release _ m3) as [[] m4| | |]; done.
  - unfold read_ticks.
    destruct (update _ _ m2) as [[] m3| | |]; try done.
    destruct (release _ m3) as [[] m4| | |]; done.
  - destruct (release _ m2) as [[] m3| | |]; done.
Qed.

Lemma bget_locked_hit d n m l bufs h y :
  get_spin (bucket_of n) m = Some l -> spin_locked l = 0 ->
  get_bufs (bucket_of n) m = Some bufs ->
  scan d n bufs = Hit h -> bufs !! h = Some y ->
  exists m1, bget_locked d n m = Ret (bucket_of n, h) m1 /\
    writes m m1 (bucket_of n, h) (incr_refcnt y)
      [EvAcquire (bucket_of n); EvStore (bucket_of n, h); EvRelease (bucket_of n)].
Proof.
  intros Hl Hfree Hbufs Hs Hy.
  pose proof (get_bufs_get_buf _ h _ _ Hbufs) as Hb. rewrite Hy in Hb.
  unfold_ops. rewrite Hl, Hfree. zero_test. views. rewrite Hbufs.
  cbv beta iota. rewrite Hs. views. rewrite Hb. views. rewrite Hl. views.
  eexists. split; [done|]. by apply (locked_store_writes _ l _ _ _ _ Hl Hfree Hb).
Qed.

Lemma bget_locked_miss d n m l bufs i x :
  get_spin (bucket_of n) m = Some l -> spin_locked l = 0 ->
  get_bufs (bucket_of n) m = Some bufs ->
  scan d n bufs = Miss (Some i) -> bufs !! i = Some x ->
  exists m1, bget_locked d n m = Ret (bucket_of n, i) m1 /\
    writes m m1 (bucket_of n, i) (recycle d n (ticks m) x)
      [EvAcquire (bucket_of n); EvStore (bucket_of n, i); EvRelease (bucket_of n)].
Proof.
  intros Hl Hfree Hbufs Hs Hx.
  pose proof (get_bufs_get_buf _ i _ _ Hbufs) as Hb. rewrite Hx in Hb.
  unfold_ops. rewrite Hl, Hfree. zero_test. views. rewrite Hbufs.
  cbv beta iota. rewrite Hs. views. rewrite Hb. views. rewrite Hl. views.
  eexists. split; [done|]. by apply (locked_store_writes _ l _ _ _ _ Hl Hfree Hb).
Qed.

Lemma bget_locked_none d n m l bufs :
  get_spin (bucket_of n) m = Some l -> spin_locked l = 0 ->
  get_bufs (bucket_of n) m = Some bufs ->
  scan d n bufs = Miss None ->
  exists m1, bget_locked d n m = Panic "bget: no buffers" m1 /\
    trace m1 = trace m ++ [EvAcquire (bucket_of n); EvRelease (bucket_of n);
                           EvPanic "bget: no buffers"] /\
    (forall b, get_buf b m1 = get_buf b m) /\
    (forall id, get_spin id m1 = get_spin id m) /\
    dims m1 = dims m /\ disk m1 = disk m /\ ticks m1 = ticks m.
Proof.
  intros Hl Hfree Hbufs Hs.
  unfold_ops. rewrite Hl, Hfree. zero_test. views. rewrite Hbufs.
  cbv beta iota. rewrite Hs. views. rewrite Hl. views.
  eexists. split; [done|]. views. split_and!; try done.
  - by rewrite <- !app_assoc.
  - intros b. by views.
  - intros id. spin_done.
Qed.

(** What a section of [bget] that returns has found on entry. *)
Lemma bget_locked_pre d n m b m' :
  bget_locked d n m = Ret b m' ->
  exists l bufs, get_spin (bucket_of n) m = Some l /\ spin_locked l = 0 /\
    get_bufs (bucket_of n) m = Some bufs /\
    ((exists h y, scan d n bufs = Hit h /\ bufs !! h = Some y /\ b = (bucket_of n, h)) \/
     (exists i x, scan d n bufs = Miss (Some i) /\ bufs !! i = Some x /\
        b = (bucket_of n, i))).
Proof.
  intros H. unfold_ops.
  destruct (get_spin (bucket_of n) m) as [l|] eqn:Hl; [|done].
  destruct (Z.eqb_spec (spin_locked l) 0) as [Hfree|]; [|done].
  views. destruct (get_bufs (bucket_of n) m) as [bufs|] eqn:Hbufs; [|done].
  exists l, bufs. split_and!; [done..|].
  pose proof (scan_spec d n bufs) as Hpost.
  destruct (scan d n bufs) as [h|[i|]]; cbn in Hpost.
  - left. destruct Hpost as (y & Hy & _). exists h, y. split_and!; [done..|].
    repeat case_match; simplify_eq. done.
  - right. destruct Hpost as (_ & _ & x & Hx & _). exists i, x.
    split_and!; [done..|]. repeat case_match; simplify_eq. done.
  - repeat case_match; simplify_eq.
Qed.

Lemma brelse_locked_run b x l m :
  get_buf b m = Some x ->
  get_spin (bucket_of (blockno x)) m = Some l -> spin_locked l = 0 ->
  exists m', brelse_locked b m = Ret tt m' /\
    writes m m' b (set_tstamp (ticks m) (decr_refcnt x))
      [EvAcquire (bucket_of (blockno x)); EvStore b;
       EvRelease (bucket_of (blockno x))].
Proof.
  intros Hx Hl Hfree. unfold_ops. rewrite Hx. cbv beta iota.
  rewrite Hl, Hfree. zero_test. views. rewrite Hx. views. rewrite Hl. views.
  eexists. split; [done|]. by apply (locked_store_writes _ l _ _ _ _ Hl Hfree Hx).
Qed.

Lemma bpin_run b x l m :
  get_buf b m = Some x ->
  get_spin (bucket_of (blockno x)) m = Some l -> spin_locked l = 0 ->
  exists m', bpin b m = Ret tt m' /\
    writes m m' b (incr_refcnt x)
      [EvAcquire (bucket_of (blockno x)); EvStore b;
       EvRelease (bucket_of (blockno x))].
Proof.
  intros Hx Hl Hfree. unfold_ops. rewrite Hx. cbv beta iota.
  rewrite Hl, Hfree. zero_test. views. rewrite Hx. views. rewrite Hl. views.
  eexists. split; [done|]. by apply (locked_store_writes _ l _ _ _ _ Hl Hfree Hx).
Qed.

Lemma bunpin_run b x l m :
  get_buf b m = Some x ->
  get_spin (bucket_of (blockno x)) m = Some l -> spin_locked l = 0 ->
  exists m', bunpin b m = Ret tt m' /\
    writes m m' b (decr_refcnt x)
      [EvAcquire (bucket_of (blockno x)); EvStore b;
       EvRelease (bucket_of (blockno x))].
Proof.
  intros Hx Hl Hfree. unfold_ops. rewrite Hx. cbv beta iota.
  rewrite Hl, Hfree. zero_test. views. rewrite Hx. views. rewrite Hl. views.
  eexists. split; [done|]. by apply (locked_store_writes _ l _ _ _ _ Hl Hfree Hx).
Qed.

(** What a section of [brelse], [bpin] or [bunpin] that returns has found
    on entry. *)
Lemma brelse_locked_pre b m m' :
  brelse_locked b m = Ret tt m' ->
  exists x l, get_buf b m = Some x /\
    get_spin (bucket_of (blockno x)) m = Some l /\ spin_locked l = 0.
Proof.
  intros H. unfold_ops.
  destruct (get_buf b m) as [x|] eqn:Hx; [|done].
  destruct (get_spin (bucket_of (blockno x)) m) as [l|] eqn:Hl; [|done].
  destruct (Z.eqb_spec (spin_locked l) 0); [|done]. eauto.
Qed.

Lemma bpin_pre b m m' :
  bpin b m = Ret tt m' ->
  exists x l, get_buf b m = Some x /\
    get_spin (bucket_of (blockno x)) m = Some l /\ spin_locked l = 0.
Proof.
  intros H. unfold_ops.
  destruct (get_buf b m) as [x|] eqn:Hx; [|done].
  destruct (get_spin (bucket_of (blockno x)) m) as [l|] eqn:Hl; [|done].
  destruct (Z.eqb_spec (spin_locked l) 0); [|done]. eauto.
Qed.

Lemma bunpin_pre b m m' :
  bunpin b m = Ret tt m' ->
  exists x l, get_buf b m = Some x /\
    get_spin (bucket_of (blockno x)) m = Some l /\ spin_locked l = 0.
Proof.
  intros H. unfold_ops.
  destruct (get_buf b m) as [x|] eqn:Hx; [|done].
  destruct (get_spin (bucket_of (blockno x)) m) as [l|] eqn:Hl; [|done].
  destruct (Z.eqb_spec (spin_locked l) 0); [|done]. eauto.
Qed.

(** *** The disk *)

Lemma bread_fill_valid b x m :
  get_buf b m = Some x -> valid x <> 0 -> bread_fill b m = Ret b m.
Proof.
  intros Hx Hv. unfold_ops. rewrite Hx. cbv beta iota.
  destruct (Z.eqb_spec (valid x) 0); done.
Qed.

Lemma bread_fill_invalid b x m :
  get_buf b m = Some x -> valid x = 0 ->
  exists m', bread_fill b m = Ret b m' /\
    writes m m' b (set_valid 1 (set_data (disk m (dev x, blockno x)) x))
      [EvDiskRw b false; EvStore b].
Proof.
  intros Hx Hv. unfold_ops. rewrite Hx. cbv beta iota. rewrite Hv. zero_test.
  rewrite Hx. views. rewrite Hx. views.
  eexists. split; [done|]. unfold writes. views. rewrite Hx. views.
  split_and!; try done.
  - intros b' Hne. views. by rewrite !decide_False by done.
  - intros id. by views.
  - by rewrite <- !app_assoc.
Qed.

Lemma bread_fill_pre b b' m m' :
  bread_fill b m = Ret b' m' -> b' = b /\ is_Some (get_buf b m).
Proof.
  intros H. unfold_ops.
  destruct (get_buf b m) as [x|] eqn:Hx; [|done].
  split; [|by eauto]. repeat case_match; simplify_eq; done.
Qed.

Lemma bwrite_run p b x m :
  get_buf b m = Some x -> holding p x = true ->
  bwrite p b m =
    Ret tt (log (EvDiskRw b true)
              (set_disk (fun dk k =>
                 if decide (k = (dev x, blockno x)) then data x else dk k) m)).
Proof.
  intros Hx Hh. unfold_ops. rewrite Hx. cbv beta iota. rewrite Hh.
  cbn [negb]. cbv iota. by rewrite Hx.
Qed.

Lemma bwrite_pre p b m m' :
  bwrite p b m = Ret tt m' ->
  exists x, get_buf b m = Some x /\ holding p x = true.
Proof.
  intros H. unfold_ops.
  destruct (get_buf b m) as [x|] eqn:Hx; [|done].
  destruct (holding p x) eqn:Hh; [by eauto|done].
Qed.

Lemma bwrite_not_holding p b x m :
  get_buf b m = Some x -> holding p x = false ->
  bwrite p b m = Panic "bwrite" (log (EvPanic "bwrite") m).
Proof.
  intros Hx Hh. unfold_ops. rewrite Hx. cbv beta iota. by rewrite Hh.
Qed.

Lemma brelse_not_holding p b x m :
  get_buf b m = Some x -> holding p x = false ->
  brelse p b m = Panic "brelse" (log (EvPanic "brelse") m).
Proof.
  intros Hx Hh. unfold_ops. rewrite Hx. cbv beta iota. by rewrite Hh.
Qed.

(** [brelse] by the holder of the slot lock is the release of that lock
    followed by the section under the shard lock. *)
Lemma brelse_split p b x m :
  get_buf b m = Some x -> holding p x = true ->
  brelse p b m = (releasesleep b ;; brelse_locked b) m.
Proof.
  intros Hx Hh. unfold brelse, holdingsleep, load, bind, ret.
  rewrite Hx. by rewrite Hh.
Qed.

Lemma holdingsleep_pre p b m :
  holdingsleep p b m = Ret true m ->
  exists x, get_buf b m = Some x /\ holding p x = true.
Proof.
  unfold_ops. intros H.
  destruct (get_buf b m) as [x|] eqn:Hx; [|done]. exists x. by simplify_eq.
Qed.

(** ** The array has its declared size *)

Lemma wf_get_spin m id : wf m -> is_Some (get_spin id m) <-> (id < NBUCKETS)%nat.
Proof.
  intros Hwf. rewrite dims_get_spin, Hwf. rewrite lookup_lt_is_Some.
  by rewrite length_replicate.
Qed.

Lemma wf_get_buf m b :
  wf m -> is_Some (get_buf b m) <-> (b.1 < NBUCKETS)%nat /\ (b.2 < NBUF)%nat.
Proof.
  intros Hwf. rewrite dims_get_buf, Hwf. split.
  - intros (c & Hc & Hlt). apply lookup_replicate in Hc as [-> ?]. done.
  - intros [H1 H2]. exists NBUF. split; [|done]. by apply lookup_replicate_2.
Qed.

Lemma bucket_of_lt n : (0 < NBUCKETS)%nat -> (bucket_of n < NBUCKETS)%nat.
Proof.
  intros Hpos. unfold_bucket.
  pose proof (Z.mod_pos_bound n (Z.of_nat NBUCKETS)). lia.
Qed.

Lemma wrap_range z : 0 <= wrap z < UINT_MOD.
Proof. unfold wrap, UINT_MOD. apply Z.mod_pos_bound. lia. Qed.

(** ** The invariant *)

(** A step that changes one slot keeps the invariant when it keeps the
    identity of the slot, or gives it an identity that no other slot of its
    bucket has and that hashes to its bucket; a slot lock may only be
    taken on a slot that lies in the bucket of its block number. *)
Lemma inv_writes m m' R b x x' evs :
  inv m R -> get_buf b m = Some x -> writes m m' b x' evs ->
  0 <= refcnt x' < UINT_MOD ->
  ((dev x' = dev x /\ blockno x' = blockno x) \/
   (bucket_of (blockno x') = b.1 /\
    forall j y, j <> b.2 -> get_buf (b.1, j) m = Some y ->
      ~ (dev y = dev x' /\ blockno y = blockno x'))) ->
  (sleep_locked (lock x') <> 0 ->
   sleep_locked (lock x) <> 0 \/ bucket_of (blockno x') = b.1) ->
  inv m' R.
Proof.
  intros [Hwf Hspin Href Hhome Huniq Hlocked Hret] Hx
    (Hb & Hoth & Hsp & Hdims & _ & _ & _) Hrange Hid Hlk.
  assert (forall c y', get_buf c m' = Some y' ->
            (c = b /\ y' = x') \/ (c <> b /\ get_buf c m = Some y')) as Hcase.
  { intros c y' Hy. destruct (decide (c = b)) as [->|Hne].
    - left. split; [done|congruence].
    - right. split; [done|]. by rewrite <- Hoth. }
  assert (bucket_of (blockno x') = b.1 \/
          (dev x' = dev x /\ blockno x' = blockno x)) as Hid' by tauto.
  constructor.
  - unfold_wf. congruence.
  - intros id l. rewrite Hsp. apply Hspin.
  - intros c y' Hy. destruct (Hcase c y' Hy) as [[-> ->]|[Hne Hy']]; [done|].
    by eapply Href.
  - intros c y' Hy. destruct (Hcase c y' Hy) as [[-> ->]|[Hne Hy']].
    + destruct Hid as [[-> ->]|[? _]]; [by eapply Hhome|by right].
    + by eapply Hhome.
  - intros i j1 j2 y1 y2 Hy1 Hy2 Hd Hn.
    destruct (Hcase _ _ Hy1) as [[<- ->]|[Hne1 Hy1']],
             (Hcase _ _ Hy2) as [[E ->]|[Hne2 Hy2']].
    + left. congruence.
    + cbn [fst snd] in *. destruct Hid as [[Ed En]|[_ Hno]].
      * destruct (Huniq i j1 j2 x y2 Hx Hy2') as [?|[? ?]];
          [congruence..|by left|right; split; congruence].
      * exfalso. apply (Hno j2 y2); [congruence|done|]. split; congruence.
    + subst b. cbn [fst snd] in *. destruct Hid as [[Ed En]|[_ Hno]].
      * destruct (Huniq i j1 j2 y1 x Hy1' Hx) as [?|[? ?]];
          [congruence..|by left|right; split; congruence].
      * exfalso. apply (Hno j1 y1); [congruence|done|]. split; congruence.
    + by eapply Huniq.
  - intros c y' Hy Hheld. destruct (Hcase c y' Hy) as [[-> ->]|[Hne Hy']].
    + destruct (Hlk Hheld) as [Hwas|?]; [|done].
      destruct Hid as [[_ ->]|[? _]]; [by eapply Hlocked|done].
    + by eapply Hlocked.
  - intros c Hc. destruct (Hret c Hc) as (y & Hy & Hh).
    destruct (decide (c = b)) as [->|Hne].
    + exists x'. split; [done|]. simplify_eq.
      destruct Hid as [[_ ->]|[? _]]; done.
    + exists y. by rewrite Hoth.
Qed.

Lemma inv_cons m R b : inv m R -> hashed m b -> inv m (b :: R).
Proof.
  intros [Hwf Hspin Href Hhome Huniq Hlocked Hret] Hb.
  constructor; try done.
  intros c Hc. apply elem_of_cons in Hc as [->|Hc]; [done|by apply Hret].
Qed.

(** A step that leaves [bcache] alone keeps the invariant. *)
Lemma inv_same_bcache m m' R : bcache m' = bcache m -> inv m R -> inv m' R.
Proof.
  intros E [Hwf Hspin Href Hhome Huniq Hlocked Hret].
  assert (forall b, get_buf b m' = get_buf b m) as Hb
    by (intros b; unfold get_buf; by rewrite E).
  assert (forall id, get_spin id m' = get_spin id m) as Hs
    by (intros id; unfold get_spin; by rewrite E).
  constructor.
  - unfold_wf; unfold dims in *. by rewrite E.
  - intros id l. rewrite Hs. apply Hspin.
  - intros b x. rewrite Hb. apply Href.
  - intros b x. rewrite Hb. apply Hhome.
  - intros i j1 j2 x1 x2. rewrite !Hb. apply Huniq.
  - intros b x. rewrite Hb. apply Hlocked.
  - intros b Hin. destruct (Hret b Hin) as (x & Hx & Hh).
    exists x. by rewrite Hb.
Qed.

(** ** Initialization *)

(** A loop over [s, s + k) that re-establishes [I] at every turn runs to
    its end. *)
Lemma for_each_seq (I : nat -> machine -> Prop) (body : nat -> M unit) k :
  forall s m,
    I s m ->
    (forall i m0, (s <= i < s + k)%nat -> I i m0 ->
       exists m1, body i m0 = Ret tt m1 /\ I (S i) m1) ->
    exists m', for_each (seq s k) body m = Ret tt m' /\ I (s + k)%nat m'.
Proof.
  induction k as [|k IH]; intros s m HI Hbody; cbn [seq for_each].
  - exists m. split; [done|]. by rewrite Nat.add_0_r.
  - destruct (Hbody s m ltac:(lia) HI) as (m1 & Hrun & HI1).
    destruct (IH (S s) m1 HI1) as (m' & Hrest & HI').
    { intros i m0 Hi. apply Hbody. lia. }
    exists m'. unfold bind. rewrite Hrun. split; [done|].
    by replace (s + S k)%nat with (S s + k)%nat by lia.
Qed.

Lemma wf_boot d : wf (boot NBUCKETS NBUF BSIZE d).
Proof.
  unfold_wf. unfold_boot. unfold dims. cbn [bcache].
  rewrite fmap_replicate. cbn [bk_buf]. by rewrite length_replicate.
Qed.

Lemma get_buf_boot d b x :
  get_buf b (boot NBUCKETS NBUF BSIZE d) = Some x -> x = zero_buf BSIZE.
Proof.
  unfold get_buf. unfold_boot. cbn [bcache].
  destruct (replicate NBUCKETS _ !! b.1) as [k|] eqn:Hk; [|done].
  apply lookup_replicate in Hk as [-> _]. cbn [bk_buf].
  intros Hx. by apply lookup_replicate in Hx as [-> _].
Qed.

Lemma get_spin_boot d id l :
  get_spin id (boot NBUCKETS NBUF BSIZE d) = Some l -> l = mkspin 0 None.
Proof.
  unfold get_spin. unfold_boot. cbn [bcache].
  destruct (replicate NBUCKETS _ !! id) as [k|] eqn:Hk; [|done].
  apply lookup_replicate in Hk as [-> _]. cbn. congruence.
Qed.

Lemma init_upto_boot d : init_upto NBUCKETS NBUF 0 0 0 (boot NBUCKETS NBUF BSIZE d).
Proof.
  split_and!.
  - apply wf_boot.
  - intros id l Hl. apply get_spin_boot in Hl as ->. cbn. split; [done|lia].
  - intros b x Hx. apply get_buf_boot in Hx as ->. cbn.
    split_and!; try done. intros [?|[_ ?]]; lia.
Qed.

Lemma initlock_step i m :
  (i < NBUCKETS)%nat -> init_upto NBUCKETS NBUF i i 0 m ->
  exists m', initlock i "bcache" m = Ret tt m' /\
    init_upto NBUCKETS NBUF (S i) i 0 m' /\
    disk m' = disk m /\ ticks m' = ticks m.
Proof.
  intros Hi (Hwf & Hspin & Hbuf).
  destruct (proj2 (wf_get_spin m i Hwf) Hi) as [l Hl].
  unfold_ops. rewrite Hl. eexists. split; [done|]. split; [|done].
  split_and!.
  - unfold_wf. by views.
  - intros id l'. views. case_decide as E.
    + subst id. rewrite Hl. cbn. intros [= <-]. done.
    + intros Hl'. destruct (Hspin id l' Hl') as [? Hn].
      split; [done|]. intros ?. apply Hn. lia.
  - intros b x. views. apply Hbuf.
Qed.

Lemma initsleeplock_step i j m :
  (i < NBUCKETS)%nat -> (j < NBUF)%nat ->
  init_upto NBUCKETS NBUF (S i) i j m ->
  exists m', initsleeplock (i, j) "buffer" m = Ret tt m' /\
    init_upto NBUCKETS NBUF (S i) i (S j) m' /\
    disk m' = disk m /\ ticks m' = ticks m.
Proof.
  intros Hi Hj (Hwf & Hspin & Hbuf).
  destruct (proj2 (wf_get_buf m (i, j) Hwf) (conj Hi Hj)) as [x Hx].
  unfold_ops. rewrite Hx. eexists. split; [done|]. split; [|done].
  split_and!.
  - unfold_wf. by views.
  - intros id l'. views. apply Hspin.
  - intros b y. views. case_decide as E.
    + subst b. rewrite Hx. cbn. intros [= <-]. cbn.
      destruct (Hbuf _ _ Hx) as (?&?&?&?&?&?&?&?). done.
    + intros Hy. destruct (Hbuf _ _ Hy) as (?&?&?&?&?&?&?&Hn).
      split_and!; try done. intros [?|[? ?]]; apply Hn; [by left|].
      right. split; [done|]. destruct b as [bi bj]; cbn in *.
      assert (bj <> j) by congruence. lia.
Qed.

Lemma init_upto_next i m :
  init_upto NBUCKETS NBUF (S i) i NBUF m -> init_upto NBUCKETS NBUF (S i) (S i) 0 m.
Proof.
  intros (Hwf & Hspin & Hbuf). split_and!; [done..|].
  intros b x Hx. destruct (Hbuf b x Hx) as (?&?&?&?&?&?&?&Hn).
  split_and!; try done. intros [Hlt|[_ ?]]; [|lia]. apply Hn.
  assert (b.2 < NBUF)%nat by (apply (wf_get_buf m b Hwf); eauto). lia.
Qed.

(** [binit] returns, on the memory of a kernel that has just started, with
    every lock initialized and nothing else changed. *)
Lemma binit_run d :
  exists m, binit NBUCKETS NBUF (boot NBUCKETS NBUF BSIZE d) = Ret tt m /\
    init_upto NBUCKETS NBUF NBUCKETS NBUCKETS 0 m /\
    disk m = d /\ ticks m = 0.
Proof.
  unfold binit.
  destruct (for_each_seq
    (fun i m => init_upto NBUCKETS NBUF i i 0 m /\ disk m = d /\ ticks m = 0)
    (fun i => initlock i "bcache" ;;
              for_each (seq 0 NBUF) (fun j => initsleeplock (i, j) "buffer"))
    NBUCKETS 0%nat (boot NBUCKETS NBUF BSIZE d)) as (m & Hrun & Hm).
  - split; [apply init_upto_boot|done].
  - intros i m0 Hi (Hinit & Hd & Ht).
    destruct (initlock_step i m0 ltac:(lia) Hinit) as (m1 & Hrun1 & Hinit1 & Hd1 & Ht1).
    destruct (for_each_seq
      (fun j m => init_upto NBUCKETS NBUF (S i) i j m /\ disk m = d /\ ticks m = 0)
      (fun j => initsleeplock (i, j) "buffer") NBUF 0%nat m1)
      as (m2 & Hrun2 & Hinit2 & Hd2 & Ht2).
    + split; [done|]. split; congruence.
    + intros j m3 Hj (Hinit3 & Hd3 & Ht3).
      destruct (initsleeplock_step i j m3 ltac:(lia) ltac:(lia) Hinit3)
        as (m4 & Hrun4 & Hinit4 & Hd4 & Ht4).
      exists m4. split; [done|]. split; [done|]. split; congruence.
    + exists m2. unfold bind. rewrite Hrun1. split; [done|].
      split; [|done]. by apply init_upto_next.
  - exists m. done.
Qed.

Lemma inv_init m : init_upto NBUCKETS NBUF NBUCKETS NBUCKETS 0 m -> inv m [].
Proof.
  intros (Hwf & Hspin & Hbuf). constructor.
  - done.
  - intros id l Hl. by destruct (Hspin id l Hl).
  - intros b x Hx. destruct (Hbuf b x Hx) as (?&?&?&->&_). unfold UINT_MOD. lia.
  - intros b x Hx. destruct (Hbuf b x Hx) as (?&?&?&_). by left.
  - intros i j1 j2 x1 x2 Hx1 _ _ _. destruct (Hbuf _ x1 Hx1) as (?&?&?&_).
    by right.
  - intros b x Hx Hheld. destruct (Hbuf b x Hx) as (?&?&?&?&?&?&_). done.
  - intros b Hb. by apply elem_of_nil in Hb.
Qed.

(** ** Every state of the cache satisfies the invariant *)

Lemma inv_bget_locked m R d n b m' :
  inv m R -> bget_locked d n m = Ret b m' ->
  inv m' (b :: R) /\ b.1 = bucket_of n /\
  exists x', get_buf b m' = Some x' /\ dev x' = d /\ blockno x' = n.
Proof.
  intros Hinv Hrun.
  destruct (bget_locked_pre _ _ _ _ _ Hrun)
    as (l & bufs & Hl & Hfree & Hbufs & [(h & y & Hs & Hy & ->)|(i & x & Hs & Hx & ->)]).
  - pose proof (scan_spec d n bufs) as Hpost. rewrite Hs in Hpost.
    destruct Hpost as (y' & Hy' & Hd & Hn & _). simplify_eq.
    destruct (bget_locked_hit _ _ _ _ _ _ _ Hl Hfree Hbufs Hs Hy) as (m1 & Hrun1 & Hw).
    rewrite Hrun1 in Hrun. simplify_eq.
    pose proof (get_bufs_get_buf _ h _ _ Hbufs) as Hb. rewrite Hy in Hb.
    assert (get_buf (bucket_of (blockno y), h) m' = Some (incr_refcnt y)) as Hb'
      by apply Hw.
    split_and!; [|done|by exists (incr_refcnt y)].
    apply inv_cons.
    + eapply inv_writes; [done|done|done|apply wrap_range|by left|by left].
    + by exists (incr_refcnt y).
  - pose proof (scan_spec d n bufs) as Hpost. rewrite Hs in Hpost.
    destruct Hpost as (Hno & _).
    destruct (bget_locked_miss _ _ _ _ _ _ _ Hl Hfree Hbufs Hs Hx) as (m1 & Hrun1 & Hw).
    rewrite Hrun1 in Hrun. simplify_eq.
    pose proof (get_bufs_get_buf _ i _ _ Hbufs) as Hb. rewrite Hx in Hb.
    assert (get_buf (bucket_of n, i) m' = Some (recycle d n (ticks m) x)) as Hb'
      by apply Hw.
    split_and!; [|done|by exists (recycle d n (ticks m) x)].
    apply inv_cons.
    + eapply inv_writes; [done|done|done| | |by left].
      * cbn. unfold UINT_MOD. lia.
      * right. split; [done|]. cbn [fst snd]. intros j y Hj Hyj.
        rewrite (get_bufs_get_buf _ j _ _ Hbufs) in Hyj.
        apply Hno. by eapply list_elem_of_lookup_2.
    + by exists (recycle d n (ticks m) x).
Qed.

Lemma inv_acquiresleep m R p b m' :
  inv m R -> b ∈ R -> acquiresleep p b m = Ret tt m' -> inv m' R.
Proof.
  intros Hinv Hb Hrun.
  destruct (acquiresleep_pre _ _ _ _ Hrun) as (x & Hx & Hfree).
  destruct (acquiresleep_run p _ _ _ Hx Hfree) as (m1 & Hrun1 & Hw).
  rewrite Hrun1 in Hrun. simplify_eq.
  eapply inv_writes; [done|done|done|apply (inv_refcnt _ _ _ _ Hinv _ _ Hx)|by left|].
  intros _. right. destruct (inv_ret _ _ _ _ Hinv b Hb) as (y & Hy & Hh).
  by simplify_eq.
Qed.

Lemma inv_bread_fill m R b b' m' :
  inv m R -> bread_fill b m = Ret b' m' -> inv m' R.
Proof.
  intros Hinv Hrun.
  destruct (bread_fill_pre _ _ _ _ Hrun) as (-> & x & Hx).
  destruct (decide (valid x = 0)) as [Hv|Hv].
  - destruct (bread_fill_invalid _ _ _ Hx Hv) as (m1 & Hrun1 & Hw).
    rewrite Hrun1 in Hrun. simplify_eq.
    eapply inv_writes; [done|done|done|apply (inv_refcnt _ _ _ _ Hinv _ _ Hx)|by left|by left].
  - rewrite (bread_fill_valid _ _ _ Hx Hv) in Hrun. by simplify_eq.
Qed.

Lemma inv_bwrite m R p b m' :
  inv m R -> bwrite p b m = Ret tt m' -> inv m' R.
Proof.
  intros Hinv Hrun.
  destruct (bwrite_pre _ _ _ _ Hrun) as (x & Hx & Hh).
  rewrite (bwrite_run _ _ _ _ Hx Hh) in Hrun. simplify_eq.
  by apply (inv_same_bcache m).
Qed.

Lemma inv_releasesleep m R b m' :
  inv m R -> releasesleep b m = Ret tt m' -> inv m' R.
Proof.
  intros Hinv Hrun.
  destruct (releasesleep_pre _ _ _ Hrun) as (x & Hx).
  destruct (releasesleep_run _ _ _ Hx) as (m1 & Hrun1 & Hw).
  rewrite Hrun1 in Hrun. simplify_eq.
  eapply inv_writes; [done|done|done|apply (inv_refcnt _ _ _ _ Hinv _ _ Hx)|by left|].
  cbn. done.
Qed.

Lemma inv_brelse_locked m R b m' :
  inv m R -> brelse_locked b m = Ret tt m' -> inv m' R.
Proof.
  intros Hinv Hrun.
  destruct (brelse_locked_pre _ _ _ Hrun) as (x & l & Hx & Hl & Hfree).
  destruct (brelse_locked_run _ _ _ _ Hx Hl Hfree) as (m1 & Hrun1 & Hw).
  rewrite Hrun1 in Hrun. simplify_eq.
  eapply inv_writes; [done|done|done|apply wrap_range|by left|by left].
Qed.

Lemma inv_bpin m R b m' :
  inv m R -> bpin b m = Ret tt m' -> inv m' R.
Proof.
  intros Hinv Hrun.
  destruct (bpin_pre _ _ _ Hrun) as (x & l & Hx & Hl & Hfree).
  destruct (bpin_run _ _ _ _ Hx Hl Hfree) as (m1 & Hrun1 & Hw).
  rewrite Hrun1 in Hrun. simplify_eq.
  eapply inv_writes; [done|done|done|apply wrap_range|by left|by left].
Qed.

Lemma inv_bunpin m R b m' :
  inv m R -> bunpin b m = Ret tt m' -> inv m' R.
Proof.
  intros Hinv Hrun.
  destruct (bunpin_pre _ _ _ Hrun) as (x & l & Hx & Hl & Hfree).
  destruct (bunpin_run _ _ _ _ Hx Hl Hfree) as (m1 & Hrun1 & Hw).
  rewrite Hrun1 in Hrun. simplify_eq.
  eapply inv_writes; [done|done|done|apply wrap_range|by left|by left].
Qed.

(** A store into the payload of a slot changes the payload of that slot
    and nothing else. *)
Lemma write_data_run b dta x m :
  get_buf b m = Some x ->
  exists m', write_data b dta m = Ret tt m' /\
    writes m m' b (set_data dta x) [].
Proof.
  intros Hx. unfold write_data. rewrite Hx. eexists. split; [done|].
  unfold writes. views. rewrite Hx. cbn [fmap option_fmap option_map].
  split; [done|]. split.
  { intros b' Hne. views. by rewrite decide_False by done. }
  split; [intros id; by views|]. split; [done|]. split; [done|].
  split; [done|]. by rewrite app_nil_r.
Qed.

Lemma write_data_pre b dta m m' :
  write_data b dta m = Ret tt m' -> is_Some (get_buf b m).
Proof. unfold write_data. intros H. destruct (get_buf b m); [eauto|done]. Qed.

Lemma inv_write_data m R b dta m' :
  inv m R -> write_data b dta m = Ret tt m' -> inv m' R.
Proof.
  intros Hinv Hrun.
  destruct (write_data_pre _ _ _ _ Hrun) as (x & Hx).
  destruct (write_data_run _ dta _ _ Hx) as (m1 & Hrun1 & Hw).
  rewrite Hrun1 in Hrun. simplify_eq.
  eapply inv_writes; [done|done|done|apply (inv_refcnt _ _ _ _ Hinv _ _ Hx)|by left|by left].
Qed.

Lemma reach_inv m R : reach m R -> inv m R.
Proof.
  induction 1 as [d m Hrun|m R _ IH|m R d n b m' _ IH Hrun|m R p b m' _ IH Hb Hrun
                 |m R b m' _ IH Hrun|m R p b m' _ IH Hrun|m R p b m' _ IH _ Hrun
                 |m R b m' _ IH Hrun|m R b m' _ IH Hrun|m R b m' _ IH Hrun
                 |m R p b dta m' _ IH _ Hrun].
  - destruct (binit_run d) as (m1 & Hrun1 & Hinit & _).
    rewrite Hrun1 in Hrun. simplify_eq. by apply inv_init.
  - by apply (inv_same_bcache m).
  - by eapply inv_bget_locked.
  - by eapply inv_acquiresleep.
  - by eapply inv_bread_fill.
  - by eapply inv_bwrite.
  - by eapply inv_releasesleep.
  - by eapply inv_brelse_locked.
  - by eapply inv_bpin.
  - by eapply inv_bunpin.
  - by eapply inv_write_data.
Qed.

(** In every state of the cache a call of [bget] finds the shard lock of
    its bucket free and the [NBUF] slots of the bucket. *)
Lemma reach_entry m R n :
  reach m R -> (0 < NBUCKETS)%nat ->
  exists l bufs, get_spin (bucket_of n) m = Some l /\ spin_locked l = 0 /\
    get_bufs (bucket_of n) m = Some bufs /\ length bufs = NBUF.
Proof.
  intros Hreach Hpos. pose proof (reach_inv _ _ Hreach) as Hinv.
  pose proof (inv_wf _ _ _ _ Hinv) as Hwf.
  destruct (proj2 (wf_get_spin m (bucket_of n) Hwf) (bucket_of_lt n Hpos))
    as [l Hl].
  assert (is_Some (get_bufs (bucket_of n) m)) as [bufs Hbufs].
  { unfold get_spin, get_bufs in *.
    destruct (bcache m !! bucket_of n); [by eexists|done]. }
  exists l, bufs. split_and!; [done|by eapply inv_spin|done|].
  pose proof (dims_get_bufs _ _ _ Hbufs) as Hd. unfold_wf. rewrite Hwf in Hd.
  apply lookup_replicate in Hd as [? _]. done.
Qed.

(** ** Whole calls *)

Lemma holding_locked p x : holding p x = true -> sleep_locked (lock x) <> 0.
Proof. unfold holding. intros H. apply andb_true_iff in H as [H _]. lia. Qed.

Lemma holding_set_lock p nm x : holding p (set_lock (mksleep 1 p nm) x) = true.
Proof. unfold holding. cbn. by rewrite Z.eqb_refl. Qed.

(** Once its section under the shard lock has returned slot [b], [bget]
    returns [b] locked when the slot lock is free, and waits for it
    otherwise. *)
Lemma bget_after_locked p d n m b m1 x1 :
  bget_locked d n m = Ret b m1 -> get_buf b m1 = Some x1 ->
  (sleep_locked (lock x1) = 0 /\
   exists m', bget p d n m = Ret b m' /\
     writes m1 m' b (set_lock (mksleep 1 p (sleep_name (lock x1))) x1)
       [EvAcquireSleep p b]) \/
  (sleep_locked (lock x1) <> 0 /\ bget p d n m = Blocked (WSleep b) m1).
Proof.
  intros Hrun Hx1. rewrite bget_split. unfold bind, ret. rewrite Hrun.
  destruct (decide (sleep_locked (lock x1) = 0)) as [Hfree|Hheld].
  - left. split; [done|].
    destruct (acquiresleep_run p _ _ _ Hx1 Hfree) as (m' & Hrun' & Hw).
    exists m'. by rewrite Hrun'.
  - right. split; [done|].
    by rewrite (acquiresleep_blocked p _ _ _ Hx1 Hheld).
Qed.

(** A [bget] that returns has run its section under the shard lock and
    then taken the slot lock. *)
Lemma bget_ret_inv p d n m b m' :
  bget p d n m = Ret b m' ->
  exists m1 x1, bget_locked d n m = Ret b m1 /\ get_buf b m1 = Some x1 /\
    sleep_locked (lock x1) = 0 /\ acquiresleep p b m1 = Ret tt m' /\
    writes m1 m' b (set_lock (mksleep 1 p (sleep_name (lock x1))) x1)
      [EvAcquireSleep p b].
Proof.
  rewrite bget_split. unfold bind at 1.
  destruct (bget_locked d n m) as [b1 m1| | |] eqn:Hrun; try done.
  unfold bind, ret.
  destruct (acquiresleep p b1 m1) as [[] m2| | |] eqn:Hacq; try done.
  intros [= <- <-].
  destruct (acquiresleep_pre _ _ _ _ Hacq) as (x1 & Hx1 & Hfree).
  destruct (acquiresleep_run p _ _ _ Hx1 Hfree) as (m3 & Hrun3 & Hw).
  rewrite Hrun3 in Hacq. simplify_eq. by exists m1, x1.
Qed.

(** A [bget] that waits is waiting for the lock of the slot chosen by its
    section under the shard lock. *)
Lemma bget_blocked_inv p d n m b m' :
  bget p d n m = Blocked (WSleep b) m' -> bget_locked d n m = Ret b m'.
Proof.
  rewrite bget_split. unfold bind at 1.
  destruct (bget_locked d n m) as [b1 m1| | |] eqn:Hrun; try done.
  - unfold bind, ret, acquiresleep.
    destruct (get_buf b1 m1) as [x1|]; [|done].
    destruct (sleep_locked (lock x1) =? 0); [done|]. by intros [= <- <-].
  - unfold_ops. repeat case_match; simplify_eq; done.
Qed.

(** The states of the cache are closed under whole calls. *)
Lemma reach_bget m R p d n b m' :
  reach m R -> bget p d n m = Ret b m' -> reach m' (b :: R).
Proof.
  intros Hreach Hrun.
  destruct (bget_ret_inv _ _ _ _ _ _ Hrun) as (m1 & x1 & Hrun1 & _ & _ & Hacq & _).
  eapply reach_acquiresleep; [|by left|done]. by eapply reach_bget_locked.
Qed.

Lemma reach_bget_blocked m R p d n b m' :
  reach m R -> bget p d n m = Blocked (WSleep b) m' -> reach m' (b :: R).
Proof.
  intros Hreach Hrun. eapply reach_bget_locked; [done|].
  by eapply bget_blocked_inv.
Qed.

Lemma reach_bread m R p d n b m' :
  reach m R -> bread p d n m = Ret b m' -> reach m' (b :: R).
Proof.
  intros Hreach Hrun. unfold bread, bind in Hrun.
  destruct (bget p d n m) as [b1 m1| | |] eqn:Hget; try done.
  destruct (bread_fill_pre _ _ _ _ Hrun) as [-> _].
  eapply reach_bread_fill; [|done]. by eapply reach_bget.
Qed.

Lemma reach_brelse m R p b m' :
  reach m R -> brelse p b m = Ret tt m' -> reach m' R.
Proof.
  intros Hreach Hrun.
  assert (exists x, get_buf b m = Some x /\ holding p x = true) as (x & Hx & Hh).
  { unfold brelse, holdingsleep, load, bind, ret, panic in Hrun.
    destruct (get_buf b m) as [x|]; [|done]. exists x.
    destruct (holding p x); done. }
  rewrite (brelse_split _ _ _ _ Hx Hh) in Hrun. unfold bind in Hrun.
  destruct (releasesleep b m) as [[] m1| | |] eqn:Hrel; try done.
  eapply reach_brelse_locked; [|done].
  eapply reach_releasesleep; [done| |done].
  unfold holdingsleep, load, bind, ret. rewrite Hx. by rewrite Hh.
Qed.

(** [brelse] by the holder of the slot lock, the shard lock that the block
    number of the slot hashes to being free. *)
Lemma brelse_run p b x l m :
  get_buf b m = Some x -> holding p x = true ->
  get_spin (bucket_of (blockno x)) m = Some l -> spin_locked l = 0 ->
  exists m', brelse p b m = Ret tt m' /\
    writes m m' b
      (set_tstamp (ticks m)
         (decr_refcnt (set_lock (mksleep 0 0 (sleep_name (lock x))) x)))
      [EvReleaseSleep b; EvAcquire (bucket_of (blockno x)); EvStore b;
       EvRelease (bucket_of (blockno x))].
Proof.
  intros Hx Hh Hl Hfree.
  destruct (releasesleep_run _ _ _ Hx) as (m1 & Hrun1 & Hw1).
  set (x1 := set_lock (mksleep 0 0 (sleep_name (lock x))) x) in *.
  assert (get_buf b m1 = Some x1) as Hx1 by apply Hw1.
  assert (get_spin (bucket_of (blockno x1)) m1 = Some l) as Hl1.
  { by rewrite (writes_spin _ _ _ _ _ _ Hw1). }
  destruct (brelse_locked_run _ _ _ _ Hx1 Hl1 Hfree) as (m' & Hrun & Hw).
  pose proof (writes_trans _ _ _ _ _ _ _ _ Hw1 Hw) as Hall.
  exists m'. split.
  { rewrite (brelse_split _ _ _ _ Hx Hh). unfold bind. by rewrite Hrun1. }
  by rewrite <- (writes_ticks _ _ _ _ _ Hw1).
Qed.

(** A slot in use is not the candidate that a scan ends with. *)
Lemma scan_skips_used d n bufs i x :
  bufs !! i = Some x -> refcnt x <> 0 -> scan d n bufs <> Miss (Some i).
Proof.
  intros Hx Hr Hs. pose proof (scan_spec d n bufs) as Hpost.
  rewrite Hs in Hpost. destruct Hpost as (_ & _ & y & Hy & Hry & _).
  by simplify_eq.
Qed.

(** ** The properties of the cache *)

(** C1. When no slot of the target bucket holds the requested block, the
    slot that [bget] gives the new identity to is unused and is the first,
    in scan order, of the unused slots of the bucket with the smallest time
    stamp; every other slot of the cache, and so every slot in use, is left
    as it was.  When every slot of the bucket is in use nothing is evicted. *)
Theorem bget_evicts_first_lru m p d n l bufs :
  get_spin (bucket_of n) m = Some l -> spin_locked l = 0 ->
  get_bufs (bucket_of n) m = Some bufs ->
  no_match d n bufs ->
  exists m', final (bget p d n m) = Some m' /\
    (forall j y, bufs !! j = Some y -> refcnt y <> 0 ->
       get_buf (bucket_of n, j) m' = Some y) /\
    ((exists i x', first_lru bufs i /\
        get_buf (bucket_of n, i) m' = Some x' /\ dev x' = d /\ blockno x' = n /\
        forall b, b <> (bucket_of n, i) -> get_buf b m' = get_buf b m) \/
     ((forall y, y ∈ bufs -> refcnt y <> 0) /\
      forall b, get_buf b m' = get_buf b m)).
Proof.
  intros Hl Hfree Hbufs Hno.
  destruct (scan_no_match d n bufs Hno) as [(i & Hs & Hlru)|[Hs Hpin]].
  - destruct Hlru as (x & Hx & Hr & Hmin).
    destruct (bget_locked_miss _ _ _ _ _ _ _ Hl Hfree Hbufs Hs Hx)
      as (m1 & Hrun1 & Hw1).
    assert (get_buf (bucket_of n, i) m1 = Some (recycle d n (ticks m) x)) as Hb1
      by apply Hw1.
    assert (exists m' x', final (bget p d n m) = Some m' /\
              get_buf (bucket_of n, i) m' = Some x' /\ dev x' = d /\ blockno x' = n /\
              forall b, b <> (bucket_of n, i) -> get_buf b m' = get_buf b m)
      as (m' & x' & Hfin & Hb' & Hd & Hn & Hoth).
    { destruct (bget_after_locked p _ _ _ _ _ _ Hrun1 Hb1)
        as [(_ & m' & Hrun & Hw)|(_ & Hrun)]; rewrite Hrun; cbn [final].
      - eexists m', _. split; [done|]. split; [apply Hw|].
        split_and!; [done..|]. intros b Hne.
        rewrite (writes_other _ _ _ _ _ b Hw) by done. by apply Hw1.
      - eexists m1, _. split; [done|]. split; [done|].
        split_and!; [done..|]. intros b Hne. by apply Hw1. }
    exists m'. split; [done|]. split.
    + intros j y Hy Hry. rewrite Hoth.
      * by rewrite (get_bufs_get_buf _ j _ _ Hbufs).
      * intros [= ->]. simplify_eq.
    + left. exists i, x'. split_and!; try done. by exists x.
  - destruct (bget_locked_none _ _ _ _ _ Hl Hfree Hbufs Hs)
      as (m1 & Hrun1 & _ & Hsame & _).
    assert (bget p d n m = Panic "bget: no buffers" m1) as Hrun.
    { rewrite bget_split. unfold bind. by rewrite Hrun1. }
    exists m1. rewrite Hrun. split; [done|]. split.
    + intros j y Hy _. rewrite Hsame. by rewrite (get_bufs_get_buf _ j _ _ Hbufs).
    + by right.
Qed.

(** C2. When no slot of the target bucket holds the requested block and
    some slot of it is unused, [bget] recycles an unused slot: the slot
    has the requested device and block number, is invalid, has reference
    count 1 and the current time as its time stamp.  The shard lock is
    taken, the slot written, the shard lock released, and only then the
    slot lock taken: [bget] returns the slot locked by the caller when the
    slot lock is free, and waits for it, the shard lock already released,
    when it is not. *)
Theorem bget_recycles m p d n l bufs y :
  get_spin (bucket_of n) m = Some l -> spin_locked l = 0 ->
  get_bufs (bucket_of n) m = Some bufs ->
  no_match d n bufs ->
  y ∈ bufs -> refcnt y = 0 ->
  exists i x, bufs !! i = Some x /\ refcnt x = 0 /\
    let b := (bucket_of n, i) in
    let id := bucket_of n in
    exists m' x',
      get_buf b m' = Some x' /\
      dev x' = d /\ blockno x' = n /\ valid x' = 0 /\ refcnt x' = 1 /\
      tstamp x' = ticks m /\
      get_spin id m' = Some l /\
      ((sleep_locked (lock x) = 0 /\
        bget p d n m = Ret b m' /\ holding p x' = true /\
        trace m' = trace m ++
          [EvAcquire id; EvStore b; EvRelease id; EvAcquireSleep p b]) \/
       (sleep_locked (lock x) <> 0 /\
        bget p d n m = Blocked (WSleep b) m' /\
        trace m' = trace m ++ [EvAcquire id; EvStore b; EvRelease id])).
Proof.
  intros Hl Hfree Hbufs Hno Hy Hry.
  destruct (scan_no_match d n bufs Hno) as [(i & Hs & x & Hx & Hr & _)|[_ Hpin]];
    [|by destruct (Hpin y Hy)].
  exists i, x. split_and!; [done..|]. cbv zeta.
  destruct (bget_locked_miss _ _ _ _ _ _ _ Hl Hfree Hbufs Hs Hx)
    as (m1 & Hrun1 & Hw1).
  assert (get_buf (bucket_of n, i) m1 = Some (recycle d n (ticks m) x)) as Hb1
    by apply Hw1.
  destruct (bget_after_locked p _ _ _ _ _ _ Hrun1 Hb1)
    as [(Hfree1 & m' & Hrun & Hw)|(Hheld & Hrun)].
  - exists m', (set_lock (mksleep 1 p (sleep_name (lock x))) (recycle d n (ticks m) x)).
    split; [apply Hw|]. split_and!; try done.
    + by rewrite (writes_spin _ _ _ _ _ _ Hw), (writes_spin _ _ _ _ _ _ Hw1).
    + left. split_and!; [done|done|apply holding_set_lock|].
      rewrite (writes_trace _ _ _ _ _ Hw), (writes_trace _ _ _ _ _ Hw1).
      by rewrite <- app_assoc.
  - exists m1, (recycle d n (ticks m) x). split; [done|]. split_and!; try done.
    + by rewrite (writes_spin _ _ _ _ _ _ Hw1).
    + right. split_and!; [done|done|]. apply (writes_trace _ _ _ _ _ Hw1).
Qed.

(** C3. When no slot of the target bucket holds the requested block and
    every slot of it is in use, [bget] takes the shard lock, releases it
    and panics: it does not return, and it leaves the cache as it was. *)
Theorem bget_exhausted m p d n l bufs :
  get_spin (bucket_of n) m = Some l -> spin_locked l = 0 ->
  get_bufs (bucket_of n) m = Some bufs ->
  no_match d n bufs ->
  (forall y, y ∈ bufs -> refcnt y <> 0) ->
  exists m',
    bget p d n m = Panic "bget: no buffers" m' /\
    trace m' = trace m ++ [EvAcquire (bucket_of n); EvRelease (bucket_of n);
                           EvPanic "bget: no buffers"] /\
    (forall b, get_buf b m' = get_buf b m) /\
    (forall id, get_spin id m' = get_spin id m) /\
    disk m' = disk m /\ ticks m' = ticks m.
Proof.
  intros Hl Hfree Hbufs Hno Hpin.
  destruct (scan_no_match d n bufs Hno) as [(i & Hs & x & Hx & Hr & _)|[Hs _]].
  { exfalso. apply (Hpin x); [by eapply list_elem_of_lookup_2|done]. }
  destruct (bget_locked_none _ _ _ _ _ Hl Hfree Hbufs Hs)
    as (m1 & Hrun1 & Htr & Hsame & Hspin & _ & Hdisk & Hticks).
  exists m1. split; [|done].
  rewrite bget_split. unfold bind. by rewrite Hrun1.
Qed.

(** C6. [bwrite] and [brelse] on a slot whose lock the caller does not hold
    panic; nothing is done before the panic: the driver is not called, and
    the disk and the cache are as they were. *)
Theorem bwrite_brelse_need_lock m p b x :
  get_buf b m = Some x -> holding p x = false ->
  exists m1 m2,
    bwrite p b m = Panic "bwrite" m1 /\
    brelse p b m = Panic "brelse" m2 /\
    trace m1 = trace m ++ [EvPanic "bwrite"] /\
    trace m2 = trace m ++ [EvPanic "brelse"] /\
    disk m1 = disk m /\ disk m2 = disk m /\
    bcache m1 = bcache m /\ bcache m2 = bcache m.
Proof.
  intros Hx Hh.
  exists (log (EvPanic "bwrite") m), (log (EvPanic "brelse") m).
  split; [by eapply bwrite_not_holding|].
  split; [by eapply brelse_not_holding|]. done.
Qed.

(** [bread] returns only when its [bget] has returned. *)
Lemma bread_ret_inv m p d n b m' :
  bread p d n m = Ret b m' -> exists m1, bget p d n m = Ret b m1.
Proof.
  unfold bread, bind. intros Hrun.
  destruct (bget p d n m) as [b1 m1| | |]; try done.
  destruct (bread_fill_pre _ _ _ _ Hrun) as [-> _]. by exists m1.
Qed.

(** C4. Whenever its [bget] returns a slot, [bread] returns that slot,
    valid and locked by the caller.  The driver is called, to read the
    block into the payload, exactly when [bget] returned the slot invalid,
    and the slot is then marked valid; otherwise [bread] changes nothing. *)
Theorem bread_valid_locked m p d n b m1 :
  bget p d n m = Ret b m1 ->
  exists x1 m' x',
    get_buf b m1 = Some x1 /\
    bread p d n m = Ret b m' /\
    get_buf b m' = Some x' /\ valid x' <> 0 /\ holding p x' = true /\
    ((valid x1 = 0 /\
      trace m' = trace m1 ++ [EvDiskRw b false; EvStore b] /\
      x' = set_valid 1 (set_data (disk m1 (dev x1, blockno x1)) x1) /\
      forall b', b' <> b -> get_buf b' m' = get_buf b' m1) \/
     (valid x1 <> 0 /\ m' = m1)).
Proof.
  intros Hget.
  destruct (bget_ret_inv _ _ _ _ _ _ Hget) as (m0 & x0 & _ & _ & _ & _ & Hw0).
  set (x1 := set_lock (mksleep 1 p (sleep_name (lock x0))) x0) in *.
  assert (get_buf b m1 = Some x1) as Hx1 by apply Hw0.
  assert (holding p x1 = true) as Hh1 by apply holding_set_lock.
  unfold bread, bind. rewrite Hget.
  destruct (decide (valid x1 = 0)) as [Hv|Hv].
  - destruct (bread_fill_invalid _ _ _ Hx1 Hv) as (m' & Hrun & Hw).
    exists x1, m', (set_valid 1 (set_data (disk m1 (dev x1, blockno x1)) x1)).
    split_and!; [done|done|apply Hw|done|done|].
    left. split_and!; [done|apply (writes_trace _ _ _ _ _ Hw)|done|].
    intros b' Hne. by apply (writes_other _ _ _ _ _ _ Hw).
  - exists x1, m1, x1. rewrite (bread_fill_valid _ _ _ Hx1 Hv).
    split_and!; [done..|]. by right.
Qed.

(** C7. [brelse] by the holder of the slot lock releases that lock, then
    takes the shard lock of the bucket that contains the slot, decrements
    the reference count by one, stamps the slot with the current time and
    releases the shard lock.  The device, block number, valid flag and
    payload of the slot, every other slot, the shard locks and the disk
    are left as they were. *)
Theorem brelse_frame m R p b x :
  reach m R ->
  get_buf b m = Some x -> holding p x = true ->
  exists m' x',
    brelse p b m = Ret tt m' /\
    trace m' = trace m ++
      [EvReleaseSleep b; EvAcquire b.1; EvStore b; EvRelease b.1] /\
    get_buf b m' = Some x' /\
    refcnt x' = wrap (refcnt x - 1) /\
    (refcnt x <> 0 -> refcnt x' = refcnt x - 1) /\
    tstamp x' = ticks m /\
    sleep_locked (lock x') = 0 /\
    dev x' = dev x /\ blockno x' = blockno x /\ valid x' = valid x /\
    data x' = data x /\
    (forall b', b' <> b -> get_buf b' m' = get_buf b' m) /\
    (forall id, get_spin id m' = get_spin id m) /\
    disk m' = disk m.
Proof.
  intros Hreach Hx Hh. pose proof (reach_inv _ _ Hreach) as Hinv.
  assert (bucket_of (blockno x) = b.1) as Hhome.
  { eapply inv_locked; [done..|]. by eapply holding_locked. }
  destruct (get_buf_get_spin _ _ _ Hx) as [l Hl].
  assert (spin_locked l = 0) as Hfree by (by eapply inv_spin).
  rewrite <- Hhome in Hl.
  destruct (brelse_run _ _ _ _ _ Hx Hh Hl Hfree) as (m' & Hrun & Hw).
  rewrite Hhome in Hw.
  eexists m', _. split; [done|].
  split; [apply (writes_trace _ _ _ _ _ Hw)|].
  split; [apply Hw|]. split; [done|]. split.
  { intros Hne. cbn. unfold wrap.
    pose proof (inv_refcnt _ _ _ _ Hinv _ _ Hx). apply Z.mod_small. lia. }
  split_and!; try done.
  - intros b' Hne. by apply (writes_other _ _ _ _ _ _ Hw).
  - intros id. apply (writes_spin _ _ _ _ _ _ Hw).
  - apply (writes_disk _ _ _ _ _ Hw).
Qed.

(** C8. On the memory of a kernel that has just started, [binit] returns
    and leaves every shard lock and every slot lock initialized and free,
    and every slot invalid and with reference count zero. *)
Theorem binit_state d :
  exists m,
    binit NBUCKETS NBUF (boot NBUCKETS NBUF BSIZE d) = Ret tt m /\
    (forall i, (i < NBUCKETS)%nat ->
       get_spin i m = Some (mkspin 0 (Some "bcache"))) /\
    (forall i j, (i < NBUCKETS)%nat -> (j < NBUF)%nat ->
       exists x, get_buf (i, j) m = Some x /\
         valid x = 0 /\ refcnt x = 0 /\
         lock x = mksleep 0 0 (Some "buffer")) /\
    (forall b, is_Some (get_buf b m) ->
       (b.1 < NBUCKETS)%nat /\ (b.2 < NBUF)%nat).
Proof.
  destruct (binit_run d) as (m & Hrun & (Hwf & Hspin & Hbuf) & _).
  exists m. split; [done|]. split_and!.
  - intros i Hi. destruct (proj2 (wf_get_spin m i Hwf) Hi) as [l Hl].
    destruct (Hspin i l Hl) as [Hfree Hname]. specialize (Hname Hi).
    rewrite Hl. destruct l; cbn in *. by subst.
  - intros i j Hi Hj.
    destruct (proj2 (wf_get_buf m (i, j) Hwf) (conj Hi Hj)) as [x Hx].
    destruct (Hbuf _ x Hx) as (?&?&?&?&?&Hlk&Hpid&Hname).
    exists x. split_and!; try done.
    specialize (Hname (or_introl Hi)).
    destruct (lock x); cbn in *. by subst.
  - intros b. by apply wf_get_buf.
Qed.

(** C9. The bucket that [bget] works in has index [blockno mod NBUCKETS],
    whatever the device, and the slot it returns lies in that bucket and
    carries the requested block number.  In every state of the cache,
    every slot that [bget] has chosen for a caller lies in the bucket
    whose index is its block number modulo [NBUCKETS], so that [brelse],
    [bpin] and [bunpin] on it take and release the shard lock of the
    bucket that contains it. *)
Theorem slots_stay_home m R :
  reach m R ->
  (forall p d n b m',
     bget p d n m = Ret b m' ->
     reach m' (b :: R) /\ b.1 = Z.to_nat (n mod Z.of_nat NBUCKETS) /\
     exists x', get_buf b m' = Some x' /\ blockno x' = n) /\
  (forall b, b ∈ R ->
     exists x, get_buf b m = Some x /\
       Z.to_nat (blockno x mod Z.of_nat NBUCKETS) = b.1 /\
       (exists m', bpin b m = Ret tt m' /\
          trace m' = trace m ++ [EvAcquire b.1; EvStore b; EvRelease b.1]) /\
       (exists m', bunpin b m = Ret tt m' /\
          trace m' = trace m ++ [EvAcquire b.1; EvStore b; EvRelease b.1]) /\
       (forall p, holding p x = true ->
          exists m', brelse p b m = Ret tt m' /\
            trace m' = trace m ++
              [EvReleaseSleep b; EvAcquire b.1; EvStore b; EvRelease b.1])).
Proof.
  intros Hreach. pose proof (reach_inv _ _ Hreach) as Hinv. split.
  - intros p d n b m' Hget. split; [by eapply reach_bget|].
    destruct (bget_ret_inv _ _ _ _ _ _ Hget) as (m1 & x1 & Hrun1 & Hx1 & _ & _ & Hw).
    destruct (inv_bget_locked _ _ _ _ _ _ Hinv Hrun1)
      as (_ & Hb & x' & Hx' & _ & Hn).
    split; [exact Hb|]. simplify_eq. eexists. split; [apply Hw|done].
  - intros b Hb. destruct (inv_ret _ _ _ _ Hinv b Hb) as (x & Hx & Hhome).
    exists x. split; [done|]. split; [exact Hhome|]. split_and!.
    + destruct (get_buf_get_spin _ _ _ Hx) as [l Hl].
      assert (spin_locked l = 0) as Hfree by (by eapply inv_spin).
      rewrite <- Hhome in Hl.
      destruct (bpin_run _ _ _ _ Hx Hl Hfree) as (m' & Hrun & Hw).
      exists m'. split; [done|]. rewrite (writes_trace _ _ _ _ _ Hw).
      by rewrite Hhome.
    + destruct (get_buf_get_spin _ _ _ Hx) as [l Hl].
      assert (spin_locked l = 0) as Hfree by (by eapply inv_spin).
      rewrite <- Hhome in Hl.
      destruct (bunpin_run _ _ _ _ Hx Hl Hfree) as (m' & Hrun & Hw).
      exists m'. split; [done|]. rewrite (writes_trace _ _ _ _ _ Hw).
      by rewrite Hhome.
    + intros p Hh. destruct (get_buf_get_spin _ _ _ Hx) as [l Hl].
      assert (spin_locked l = 0) as Hfree by (by eapply inv_spin).
      rewrite <- Hhome in Hl.
      destruct (brelse_run _ _ _ _ _ Hx Hh Hl Hfree) as (m' & Hrun & Hw).
      exists m'. split; [done|]. rewrite (writes_trace _ _ _ _ _ Hw).
      by rewrite Hhome.
Qed.

(** C10. [bunpin], and the decrement in [brelse], do not look at the
    reference count before they decrement it: on a slot with reference
    count 0 they return, and the count wraps to [2^32 - 1].  In the state
    they leave, the slot is not unused, so no scan of its bucket ends with
    it as the slot to recycle: [bget] returns it only to a caller that asks
    for the block it holds. *)
Theorem bunpin_underflow m b x l :
  get_buf b m = Some x -> refcnt x = 0 ->
  get_spin (bucket_of (blockno x)) m = Some l -> spin_locked l = 0 ->
  (exists m' x',
     bunpin b m = Ret tt m' /\ get_buf b m' = Some x' /\
     refcnt x' = 2 ^ 32 - 1 /\
     (forall d n bufs, get_bufs b.1 m' = Some bufs ->
        scan d n bufs <> Miss (Some b.2)) /\
     (forall d n m'', bget_locked d n m' = Ret b m'' ->
        dev x = d /\ blockno x = n)) /\
  (forall p, holding p x = true ->
     exists m' x',
       brelse p b m = Ret tt m' /\ get_buf b m' = Some x' /\
       refcnt x' = 2 ^ 32 - 1 /\
       (forall d n bufs, get_bufs b.1 m' = Some bufs ->
          scan d n bufs <> Miss (Some b.2))).
Proof.
  intros Hx Hr Hl Hfree.
  assert (forall m' x', get_buf b m' = Some x' -> refcnt x' = 2 ^ 32 - 1 ->
            forall d n bufs, get_bufs b.1 m' = Some bufs ->
              scan d n bufs <> Miss (Some b.2)) as Hskip.
  { intros m' x' Hx' Hr' d n bufs Hbufs.
    eapply scan_skips_used with (x := x'); [|lia].
    destruct b as [i j]. cbn [fst snd] in *.
    by rewrite <- (get_bufs_get_buf _ j _ _ Hbufs). }
  split.
  - destruct (bunpin_run _ _ _ _ Hx Hl Hfree) as (m' & Hrun & Hw).
    assert (get_buf b m' = Some (decr_refcnt x)) as Hx' by apply Hw.
    assert (refcnt (decr_refcnt x) = 2 ^ 32 - 1) as Hr' by (cbn; by rewrite Hr).
    exists m', (decr_refcnt x). split_and!; [done..|by eapply Hskip|].
    intros d n m'' Hrun'.
    destruct (bget_locked_pre _ _ _ _ _ Hrun')
      as (l' & bufs & _ & _ & Hbufs & [(h & y & Hs & Hy & ->)|(i & y & Hs & Hy & ->)]).
    + pose proof (scan_spec d n bufs) as Hpost. rewrite Hs in Hpost.
      destruct Hpost as (y' & Hy' & Hd & Hn & _).
      rewrite (get_bufs_get_buf _ h _ _ Hbufs) in Hx'. by simplify_eq.
    + exfalso. by eapply (Hskip m' _ Hx' Hr' d n bufs).
  - intros p Hh.
    destruct (brelse_run _ _ _ _ _ Hx Hh Hl Hfree) as (m' & Hrun & Hw).
    eexists m', _. split; [done|]. split; [apply Hw|].
    assert (refcnt (set_tstamp (ticks m)
              (decr_refcnt (set_lock (mksleep 0 0 (sleep_name (lock x))) x)))
            = 2 ^ 32 - 1) as Hr' by (cbn; by rewrite Hr).
    split; [done|]. eapply Hskip; [apply Hw|done].
Qed.

(** C5, as the code has it.  In every state of the cache, at most one slot
    carries a given identity other than device 0, block 0, which is what
    the fields of a slot that was never recycled read; and [bget] for an
    identity that a slot carries chooses that slot and increments its
    reference count. *)
Theorem identity_unique m R d n :
  reach m R -> ~ (d = 0 /\ n = 0) ->
  unique_ident m d n /\
  forall b x p, get_buf b m = Some x -> dev x = d -> blockno x = n ->
    exists m' x',
      (bget p d n m = Ret b m' \/ bget p d n m = Blocked (WSleep b) m') /\
      get_buf b m' = Some x' /\ refcnt x' = wrap (refcnt x + 1) /\
      dev x' = d /\ blockno x' = n /\
      forall b', b' <> b -> get_buf b' m' = get_buf b' m.
Proof.
  intros Hreach Hnz. pose proof (reach_inv _ _ Hreach) as Hinv.
  assert (forall b x, get_buf b m = Some x -> dev x = d -> blockno x = n ->
            b.1 = bucket_of n) as Hhome.
  { intros b x Hx Hd Hn.
    destruct (inv_home _ _ _ _ Hinv b x Hx) as [[? ?]|Hh]; [|congruence].
    exfalso. apply Hnz. split; congruence. }
  split.
  - intros [i1 j1] [i2 j2] (x1 & Hx1 & Hd1 & Hn1) (x2 & Hx2 & Hd2 & Hn2).
    pose proof (Hhome _ _ Hx1 Hd1 Hn1) as E1.
    pose proof (Hhome _ _ Hx2 Hd2 Hn2) as E2. cbn in E1, E2. subst i1 i2.
    destruct (inv_uniq _ _ _ _ Hinv _ j1 j2 x1 x2 Hx1 Hx2) as [->|[? ?]];
      [congruence..|done|].
    exfalso. apply Hnz. split; congruence.
  - intros [i j] x p Hx Hd Hn.
    pose proof (Hhome _ _ Hx Hd Hn) as E. cbn in E. subst i.
    destruct (get_buf_get_bufs _ _ _ Hx) as (bufs & Hbufs & Hj). cbn in Hbufs, Hj.
    destruct (get_buf_get_spin _ _ _ Hx) as [l Hl]. cbn in Hl.
    assert (spin_locked l = 0) as Hfree by (by eapply inv_spin).
    destruct (scan_match d n bufs j x Hj Hd Hn) as (h & y & Hs & _ & Hy & Hdy & Hny).
    assert (h = j) as ->.
    { pose proof (get_bufs_get_buf _ h _ _ Hbufs) as Hb. rewrite Hy in Hb.
      destruct (inv_uniq _ _ _ _ Hinv _ h j y x Hb Hx) as [?|[? ?]];
        [congruence..|done|].
      exfalso. apply Hnz. split; congruence. }
    assert (y = x) as -> by congruence.
    destruct (bget_locked_hit _ _ _ _ _ _ _ Hl Hfree Hbufs Hs Hy)
      as (m1 & Hrun1 & Hw1).
    assert (get_buf (bucket_of n, j) m1 = Some (incr_refcnt x)) as Hb1
      by apply Hw1.
    destruct (bget_after_locked p _ _ _ _ _ _ Hrun1 Hb1)
      as [(_ & m' & Hrun & Hw)|(_ & Hrun)].
    + eexists m', _. split; [by left|]. split; [apply Hw|].
      split_and!; [done..|]. intros b' Hne.
      rewrite (writes_other _ _ _ _ _ b' Hw) by done.
      by apply (writes_other _ _ _ _ _ b' Hw1).
    + eexists m1, _. split; [by right|]. split; [done|].
      split_and!; [done..|]. intros b' Hne.
      by apply (writes_other _ _ _ _ _ b' Hw1).
Qed.

(** ** More on the scan and on the slot that holds a block *)

(** The scan stops at the first slot that holds the block. *)
Lemma scan_hit_first d n bufs i x :
  bufs !! i = Some x -> dev x = d -> blockno x = n ->
  (forall j z, (j < i)%nat -> bufs !! j = Some z -> ~ (dev z = d /\ blockno z = n)) ->
  scan d n bufs = Hit i.
Proof.
  intros Hx Hd Hn Hfirst.
  destruct (scan_match d n bufs i x Hx Hd Hn) as (h & y & Hs & Hle & Hy & Hdy & Hny).
  destruct (decide (h = i)) as [->|Hne]; [done|].
  exfalso. apply (Hfirst h y); [lia|done..].
Qed.

Lemma first_holder_after_writes m m' d n b x' evs :
  writes m m' b x' evs -> dev x' = d -> blockno x' = n ->
  (forall j z, (j < b.2)%nat -> get_buf (b.1, j) m = Some z ->
     ~ (dev z = d /\ blockno z = n)) ->
  first_holder m' d n b x'.
Proof.
  intros Hw Hd Hn Hfirst. split; [apply Hw|]. split; [done|]. split; [done|].
  intros j z Hj Hz. apply (Hfirst j z Hj).
  rewrite <- (writes_other _ _ _ _ _ (b.1, j) Hw); [done|].
  destruct b as [i k]. cbn in *. intros [= ->]. lia.
Qed.

Lemma first_holder_writes m m' d n b x x' evs :
  first_holder m d n b x -> writes m m' b x' evs ->
  dev x' = d -> blockno x' = n ->
  first_holder m' d n b x'.
Proof.
  intros (_ & _ & _ & Hfirst) Hw Hd Hn. by eapply first_holder_after_writes.
Qed.

(** The section of [bget] under the shard lock finds the first holder of
    the block and counts one more reference to it. *)
Lemma bget_locked_first_holder d n m b x l :
  first_holder m d n b x -> b.1 = bucket_of n ->
  get_spin b.1 m = Some l -> spin_locked l = 0 ->
  exists m', bget_locked d n m = Ret b m' /\
    writes m m' b (incr_refcnt x) [EvAcquire b.1; EvStore b; EvRelease b.1].
Proof.
  intros (Hx & Hd & Hn & Hfirst) Hb Hl Hfree. destruct b as [id i].
  cbn [fst snd] in *. subst id.
  destruct (get_buf_get_bufs _ _ _ Hx) as (bufs & Hbufs & Hi). cbn [fst snd] in *.
  assert (scan d n bufs = Hit i) as Hs.
  { apply (scan_hit_first d n bufs i x Hi Hd Hn). intros j z Hj Hz.
    apply (Hfirst j z Hj). by rewrite (get_bufs_get_buf _ j _ _ Hbufs). }
  apply (bget_locked_hit _ _ _ _ _ _ _ Hl Hfree Hbufs Hs Hi).
Qed.

(** The slot that [bget] has returned is the first holder of the block, is
    locked by the caller, and the shard lock of its bucket is free. *)
Lemma bget_ret_first_holder p d n m b m' :
  bget p d n m = Ret b m' ->
  exists x' l, first_holder m' d n b x' /\ b.1 = bucket_of n /\
    get_spin b.1 m' = Some l /\ spin_locked l = 0 /\
    holding p x' = true /\ sleep_pid (lock x') = p /\
    0 <= refcnt x' < UINT_MOD /\
    (forall id, get_spin id m' = get_spin id m) /\
    disk m' = disk m /\ ticks m' = ticks m.
Proof.
  intros Hget.
  destruct (bget_ret_inv _ _ _ _ _ _ Hget) as (mL & xL & HrunL & HxL & _ & _ & Hw).
  destruct (bget_locked_pre _ _ _ _ _ HrunL)
    as (l & bufs & Hl & Hfree & Hbufs & [(h & y & Hs & Hy & ->)|(i & x & Hs & Hx & ->)]).
  - pose proof (scan_spec d n bufs) as Hpost. rewrite Hs in Hpost.
    destruct Hpost as (y' & Hy' & Hd & Hn & Hfirst). simplify_eq.
    destruct (bget_locked_hit _ _ _ _ _ _ _ Hl Hfree Hbufs Hs Hy) as (m1 & Hrun1 & Hw1).
    rewrite Hrun1 in HrunL. simplify_eq.
    assert (xL = incr_refcnt y) as -> by (destruct Hw1 as [E _]; congruence).
    eexists _, l. split.
    { eapply first_holder_writes; [|exact Hw|done..].
      eapply first_holder_after_writes; [exact Hw1|done..|].
      cbn [fst snd]. intros j z Hj Hz.
      rewrite (get_bufs_get_buf _ j _ _ Hbufs) in Hz. by eapply Hfirst. }
    split; [done|]. split.
    { by rewrite (writes_spin _ _ _ _ _ _ Hw), (writes_spin _ _ _ _ _ _ Hw1). }
    split; [done|]. split; [apply holding_set_lock|]. split; [done|].
    split; [apply wrap_range|]. split.
    { intros id. by rewrite (writes_spin _ _ _ _ _ _ Hw), (writes_spin _ _ _ _ _ _ Hw1). }
    split.
    { by rewrite (writes_disk _ _ _ _ _ Hw), (writes_disk _ _ _ _ _ Hw1). }
    by rewrite (writes_ticks _ _ _ _ _ Hw), (writes_ticks _ _ _ _ _ Hw1).
  - pose proof (scan_spec d n bufs) as Hpost. rewrite Hs in Hpost.
    destruct Hpost as (Hno & _).
    destruct (bget_locked_miss _ _ _ _ _ _ _ Hl Hfree Hbufs Hs Hx) as (m1 & Hrun1 & Hw1).
    rewrite Hrun1 in HrunL. simplify_eq.
    assert (xL = recycle d n (ticks m) x) as -> by (destruct Hw1 as [E _]; congruence).
    eexists _, l. split.
    { eapply first_holder_writes; [|exact Hw|done..].
      eapply first_holder_after_writes; [exact Hw1|done..|].
      cbn [fst snd]. intros j z Hj Hz.
      rewrite (get_bufs_get_buf _ j _ _ Hbufs) in Hz.
      apply Hno. by eapply list_elem_of_lookup_2. }
    split; [done|]. split.
    { by rewrite (writes_spin _ _ _ _ _ _ Hw), (writes_spin _ _ _ _ _ _ Hw1). }
    split; [done|]. split; [apply holding_set_lock|]. split; [done|].
    split; [cbn; unfold UINT_MOD; lia|]. split.
    { intros id. by rewrite (writes_spin _ _ _ _ _ _ Hw), (writes_spin _ _ _ _ _ _ Hw1). }
    split.
    { by rewrite (writes_disk _ _ _ _ _ Hw), (writes_disk _ _ _ _ _ Hw1). }
    by rewrite (writes_ticks _ _ _ _ _ Hw), (writes_ticks _ _ _ _ _ Hw1).
Qed.

(** What [bread] does once its [bget] has returned. *)
Lemma bread_after_bget p d n m b m1 x1 :
  bget p d n m = Ret b m1 -> get_buf b m1 = Some x1 ->
  (valid x1 <> 0 /\ bread p d n m = Ret b m1) \/
  (valid x1 = 0 /\ exists m', bread p d n m = Ret b m' /\
     writes m1 m' b (set_valid 1 (set_data (disk m1 (dev x1, blockno x1)) x1))
       [EvDiskRw b false; EvStore b]).
Proof.
  intros Hget Hx1. unfold bread, bind. rewrite Hget.
  destruct (decide (valid x1 = 0)) as [Hv|Hv].
  - right. split; [done|]. by apply (bread_fill_invalid b x1 m1).
  - left. split; [done|]. by apply (bread_fill_valid b x1 m1).
Qed.

Lemma wrap_small z : 0 <= z < UINT_MOD -> wrap z = z.
Proof. intros H. unfold wrap. by apply Z.mod_small. Qed.

Lemma wrap_decr_incr z : 0 <= z < UINT_MOD -> wrap (wrap (z - 1) + 1) = z.
Proof.
  intros H. unfold wrap, UINT_MOD in *.
  rewrite Zplus_mod_idemp_l. replace (z - 1 + 1) with z by lia.
  by apply Z.mod_small.
Qed.

Lemma wrap_incr_decr z : 0 <= z < UINT_MOD -> wrap (wrap (z + 1) - 1) = z.
Proof.
  intros H. unfold wrap, UINT_MOD in *.
  rewrite Zminus_mod_idemp_l. replace (z + 1 - 1) with z by lia.
  by apply Z.mod_small.
Qed.

(** ** Further properties of the calls *)

(** X1. When a slot of the target bucket holds the requested block, [bget]
    chooses the first such slot in scan order and counts one more
    reference to it; the valid flag, the time stamp and the payload of the
    slot, every other slot, the shard locks and the disk are left as they
    were.  It returns the slot locked by the caller when the slot lock is
    free; when another process holds it, the caller waits with its
    reference already counted and the shard lock released. *)
Theorem bget_hit m p d n b x l :
  first_holder m d n b x -> b.1 = bucket_of n ->
  get_spin b.1 m = Some l -> spin_locked l = 0 ->
  exists m' x',
    get_buf b m' = Some x' /\
    refcnt x' = wrap (refcnt x + 1) /\
    dev x' = d /\ blockno x' = n /\
    valid x' = valid x /\ tstamp x' = tstamp x /\ data x' = data x /\
    (forall b', b' <> b -> get_buf b' m' = get_buf b' m) /\
    (forall id, get_spin id m' = get_spin id m) /\
    disk m' = disk m /\
    ((sleep_locked (lock x) = 0 /\
      bget p d n m = Ret b m' /\ holding p x' = true /\
      trace m' = trace m ++
        [EvAcquire b.1; EvStore b; EvRelease b.1; EvAcquireSleep p b]) \/
     (sleep_locked (lock x) <> 0 /\
      bget p d n m = Blocked (WSleep b) m' /\ lock x' = lock x /\
      trace m' = trace m ++ [EvAcquire b.1; EvStore b; EvRelease b.1])).
Proof.
  intros Hfh Hb Hl Hfree.
  destruct (bget_locked_first_holder _ _ _ _ _ _ Hfh Hb Hl Hfree) as (m1 & Hrun1 & Hw1).
  destruct Hfh as (Hx & Hd & Hn & _).
  assert (get_buf b m1 = Some (incr_refcnt x)) as Hb1 by apply Hw1.
  destruct (bget_after_locked p _ _ _ _ _ _ Hrun1 Hb1)
    as [(Hfree1 & m' & Hrun & Hw)|(Hheld & Hrun)].
  - pose proof (writes_trans _ _ _ _ _ _ _ _ Hw1 Hw) as Hall.
    eexists m', _. split; [apply Hw|].
    repeat (split; [done|]). split.
    { intros b' Hne. by apply (writes_other _ _ _ _ _ _ Hall). }
    split; [intros id; apply (writes_spin _ _ _ _ _ _ Hall)|].
    split; [apply (writes_disk _ _ _ _ _ Hall)|].
    left. split; [done|]. split; [done|]. split; [apply holding_set_lock|].
    apply (writes_trace _ _ _ _ _ Hall).
  - eexists m1, _. split; [done|].
    repeat (split; [done|]). split.
    { intros b' Hne. by apply (writes_other _ _ _ _ _ _ Hw1). }
    split; [intros id; apply (writes_spin _ _ _ _ _ _ Hw1)|].
    split; [apply (writes_disk _ _ _ _ _ Hw1)|].
    right. split; [done|]. split; [done|]. split; [done|].
    apply (writes_trace _ _ _ _ _ Hw1).
Qed.

(** X2. When no slot of the target bucket holds the requested block, some
    slot of the bucket is unused and the locks of the unused slots are
    free, [bread] returns a recycled slot whose payload is the block as the
    disk has it: the slot is valid, carries the requested identity with
    reference count 1, and is locked by the caller; the driver is called
    once, to read, after the shard lock has been released and the slot lock
    taken. *)
Theorem bread_miss_reads_disk m p d n l bufs y :
  get_spin (bucket_of n) m = Some l -> spin_locked l = 0 ->
  get_bufs (bucket_of n) m = Some bufs ->
  no_match d n bufs ->
  y ∈ bufs -> refcnt y = 0 ->
  (forall z, z ∈ bufs -> refcnt z = 0 -> sleep_locked (lock z) = 0) ->
  exists i x m' x',
    bufs !! i = Some x /\ refcnt x = 0 /\
    bread p d n m = Ret (bucket_of n, i) m' /\
    get_buf (bucket_of n, i) m' = Some x' /\
    data x' = disk m (d, n) /\ valid x' = 1 /\
    dev x' = d /\ blockno x' = n /\ refcnt x' = 1 /\ tstamp x' = ticks m /\
    holding p x' = true /\
    trace m' = trace m ++
      [EvAcquire (bucket_of n); EvStore (bucket_of n, i); EvRelease (bucket_of n);
       EvAcquireSleep p (bucket_of n, i);
       EvDiskRw (bucket_of n, i) false; EvStore (bucket_of n, i)] /\
    (forall b', b' <> (bucket_of n, i) -> get_buf b' m' = get_buf b' m) /\
    disk m' = disk m.
Proof.
  intros Hl Hfree Hbufs Hno Hy Hry Hlocks.
  destruct (scan_no_match d n bufs Hno) as [(i & Hs & x & Hx & Hr & _)|[_ Hpin]];
    [|by destruct (Hpin y Hy)].
  destruct (bget_locked_miss _ _ _ _ _ _ _ Hl Hfree Hbufs Hs Hx)
    as (m1 & Hrun1 & Hw1).
  assert (get_buf (bucket_of n, i) m1 = Some (recycle d n (ticks m) x)) as Hb1
    by apply Hw1.
  assert (sleep_locked (lock x) = 0) as Hxfree.
  { apply Hlocks; [by eapply list_elem_of_lookup_2|done]. }
  destruct (bget_after_locked p _ _ _ _ _ _ Hrun1 Hb1)
    as [(_ & m2 & Hrun2 & Hw2)|(Hheld & _)]; [|done].
  set (x2 := set_lock (mksleep 1 p (sleep_name (lock (recycle d n (ticks m) x))))
               (recycle d n (ticks m) x)) in *.
  assert (get_buf (bucket_of n, i) m2 = Some x2) as Hb2 by apply Hw2.
  destruct (bread_after_bget _ _ _ _ _ _ _ Hrun2 Hb2)
    as [(Hv & _)|(_ & m' & Hrun & Hw)]; [done|].
  pose proof (writes_trans _ _ _ _ _ _ _ _ Hw1 Hw2) as H12.
  pose proof (writes_trans _ _ _ _ _ _ _ _ H12 Hw) as Hall.
  eexists i, x, m', _. split; [done|]. split; [done|]. split; [done|].
  split; [apply Hw|]. split.
  { cbn. by rewrite (writes_disk _ _ _ _ _ H12). }
  repeat (split; [done|]). split; [apply holding_set_lock|].
  split; [apply (writes_trace _ _ _ _ _ Hall)|]. split.
  { intros b' Hne. by apply (writes_other _ _ _ _ _ _ Hall). }
  apply (writes_disk _ _ _ _ _ Hall).
Qed.

(** The slot that [bread] has returned: as for [bget], and valid. *)
Lemma bread_ret_first_holder p d n m b m' :
  bread p d n m = Ret b m' ->
  exists x' l, first_holder m' d n b x' /\ b.1 = bucket_of n /\
    get_spin b.1 m' = Some l /\ spin_locked l = 0 /\
    holding p x' = true /\ 0 <= refcnt x' < UINT_MOD /\ valid x' <> 0.
Proof.
  intros Hread. destruct (bread_ret_inv _ _ _ _ _ _ Hread) as (m0 & Hget).
  destruct (bget_ret_first_holder _ _ _ _ _ _ Hget)
    as (x0 & l & Hfh & Hb & Hl & Hfree & Hh & _ & Hr & _).
  assert (get_buf b m0 = Some x0) as Hx0 by apply Hfh.
  destruct (bread_after_bget _ _ _ _ _ _ _ Hget Hx0)
    as [(Hv & Hrun)|(Hv & m1 & Hrun & Hw)]; rewrite Hrun in Hread; simplify_eq.
  - by exists x0, l.
  - eexists _, l. split.
    { eapply first_holder_writes; [done|done|apply Hfh..]. }
    split; [done|]. split; [by rewrite (writes_spin _ _ _ _ _ _ Hw)|].
    split; [done|]. split; [done|]. split; [done|]. done.
Qed.

(** [brelse] by the holder of the first holder of a block, the shard lock
    being free. *)
Lemma brelse_first_holder p d n m b x l :
  first_holder m d n b x -> b.1 = bucket_of n ->
  get_spin b.1 m = Some l -> spin_locked l = 0 -> holding p x = true ->
  exists m',
    brelse p b m = Ret tt m' /\
    writes m m' b
      (set_tstamp (ticks m)
         (decr_refcnt (set_lock (mksleep 0 0 (sleep_name (lock x))) x)))
      [EvReleaseSleep b; EvAcquire b.1; EvStore b; EvRelease b.1] /\
    first_holder m' d n b
      (set_tstamp (ticks m)
         (decr_refcnt (set_lock (mksleep 0 0 (sleep_name (lock x))) x))).
Proof.
  intros Hfh Hb Hl Hfree Hh.
  assert (bucket_of (blockno x) = b.1) as Hhome.
  { destruct Hfh as (_ & _ & -> & _). done. }
  rewrite <- Hhome in Hl.
  destruct (brelse_run _ _ _ _ _ (proj1 Hfh) Hh Hl Hfree) as (m' & Hrun & Hw).
  rewrite Hhome in Hw. exists m'. split; [done|]. split; [done|].
  eapply first_holder_writes; [done|done|apply Hfh..].
Qed.

(** X3. After [bread] has returned a slot and its caller has released it
    with [brelse], a [bread] of the same block by any process finds the
    block in the cache: it returns the same slot with the payload and the
    valid flag it had, without calling the driver, and the reference count
    is what it was while the first caller held the slot. *)
Theorem bread_again_hits m p q d n b m1 :
  bread p d n m = Ret b m1 ->
  exists x1 m2 m3 x3,
    get_buf b m1 = Some x1 /\
    brelse p b m1 = Ret tt m2 /\
    bread q d n m2 = Ret b m3 /\
    get_buf b m3 = Some x3 /\
    valid x1 <> 0 /\ valid x3 = valid x1 /\ data x3 = data x1 /\
    refcnt x3 = refcnt x1 /\ tstamp x3 = ticks m1 /\
    holding q x3 = true /\
    trace m3 = trace m2 ++
      [EvAcquire b.1; EvStore b; EvRelease b.1; EvAcquireSleep q b] /\
    (forall b', b' <> b -> get_buf b' m3 = get_buf b' m1) /\
    disk m3 = disk m1.
Proof.
  intros Hread.
  destruct (bread_ret_first_holder _ _ _ _ _ _ Hread)
    as (x1 & l & Hfh1 & Hb & Hl1 & Hfree & Hh1 & Hr1 & Hv1).
  destruct (brelse_first_holder _ _ _ _ _ _ _ Hfh1 Hb Hl1 Hfree Hh1)
    as (m2 & Hrel & Hw2 & Hfh2).
  set (x2 := set_tstamp (ticks m1)
               (decr_refcnt (set_lock (mksleep 0 0 (sleep_name (lock x1))) x1))) in *.
  assert (get_spin b.1 m2 = Some l) as Hl2
    by (by rewrite (writes_spin _ _ _ _ _ _ Hw2)).
  destruct (bget_locked_first_holder _ _ _ _ _ _ Hfh2 Hb Hl2 Hfree)
    as (m3L & HrunL & HwL).
  assert (get_buf b m3L = Some (incr_refcnt x2)) as HbL by apply HwL.
  destruct (bget_after_locked q _ _ _ _ _ _ HrunL HbL)
    as [(_ & m3 & Hget & Hw3)|(Hheld & _)]; [|by cbn in Hheld].
  set (x3 := set_lock (mksleep 1 q (sleep_name (lock (incr_refcnt x2))))
               (incr_refcnt x2)) in *.
  assert (get_buf b m3 = Some x3) as Hb3 by apply Hw3.
  destruct (bread_after_bget _ _ _ _ _ _ _ Hget Hb3)
    as [(_ & Hread3)|(Hv3 & _)]; [|by cbn in Hv3].
  pose proof (writes_trans _ _ _ _ _ _ _ _ HwL Hw3) as H23.
  pose proof (writes_trans _ _ _ _ _ _ _ _ Hw2 H23) as H13.
  exists x1, m2, m3, x3. split; [apply Hfh1|].
  repeat (split; [done|]). split.
  { cbn. by apply wrap_decr_incr. }
  split; [done|]. split; [apply holding_set_lock|].
  split; [apply (writes_trace _ _ _ _ _ H23)|]. split.
  { intros b' Hne. by apply (writes_other _ _ _ _ _ _ H13). }
  apply (writes_disk _ _ _ _ _ H13).
Qed.

(** X4. While a process holds the slot that [bget] returned to it, a
    [bget] of the same block by another caller chooses the same slot and
    waits for its lock, its reference counted.  When the holder then calls
    [brelse], the slot lock is free for the waiter, which takes it and
    finds the slot with the identity, valid flag and payload it had, and
    with the reference count that it had in the hands of the first
    holder. *)
Theorem bget_waiter_gets_slot m p q d n b m1 :
  bget p d n m = Ret b m1 ->
  exists x1 m2 x2 m3 m4 x4,
    get_buf b m1 = Some x1 /\
    bget q d n m1 = Blocked (WSleep b) m2 /\
    get_buf b m2 = Some x2 /\ refcnt x2 = wrap (refcnt x1 + 1) /\
    holding p x2 = true /\
    brelse p b m2 = Ret tt m3 /\
    acquiresleep q b m3 = Ret tt m4 /\
    get_buf b m4 = Some x4 /\ holding q x4 = true /\
    refcnt x4 = refcnt x1 /\
    dev x4 = d /\ blockno x4 = n /\ valid x4 = valid x1 /\ data x4 = data x1 /\
    (forall b', b' <> b -> get_buf b' m4 = get_buf b' m1).
Proof.
  intros Hget.
  destruct (bget_ret_first_holder _ _ _ _ _ _ Hget)
    as (x1 & l & Hfh1 & Hb & Hl1 & Hfree & Hh1 & _ & Hr1 & _).
  destruct (bget_locked_first_holder _ _ _ _ _ _ Hfh1 Hb Hl1 Hfree)
    as (m2 & HrunL & Hw2).
  assert (get_buf b m2 = Some (incr_refcnt x1)) as Hb2 by apply Hw2.
  destruct (bget_after_locked q _ _ _ _ _ _ HrunL Hb2)
    as [(Hfree2 & _)|(_ & Hblocked)].
  { exfalso. by apply (holding_locked _ _ Hh1). }
  assert (first_holder m2 d n b (incr_refcnt x1)) as Hfh2.
  { eapply first_holder_writes; [done|done|apply Hfh1..]. }
  assert (get_spin b.1 m2 = Some l) as Hl2
    by (by rewrite (writes_spin _ _ _ _ _ _ Hw2)).
  destruct (brelse_first_holder p _ _ _ _ _ _ Hfh2 Hb Hl2 Hfree Hh1)
    as (m3 & Hrel & Hw3 & Hfh3).
  set (x3 := set_tstamp (ticks m2)
               (decr_refcnt
                  (set_lock (mksleep 0 0 (sleep_name (lock (incr_refcnt x1))))
                     (incr_refcnt x1)))) in *.
  assert (get_buf b m3 = Some x3) as Hb3 by apply Hfh3.
  destruct (acquiresleep_run q _ _ _ Hb3 eq_refl) as (m4 & Hacq & Hw4).
  pose proof (writes_trans _ _ _ _ _ _ _ _ Hw3 Hw4) as H24.
  pose proof (writes_trans _ _ _ _ _ _ _ _ Hw2 H24) as H14.
  eexists x1, m2, _, m3, m4, _. split; [apply Hfh1|].
  split; [done|]. split; [done|]. split; [done|]. split; [done|].
  split; [done|]. split; [done|]. split; [apply Hw4|].
  split; [apply holding_set_lock|]. split.
  { cbn. by apply wrap_incr_decr. }
  split; [apply Hfh1|]. split; [apply Hfh1|]. split; [done|]. split; [done|].
  intros b' Hne. by apply (writes_other _ _ _ _ _ _ H14).
Qed.

(** ** Every way a call can end *)

Ltac lock_order_done :=
  cbn [lock_order app]; rewrite ?decide_True by done; done.

Lemma footprint_refl m b : footprint m m b [].
Proof. unfold footprint. by rewrite app_nil_r. Qed.

Lemma writes_footprint m m' b x' evs : writes m m' b x' evs -> footprint m m' b evs.
Proof. intros (_ & H2 & H3 & H4 & _ & H6 & H7). done. Qed.

Lemma footprint_log m b e : footprint m (log e m) b [e].
Proof. done. Qed.

Lemma footprint_trans m m1 m2 b e1 e2 :
  footprint m m1 b e1 -> footprint m1 m2 b e2 -> footprint m m2 b (e1 ++ e2).
Proof.
  intros (H1 & H2 & H3 & H4 & H5) (G1 & G2 & G3 & G4 & G5).
  unfold footprint. split; [|split; [|split; [|split]]].
  - intros b' Hne. by rewrite G1, H1.
  - intros id. by rewrite G2, H2.
  - congruence.
  - congruence.
  - by rewrite G5, H5, app_assoc.
Qed.

(** A [bget] that returns has written one slot: the first holder of the
    block, with one more reference, or an unused slot, recycled. *)
Lemma bget_ret_writes p d n m b m1 :
  bget p d n m = Ret b m1 ->
  exists x x0,
    get_buf b m = Some x /\
    writes m m1 b (set_lock (mksleep 1 p (sleep_name (lock x0))) x0)
      [EvAcquire b.1; EvStore b; EvRelease b.1; EvAcquireSleep p b] /\
    ((dev x = d /\ blockno x = n /\ x0 = incr_refcnt x) \/
     (refcnt x = 0 /\ x0 = recycle d n (ticks m) x)).
Proof.
  intros Hget.
  destruct (bget_ret_inv _ _ _ _ _ _ Hget) as (mL & xL & HrunL & HxL & _ & _ & Hw).
  destruct (bget_locked_pre _ _ _ _ _ HrunL)
    as (l & bufs & Hl & Hfree & Hbufs & [(h & y & Hs & Hy & ->)|(i & x & Hs & Hx & ->)]).
  - pose proof (scan_spec d n bufs) as Hpost. rewrite Hs in Hpost.
    destruct Hpost as (y' & Hy' & Hd & Hn & _). simplify_eq.
    destruct (bget_locked_hit _ _ _ _ _ _ _ Hl Hfree Hbufs Hs Hy) as (m0 & Hrun0 & Hw0).
    rewrite Hrun0 in HrunL. simplify_eq.
    assert (xL = incr_refcnt y) as -> by (destruct Hw0 as [E _]; congruence).
    exists y, (incr_refcnt y). split.
    { by rewrite (get_bufs_get_buf _ h _ _ Hbufs). }
    split; [apply (writes_trans _ _ _ _ _ _ _ _ Hw0 Hw)|]. by left.
  - pose proof (scan_spec d n bufs) as Hpost. rewrite Hs in Hpost.
    destruct Hpost as (_ & _ & x' & Hx' & Hr & _). simplify_eq.
    destruct (bget_locked_miss _ _ _ _ _ _ _ Hl Hfree Hbufs Hs Hx) as (m0 & Hrun0 & Hw0).
    rewrite Hrun0 in HrunL. simplify_eq.
    assert (xL = recycle d n (ticks m) x) as -> by (destruct Hw0 as [E _]; congruence).
    exists x, (recycle d n (ticks m) x). split.
    { by rewrite (get_bufs_get_buf _ i _ _ Hbufs). }
    split; [apply (writes_trans _ _ _ _ _ _ _ _ Hw0 Hw)|]. by right.
Qed.

(** Every way [bget] can end: it has changed at most one slot, and that
    slot, if it was in use, only in its reference count and lock; the shard
    locks are as they were; the events respect the order of the locks. *)
Lemma bget_final p d n m m' :
  final (bget p d n m) = Some m' ->
  exists b evs,
    footprint m m' b evs /\ disk m' = disk m /\
    lock_order None evs = Some None /\
    (forall b0 m0, bget p d n m = Ret b0 m0 -> b0 = b) /\
    (forall x, get_buf b m = Some x -> refcnt x <> 0 ->
       exists x', get_buf b m' = Some x' /\ same_block x x').
Proof.
  intros Hfin.
  assert (forall x, get_buf ((0, 0)%nat : bufptr) m = Some x -> refcnt x <> 0 ->
            exists x', get_buf ((0, 0)%nat : bufptr) m = Some x' /\ same_block x x')
    as Hkeep by (intros x Hx _; by exists x).
  destruct (get_spin (bucket_of n) m) as [l|] eqn:Hl; cycle 1.
  { exfalso. revert Hfin. unfold_ops. by rewrite Hl. }
  destruct (decide (spin_locked l = 0)) as [Hfree|Hheld]; cycle 1.
  { assert (bget p d n m = Blocked (WSpin (bucket_of n)) m) as Hrun.
    { unfold_ops. rewrite Hl. by destruct (Z.eqb_spec (spin_locked l) 0). }
    rewrite Hrun in Hfin. cbn in Hfin. simplify_eq.
    exists (0, 0)%nat, []. split; [apply footprint_refl|].
    split; [done|]. split; [done|]. split; [by rewrite Hrun|done]. }
  assert (is_Some (get_bufs (bucket_of n) m)) as [bufs Hbufs].
  { unfold get_spin, get_bufs in *.
    destruct (bcache m !! bucket_of n); [by eexists|done]. }
  pose proof (scan_spec d n bufs) as Hpost.
  destruct (scan d n bufs) as [h|[i|]] eqn:Hs; cbn in Hpost.
  - destruct Hpost as (y & Hy & Hd & Hn & _).
    destruct (bget_locked_hit _ _ _ _ _ _ _ Hl Hfree Hbufs Hs Hy) as (m1 & Hrun1 & Hw1).
    assert (get_buf (bucket_of n, h) m1 = Some (incr_refcnt y)) as Hb1 by apply Hw1.
    assert (get_buf (bucket_of n, h) m = Some y) as Hb
      by (by rewrite (get_bufs_get_buf _ h _ _ Hbufs)).
    destruct (bget_after_locked p _ _ _ _ _ _ Hrun1 Hb1)
      as [(_ & m2 & Hrun & Hw)|(_ & Hrun)];
      rewrite Hrun in Hfin; cbn in Hfin; simplify_eq.
    + pose proof (writes_trans _ _ _ _ _ _ _ _ Hw1 Hw) as Hall.
      eexists _, _. split; [apply (writes_footprint _ _ _ _ _ Hall)|].
      split; [apply (writes_disk _ _ _ _ _ Hall)|].
      split; [lock_order_done|]. split.
      { intros b0 m0. rewrite Hrun. by intros [= <- _]. }
      intros x Hx _. simplify_eq. eexists. split; [apply Hw|done].
    + eexists _, _. split; [apply (writes_footprint _ _ _ _ _ Hw1)|].
      split; [apply (writes_disk _ _ _ _ _ Hw1)|].
      split; [lock_order_done|]. split.
      { intros b0 m0. by rewrite Hrun. }
      intros x Hx _. simplify_eq. eexists. split; [done|done].
  - destruct Hpost as (_ & _ & x & Hx & Hr & _).
    destruct (bget_locked_miss _ _ _ _ _ _ _ Hl Hfree Hbufs Hs Hx) as (m1 & Hrun1 & Hw1).
    assert (get_buf (bucket_of n, i) m1 = Some (recycle d n (ticks m) x)) as Hb1
      by apply Hw1.
    assert (get_buf (bucket_of n, i) m = Some x) as Hb
      by (by rewrite (get_bufs_get_buf _ i _ _ Hbufs)).
    destruct (bget_after_locked p _ _ _ _ _ _ Hrun1 Hb1)
      as [(_ & m2 & Hrun & Hw)|(_ & Hrun)];
      rewrite Hrun in Hfin; cbn in Hfin; simplify_eq.
    + pose proof (writes_trans _ _ _ _ _ _ _ _ Hw1 Hw) as Hall.
      eexists _, _. split; [apply (writes_footprint _ _ _ _ _ Hall)|].
      split; [apply (writes_disk _ _ _ _ _ Hall)|].
      split; [lock_order_done|]. split.
      { intros b0 m0. rewrite Hrun. by intros [= <- _]. }
      intros x' Hx' Hne. by simplify_eq.
    + eexists _, _. split; [apply (writes_footprint _ _ _ _ _ Hw1)|].
      split; [apply (writes_disk _ _ _ _ _ Hw1)|].
      split; [lock_order_done|]. split.
      { intros b0 m0. by rewrite Hrun. }
      intros x' Hx' Hne. by simplify_eq.
  - destruct (bget_locked_none _ _ _ _ _ Hl Hfree Hbufs Hs)
      as (m1 & Hrun1 & Htr & Hsame & Hspin & Hdims & Hdisk & Hticks).
    assert (bget p d n m = Panic "bget: no buffers" m1) as Hrun.
    { rewrite bget_split. unfold bind. by rewrite Hrun1. }
    rewrite Hrun in Hfin. cbn in Hfin. simplify_eq.
    exists (0, 0)%nat, [EvAcquire (bucket_of n); EvRelease (bucket_of n);
                       EvPanic "bget: no buffers"].
    split; [done|]. split; [done|]. split; [lock_order_done|]. split.
    { intros b0 m0. by rewrite Hrun. }
    intros x. rewrite Hsame. intros Hx _. by exists x.
Qed.

(** Every way the sections of [brelse], [bpin] and [bunpin] under the shard
    lock can end. *)
Lemma brelse_locked_final b m m' :
  final (brelse_locked b m) = Some m' ->
  exists evs, footprint m m' b evs /\ disk m' = disk m /\
    lock_order None evs = Some None.
Proof.
  intros Hfin.
  destruct (get_buf b m) as [x|] eqn:Hx; cycle 1.
  { exfalso. revert Hfin. unfold_ops. by rewrite Hx. }
  destruct (get_spin (bucket_of (blockno x)) m) as [l|] eqn:Hl; cycle 1.
  { exfalso. revert Hfin. unfold_ops. rewrite Hx. cbv beta iota. by rewrite Hl. }
  destruct (decide (spin_locked l = 0)) as [Hfree|Hheld].
  - destruct (brelse_locked_run _ _ _ _ Hx Hl Hfree) as (m1 & Hrun & Hw).
    rewrite Hrun in Hfin. cbn in Hfin. simplify_eq.
    eexists. split; [apply (writes_footprint _ _ _ _ _ Hw)|].
    split; [apply (writes_disk _ _ _ _ _ Hw)|]. lock_order_done.
  - assert (brelse_locked b m = Blocked (WSpin (bucket_of (blockno x))) m) as Hrun.
    { unfold_ops. rewrite Hx. cbv beta iota. rewrite Hl.
      by destruct (Z.eqb_spec (spin_locked l) 0). }
    rewrite Hrun in Hfin. cbn in Hfin. simplify_eq.
    exists []. split; [apply footprint_refl|done].
Qed.

Lemma bpin_final b m m' :
  final (bpin b m) = Some m' ->
  exists evs, footprint m m' b evs /\ disk m' = disk m /\
    lock_order None evs = Some None.
Proof.
  intros Hfin.
  destruct (get_buf b m) as [x|] eqn:Hx; cycle 1.
  { exfalso. revert Hfin. unfold_ops. by rewrite Hx. }
  destruct (get_spin (bucket_of (blockno x)) m) as [l|] eqn:Hl; cycle 1.
  { exfalso. revert Hfin. unfold_ops. rewrite Hx. cbv beta iota. by rewrite Hl. }
  destruct (decide (spin_locked l = 0)) as [Hfree|Hheld].
  - destruct (bpin_run _ _ _ _ Hx Hl Hfree) as (m1 & Hrun & Hw).
    rewrite Hrun in Hfin. cbn in Hfin. simplify_eq.
    eexists. split; [apply (writes_footprint _ _ _ _ _ Hw)|].
    split; [apply (writes_disk _ _ _ _ _ Hw)|]. lock_order_done.
  - assert (bpin b m = Blocked (WSpin (bucket_of (blockno x))) m) as Hrun.
    { unfold_ops. rewrite Hx. cbv beta iota. rewrite Hl.
      by destruct (Z.eqb_spec (spin_locked l) 0). }
    rewrite Hrun in Hfin. cbn in Hfin. simplify_eq.
    exists []. split; [apply footprint_refl|done].
Qed.

Lemma bunpin_final b m m' :
  final (bunpin b m) = Some m' ->
  exists evs, footprint m m' b evs /\ disk m' = disk m /\
    lock_order None evs = Some None.
Proof.
  intros Hfin.
  destruct (get_buf b m) as [x|] eqn:Hx; cycle 1.
  { exfalso. revert Hfin. unfold_ops. by rewrite Hx. }
  destruct (get_spin (bucket_of (blockno x)) m) as [l|] eqn:Hl; cycle 1.
  { exfalso. revert Hfin. unfold_ops. rewrite Hx. cbv beta iota. by rewrite Hl. }
  destruct (decide (spin_locked l = 0)) as [Hfree|Hheld].
  - destruct (bunpin_run _ _ _ _ Hx Hl Hfree) as (m1 & Hrun & Hw).
    rewrite Hrun in Hfin. cbn in Hfin. simplify_eq.
    eexists. split; [apply (writes_footprint _ _ _ _ _ Hw)|].
    split; [apply (writes_disk _ _ _ _ _ Hw)|]. lock_order_done.
  - assert (bunpin b m = Blocked (WSpin (bucket_of (blockno x))) m) as Hrun.
    { unfold_ops. rewrite Hx. cbv beta iota. rewrite Hl.
      by destruct (Z.eqb_spec (spin_locked l) 0). }
    rewrite Hrun in Hfin. cbn in Hfin. simplify_eq.
    exists []. split; [apply footprint_refl|done].
Qed.

Lemma brelse_final p b m m' :
  final (brelse p b m) = Some m' ->
  exists evs, footprint m m' b evs /\ disk m' = disk m /\
    lock_order None evs = Some None.
Proof.
  intros Hfin.
  destruct (get_buf b m) as [x|] eqn:Hx; cycle 1.
  { exfalso. revert Hfin. unfold_ops. by rewrite Hx. }
  destruct (holding p x) eqn:Hh; cycle 1.
  { rewrite (brelse_not_holding _ _ _ _ Hx Hh) in Hfin. cbn in Hfin. simplify_eq.
    exists [EvPanic "brelse"]. split; [apply footprint_log|done]. }
  rewrite (brelse_split _ _ _ _ Hx Hh) in Hfin. unfold bind in Hfin.
  destruct (releasesleep_run _ _ _ Hx) as (m1 & Hrun1 & Hw1).
  rewrite Hrun1 in Hfin.
  destruct (brelse_locked_final _ _ _ Hfin) as (evs & Hfp & Hdisk & Hord).
  exists ([EvReleaseSleep b] ++ evs). split.
  { eapply footprint_trans; [apply (writes_footprint _ _ _ _ _ Hw1)|done]. }
  split; [by rewrite Hdisk, (writes_disk _ _ _ _ _ Hw1)|done].
Qed.

Lemma bwrite_final p b m m' :
  final (bwrite p b m) = Some m' ->
  exists evs, footprint m m' b evs /\ lock_order None evs = Some None /\
    bcache m' = bcache m.
Proof.
  intros Hfin.
  destruct (get_buf b m) as [x|] eqn:Hx; cycle 1.
  { exfalso. revert Hfin. unfold_ops. by rewrite Hx. }
  destruct (holding p x) eqn:Hh.
  - rewrite (bwrite_run _ _ _ _ Hx Hh) in Hfin. cbn in Hfin. simplify_eq.
    exists [EvDiskRw b true]. done.
  - rewrite (bwrite_not_holding _ _ _ _ Hx Hh) in Hfin. cbn in Hfin. simplify_eq.
    exists [EvPanic "bwrite"]. done.
Qed.

Lemma bread_final p d n m m' :
  final (bread p d n m) = Some m' ->
  exists b evs, footprint m m' b evs /\ disk m' = disk m /\
    lock_order None evs = Some None.
Proof.
  intros Hfin. unfold bread, bind in Hfin.
  destruct (bget p d n m) as [b m1| | |] eqn:Hget.
  - destruct (bget_ret_writes _ _ _ _ _ _ Hget) as (x & x0 & Hx & Hw & _).
    set (x1 := set_lock (mksleep 1 p (sleep_name (lock x0))) x0) in *.
    assert (get_buf b m1 = Some x1) as Hx1 by apply Hw.
    destruct (decide (valid x1 = 0)) as [Hv|Hv].
    + destruct (bread_fill_invalid _ _ _ Hx1 Hv) as (m2 & Hrun & Hw2).
      rewrite Hrun in Hfin. cbn in Hfin. simplify_eq.
      pose proof (writes_trans _ _ _ _ _ _ _ _ Hw Hw2) as Hall.
      eexists b, _. split; [apply (writes_footprint _ _ _ _ _ Hall)|].
      split; [apply (writes_disk _ _ _ _ _ Hall)|]. lock_order_done.
    + rewrite (bread_fill_valid _ _ _ Hx1 Hv) in Hfin. cbn in Hfin. simplify_eq.
      eexists b, _. split; [apply (writes_footprint _ _ _ _ _ Hw)|].
      split; [apply (writes_disk _ _ _ _ _ Hw)|]. lock_order_done.
  - assert (final (bget p d n m) = Some m') as Hfin' by (by rewrite Hget).
    destruct (bget_final _ _ _ _ _ Hfin') as (b & evs & ? & ? & ? & _). by exists b, evs.
  - assert (final (bget p d n m) = Some m') as Hfin' by (by rewrite Hget).
    destruct (bget_final _ _ _ _ _ Hfin') as (b & evs & ? & ? & ? & _). by exists b, evs.
  - done.
Qed.

(** Every way a call can end. *)
Lemma exec_final c m m' :
  final (exec NBUCKETS c m) = Some m' ->
  exists b evs, footprint m m' b evs /\ lock_order None evs = Some None /\
    match c with
    | CBwrite _ _ => bcache m' = bcache m
    | _ => disk m' = disk m
    end.
Proof.
  destruct c as [p d n|p d n|p b|p b|b|b]; cbn [exec]; intros Hfin.
  - assert (final (bget p d n m) = Some m') as Hfin'.
    { unfold bind, ret in Hfin. by destruct (bget p d n m). }
    destruct (bget_final _ _ _ _ _ Hfin') as (b & evs & ? & ? & ? & _). by exists b, evs.
  - assert (final (bread p d n m) = Some m') as Hfin'.
    { unfold bind, ret in Hfin. by destruct (bread p d n m). }
    destruct (bread_final _ _ _ _ _ Hfin') as (b & evs & ? & ? & ?). by exists b, evs.
  - destruct (bwrite_final _ _ _ _ Hfin) as (evs & ? & ? & ?). by exists b, evs.
  - destruct (brelse_final _ _ _ _ Hfin) as (evs & ? & ? & ?). by exists b, evs.
  - destruct (bpin_final _ _ _ Hfin) as (evs & ? & ? & ?). by exists b, evs.
  - destruct (bunpin_final _ _ _ Hfin) as (evs & ? & ? & ?). by exists b, evs.
Qed.

(** X5. However a call of the interface ends (return, panic, or a thread
    left waiting), the events it has added to the trace respect the order
    of the locks: at most one shard lock is held at a time, no slot lock is
    taken or released, no disk transfer is started and no panic is raised
    while a shard lock is held, and no shard lock is held at the end. *)
Theorem calls_respect_lock_order c m m' :
  final (exec NBUCKETS c m) = Some m' ->
  exists evs, trace m' = trace m ++ evs /\ lock_order None evs = Some None.
Proof.
  intros Hfin.
  destruct (exec_final _ _ _ Hfin) as (b & evs & (_ & _ & _ & _ & Htr) & Hord & _).
  by exists evs.
Qed.

(** X6. However a call of the interface ends, it has changed at most one
    slot of the cache, the shard locks are in the state they were in, the
    array has the size it had and the clock is untouched; only [bwrite]
    changes the disk, and [bwrite] changes nothing of the cache. *)
Theorem calls_change_one_slot c m m' :
  final (exec NBUCKETS c m) = Some m' ->
  (exists b, forall b', b' <> b -> get_buf b' m' = get_buf b' m) /\
  (forall id, get_spin id m' = get_spin id m) /\
  dims m' = dims m /\
  ticks m' = ticks m /\
  match c with
  | CBwrite _ _ => bcache m' = bcache m
  | _ => disk m' = disk m
  end.
Proof.
  intros Hfin.
  destruct (exec_final _ _ _ Hfin) as (b & evs & (Hoth & Hspin & Hdims & Hticks & _) & _ & Hc).
  split; [by exists b|done].
Qed.

(** X7. [bget] never takes a slot in use away from its block: however the
    call ends, every slot whose reference count was not zero still has the
    device, block number, valid flag, payload and time stamp it had. *)
Theorem bget_keeps_used_slots p d n m m' c x :
  final (bget p d n m) = Some m' ->
  get_buf c m = Some x -> refcnt x <> 0 ->
  exists x', get_buf c m' = Some x' /\
    dev x' = dev x /\ blockno x' = blockno x /\ valid x' = valid x /\
    data x' = data x /\ tstamp x' = tstamp x.
Proof.
  intros Hfin Hx Hr.
  destruct (bget_final _ _ _ _ _ Hfin) as (b & evs & (Hoth & _) & _ & _ & _ & Hkeep).
  destruct (decide (c = b)) as [->|Hne].
  - destruct (Hkeep x Hx Hr) as (x' & Hx' & Hsame). by exists x'.
  - exists x. by rewrite Hoth.
Qed.

(** X8. [bwrite] by the holder of the slot lock calls the driver once, to
    write: afterwards the disk has the payload of the slot at the device
    and block number of the slot and is unchanged elsewhere, and the cache
    is untouched (the slot stays locked, valid and counted).  The driver
    then reads that payload back into any invalid slot that carries the
    same identity. *)
Theorem bwrite_persists m p b x :
  get_buf b m = Some x -> holding p x = true ->
  exists m',
    bwrite p b m = Ret tt m' /\
    disk m' (dev x, blockno x) = data x /\
    (forall k, k <> (dev x, blockno x) -> disk m' k = disk m k) /\
    bcache m' = bcache m /\ ticks m' = ticks m /\
    trace m' = trace m ++ [EvDiskRw b true] /\
    (forall c y, get_buf c m' = Some y -> valid y = 0 ->
       dev y = dev x -> blockno y = blockno x ->
       exists m'' y',
         bread_fill c m' = Ret c m'' /\ get_buf c m'' = Some y' /\
         data y' = data x /\ valid y' = 1).
Proof.
  intros Hx Hh. eexists. split; [by apply (bwrite_run p b x m)|].
  split; [cbn; by rewrite decide_True|].
  split; [intros k Hk; cbn; by rewrite decide_False|].
  split; [done|]. split; [done|]. split; [done|].
  intros c y Hy Hv Hd Hn.
  destruct (bread_fill_invalid _ _ _ Hy Hv) as (m'' & Hrun & Hw).
  eexists m'', _. split; [done|]. split; [apply Hw|].
  split; [|done]. cbn. rewrite Hd, Hn. by rewrite decide_True.
Qed.

Lemma decr_incr_refcnt x :
  0 <= refcnt x < UINT_MOD -> decr_refcnt (incr_refcnt x) = x.
Proof.
  intros Hr. destruct x. unfold decr_refcnt, incr_refcnt, set_refcnt. cbn in *.
  by rewrite wrap_incr_decr.
Qed.

Lemma incr_decr_refcnt x :
  0 <= refcnt x < UINT_MOD -> incr_refcnt (decr_refcnt x) = x.
Proof.
  intros Hr. destruct x. unfold decr_refcnt, incr_refcnt, set_refcnt. cbn in *.
  by rewrite wrap_decr_incr.
Qed.

(** After a write of [x'] and then of [x] again into slot [b], every slot
    reads as before. *)
Lemma writes_back m m1 m2 b x x1 e1 e2 :
  get_buf b m = Some x -> writes m m1 b x1 e1 -> writes m1 m2 b x e2 ->
  forall c, get_buf c m2 = get_buf c m.
Proof.
  intros Hx Hw1 Hw2 c. destruct (decide (c = b)) as [->|Hne].
  - rewrite Hx. apply Hw2.
  - rewrite (writes_other _ _ _ _ _ _ Hw2) by done.
    by apply (writes_other _ _ _ _ _ _ Hw1).
Qed.

(** X9. [bpin] and [bunpin] undo each other: on a slot whose reference
    count is a 32-bit value, [bpin] followed by [bunpin], and [bunpin]
    followed by [bpin] (even from count 0, through [2^32 - 1]), leave every
    slot, every shard lock, the clock and the disk as they were. *)
Theorem bpin_bunpin_cancel m b x l :
  get_buf b m = Some x -> 0 <= refcnt x < UINT_MOD ->
  get_spin (bucket_of (blockno x)) m = Some l -> spin_locked l = 0 ->
  (exists m1 m2,
     bpin b m = Ret tt m1 /\ bunpin b m1 = Ret tt m2 /\
     (forall c, get_buf c m2 = get_buf c m) /\
     (forall id, get_spin id m2 = get_spin id m) /\
     disk m2 = disk m /\ ticks m2 = ticks m) /\
  (exists m1 m2,
     bunpin b m = Ret tt m1 /\ bpin b m1 = Ret tt m2 /\
     (forall c, get_buf c m2 = get_buf c m) /\
     (forall id, get_spin id m2 = get_spin id m) /\
     disk m2 = disk m /\ ticks m2 = ticks m).
Proof.
  intros Hx Hr Hl Hfree. split.
  - destruct (bpin_run _ _ _ _ Hx Hl Hfree) as (m1 & Hrun1 & Hw1).
    assert (get_buf b m1 = Some (incr_refcnt x)) as Hx1 by apply Hw1.
    assert (get_spin (bucket_of (blockno (incr_refcnt x))) m1 = Some l) as Hl1
      by (by rewrite (writes_spin _ _ _ _ _ _ Hw1)).
    destruct (bunpin_run _ _ _ _ Hx1 Hl1 Hfree) as (m2 & Hrun2 & Hw2).
    rewrite (decr_incr_refcnt x Hr) in Hw2.
    exists m1, m2. split; [done|]. split; [done|].
    split; [by eapply writes_back|]. split.
    { intros id. by rewrite (writes_spin _ _ _ _ _ _ Hw2), (writes_spin _ _ _ _ _ _ Hw1). }
    split.
    + by rewrite (writes_disk _ _ _ _ _ Hw2), (writes_disk _ _ _ _ _ Hw1).
    + by rewrite (writes_ticks _ _ _ _ _ Hw2), (writes_ticks _ _ _ _ _ Hw1).
  - destruct (bunpin_run _ _ _ _ Hx Hl Hfree) as (m1 & Hrun1 & Hw1).
    assert (get_buf b m1 = Some (decr_refcnt x)) as Hx1 by apply Hw1.
    assert (get_spin (bucket_of (blockno (decr_refcnt x))) m1 = Some l) as Hl1
      by (by rewrite (writes_spin _ _ _ _ _ _ Hw1)).
    destruct (bpin_run _ _ _ _ Hx1 Hl1 Hfree) as (m2 & Hrun2 & Hw2).
    rewrite (incr_decr_refcnt x Hr) in Hw2.
    exists m1, m2. split; [done|]. split; [done|].
    split; [by eapply writes_back|]. split.
    { intros id. by rewrite (writes_spin _ _ _ _ _ _ Hw2), (writes_spin _ _ _ _ _ _ Hw1). }
    split.
    + by rewrite (writes_disk _ _ _ _ _ Hw2), (writes_disk _ _ _ _ _ Hw1).
    + by rewrite (writes_ticks _ _ _ _ _ Hw2), (writes_ticks _ _ _ _ _ Hw1).
Qed.

(** X10. [bpin] counts one more reference to the slot and changes nothing
    else of it; while the count stays below [2^32 - 1] the slot is then in
    use, and no scan of its bucket ends with it as the slot to recycle.  At
    count [2^32 - 1] the increment wraps: [bpin] leaves the count at 0. *)
Theorem bpin_counts m b x l :
  get_buf b m = Some x -> 0 <= refcnt x < UINT_MOD ->
  get_spin (bucket_of (blockno x)) m = Some l -> spin_locked l = 0 ->
  exists m',
    bpin b m = Ret tt m' /\
    get_buf b m' =
      Some (set_refcnt (if decide (refcnt x = UINT_MOD - 1) then 0
                        else refcnt x + 1) x) /\
    (forall b', b' <> b -> get_buf b' m' = get_buf b' m) /\
    (refcnt x <> UINT_MOD - 1 ->
     forall d n bufs, get_bufs b.1 m' = Some bufs ->
       scan d n bufs <> Miss (Some b.2)).
Proof.
  intros Hx Hr Hl Hfree.
  destruct (bpin_run _ _ _ _ Hx Hl Hfree) as (m' & Hrun & Hw).
  assert (wrap (refcnt x + 1)
          = if decide (refcnt x = UINT_MOD - 1) then 0 else refcnt x + 1) as Hwrap.
  { case_decide as E.
    - rewrite E. by vm_compute.
    - apply wrap_small. lia. }
  assert (get_buf b m' = Some (set_refcnt
            (if decide (refcnt x = UINT_MOD - 1) then 0 else refcnt x + 1) x))
    as Hx'.
  { rewrite <- Hwrap. apply Hw. }
  exists m'. split; [done|]. split; [done|]. split.
  { intros b' Hne. by apply (writes_other _ _ _ _ _ _ Hw). }
  intros Hne d n bufs Hbufs.
  eapply scan_skips_used.
  - destruct b as [i j]. cbn [fst snd] in *.
    by rewrite <- (get_bufs_get_buf _ j _ _ Hbufs).
  - cbn. rewrite decide_False by done. lia.
Qed.

(** With the shard lock of the bucket free, [bget] returns a slot, waits
    for a slot lock, or panics for want of an unused slot. *)
Lemma bget_progress p d n m l bufs :
  get_spin (bucket_of n) m = Some l -> spin_locked l = 0 ->
  get_bufs (bucket_of n) m = Some bufs ->
  (exists b m', bget p d n m = Ret b m') \/
  (exists b m', bget p d n m = Blocked (WSleep b) m') \/
  (exists m', bget p d n m = Panic "bget: no buffers" m').
Proof.
  intros Hl Hfree Hbufs.
  pose proof (scan_spec d n bufs) as Hpost.
  destruct (scan d n bufs) as [h|[i|]] eqn:Hs; cbn in Hpost.
  - destruct Hpost as (y & Hy & _).
    destruct (bget_locked_hit _ _ _ _ _ _ _ Hl Hfree Hbufs Hs Hy) as (m1 & Hrun1 & Hw1).
    assert (get_buf (bucket_of n, h) m1 = Some (incr_refcnt y)) as Hb1 by apply Hw1.
    destruct (bget_after_locked p _ _ _ _ _ _ Hrun1 Hb1)
      as [(_ & m2 & Hrun & _)|(_ & Hrun)]; [left|right; left]; eauto.
  - destruct Hpost as (_ & _ & x & Hx & _).
    destruct (bget_locked_miss _ _ _ _ _ _ _ Hl Hfree Hbufs Hs Hx) as (m1 & Hrun1 & Hw1).
    assert (get_buf (bucket_of n, i) m1 = Some (recycle d n (ticks m) x)) as Hb1
      by apply Hw1.
    destruct (bget_after_locked p _ _ _ _ _ _ Hrun1 Hb1)
      as [(_ & m2 & Hrun & _)|(_ & Hrun)]; [left|right; left]; eauto.
  - destruct (bget_locked_none _ _ _ _ _ Hl Hfree Hbufs Hs) as (m1 & Hrun1 & _).
    right. right. exists m1. rewrite bget_split. unfold bind. by rewrite Hrun1.
Qed.

(** X11. At every boundary between the sections of the calls, that is in
    every state of the cache, and with at least one bucket, a call of the
    interface on a slot of the cache that runs from there on its own never
    reads or writes outside [bcache] and finds the shard lock it takes
    free.  [bpin] and [bunpin] return; [bwrite] and [brelse] return or
    panic with their own message; [bget] and [bread] return, wait for a
    slot lock, or panic for want of an unused slot.  (A call that starts
    while another thread is inside a section under the same shard lock
    first spins until that section ends, and then goes on from such a
    boundary.) *)
Theorem calls_end m R c :
  reach m R -> (0 < NBUCKETS)%nat -> in_cache NBUCKETS NBUF c ->
  match c with
  | CBget _ _ _ | CBread _ _ _ =>
      (exists m', exec NBUCKETS c m = Ret tt m') \/
      (exists b m', exec NBUCKETS c m = Blocked (WSleep b) m') \/
      (exists m', exec NBUCKETS c m = Panic "bget: no buffers" m')
  | CBwrite _ _ =>
      (exists m', exec NBUCKETS c m = Ret tt m') \/
      (exists m', exec NBUCKETS c m = Panic "bwrite" m')
  | CBrelse _ _ =>
      (exists m', exec NBUCKETS c m = Ret tt m') \/
      (exists m', exec NBUCKETS c m = Panic "brelse" m')
  | CBpin _ | CBunpin _ => exists m', exec NBUCKETS c m = Ret tt m'
  end.
Proof.
  intros Hreach Hpos Hin. pose proof (reach_inv _ _ Hreach) as Hinv.
  pose proof (inv_wf _ _ _ _ Hinv) as Hwf.
  assert (forall x, exists l,
            get_spin (bucket_of (blockno x)) m = Some l /\ spin_locked l = 0)
    as Hspin.
  { intros x.
    destruct (proj2 (wf_get_spin m (bucket_of (blockno x)) Hwf)
                (bucket_of_lt _ Hpos)) as [l Hl].
    exists l. split; [done|]. by eapply inv_spin. }
  destruct c as [p d n|p d n|p b|p b|b|b]; cbn [exec in_cache] in *.
  - destruct (reach_entry _ _ n Hreach Hpos) as (l & bufs & Hl & Hfree & Hbufs & _).
    unfold bind, ret.
    destruct (bget_progress p d n m l bufs Hl Hfree Hbufs)
      as [(b & m' & ->)|[(b & m' & ->)|(m' & ->)]]; eauto.
  - destruct (reach_entry _ _ n Hreach Hpos) as (l & bufs & Hl & Hfree & Hbufs & _).
    destruct (bget_progress p d n m l bufs Hl Hfree Hbufs)
      as [(b & m1 & Hget)|[(b & m' & Hget)|(m' & Hget)]].
    + destruct (bget_ret_writes _ _ _ _ _ _ Hget) as (x & x0 & _ & Hw & _).
      left. unfold bind at 1, ret.
      destruct (bread_after_bget _ _ _ _ _ _ _ Hget (proj1 Hw))
        as [(_ & ->)|(_ & m' & -> & _)]; eauto.
    + right. left. exists b, m'. unfold bread, bind. by rewrite Hget.
    + right. right. exists m'. unfold bread, bind. by rewrite Hget.
  - destruct (proj2 (wf_get_buf m b Hwf) Hin) as [x Hx].
    destruct (holding p x) eqn:Hh.
    + left. eexists. by apply (bwrite_run p b x m).
    + right. eexists. by apply (bwrite_not_holding p b x m).
  - destruct (proj2 (wf_get_buf m b Hwf) Hin) as [x Hx].
    destruct (holding p x) eqn:Hh.
    + left. destruct (Hspin x) as (l & Hl & Hfree).
      destruct (brelse_run _ _ _ _ _ Hx Hh Hl Hfree) as (m' & Hrun & _). eauto.
    + right. eexists. by apply (brelse_not_holding p b x m).
  - destruct (proj2 (wf_get_buf m b Hwf) Hin) as [x Hx].
    destruct (Hspin x) as (l & Hl & Hfree).
    destruct (bpin_run _ _ _ _ Hx Hl Hfree) as (m' & Hrun & _). eauto.
  - destruct (proj2 (wf_get_buf m b Hwf) Hin) as [x Hx].
    destruct (Hspin x) as (l & Hl & Hfree).
    destruct (bunpin_run _ _ _ _ Hx Hl Hfree) as (m' & Hrun & _). eauto.
Qed.

(** ** [binit] on any memory *)

Lemma wf_get_buf_None m b :
  wf m -> ~ ((b.1 < NBUCKETS)%nat /\ (b.2 < NBUF)%nat) -> get_buf b m = None.
Proof.
  intros Hwf Hout. destruct (get_buf b m) as [x|] eqn:Hx; [|done].
  exfalso. apply Hout. apply (wf_get_buf m b Hwf). eauto.
Qed.

Lemma wf_get_spin_None m id :
  wf m -> ~ (id < NBUCKETS)%nat -> get_spin id m = None.
Proof.
  intros Hwf Hout. destruct (get_spin id m) as [l|] eqn:Hl; [|done].
  exfalso. apply Hout. apply (wf_get_spin m id Hwf). eauto.
Qed.

Lemma reinit_initlock m0 i m :
  wf m0 -> (i < NBUCKETS)%nat -> reinit_upto m0 i i 0 m ->
  exists m', initlock i "bcache" m = Ret tt m' /\ reinit_upto m0 (S i) i 0 m'.
Proof.
  intros Hwf Hi (Hdims & Hdisk & Hticks & Hspin & Hbuf).
  destruct (proj2 (wf_get_spin m0 i Hwf) Hi) as [l Hl].
  assert (get_spin i m = Some l) as Hl'.
  { rewrite Hspin. rewrite decide_False by lia. done. }
  unfold initlock. rewrite Hl'. eexists. split; [done|].
  unfold reinit_upto. views. split; [done|]. split; [done|]. split; [done|]. split.
  - intros id. views. destruct (decide (i = id)) as [<-|Hne].
    + rewrite ?decide_True by done. rewrite Hl', Hl. cbn.
      by rewrite decide_True by lia.
    + rewrite ?decide_False by done. rewrite Hspin.
      destruct (decide (id < i)%nat).
      * by rewrite decide_True by lia.
      * by rewrite decide_False by lia.
  - intros b. views. apply Hbuf.
Qed.

Lemma reinit_initsleeplock m0 i j m :
  wf m0 -> (i < NBUCKETS)%nat -> (j < NBUF)%nat ->
  reinit_upto m0 (S i) i j m ->
  exists m', initsleeplock (i, j) "buffer" m = Ret tt m' /\
    reinit_upto m0 (S i) i (S j) m'.
Proof.
  intros Hwf Hi Hj (Hdims & Hdisk & Hticks & Hspin & Hbuf).
  destruct (proj2 (wf_get_buf m0 (i, j) Hwf) (conj Hi Hj)) as [x Hx].
  assert (get_buf (i, j) m = Some x) as Hx'.
  { rewrite Hbuf. cbn [fst snd]. rewrite decide_False by lia. done. }
  unfold initsleeplock. rewrite Hx'. eexists. split; [done|].
  unfold reinit_upto. views. split; [done|]. split; [done|]. split; [done|]. split.
  - intros id. views. apply Hspin.
  - intros [bi bj]. views. cbn [fst snd]. destruct (decide ((i, j) = (bi, bj))) as [E|Hne].
    + simplify_eq. rewrite decide_True by done. rewrite Hx', Hx. cbn.
      by rewrite decide_True by lia.
    + rewrite decide_False by done. rewrite Hbuf. cbn [fst snd].
      assert (bi <> i \/ bj <> j) as Hd.
      { destruct (decide (bi = i)); [|by left].
        destruct (decide (bj = j)); [|by right]. exfalso. apply Hne. congruence. }
      destruct (decide ((bi < i)%nat \/ (bi = i /\ (bj < j)%nat))).
      * by rewrite decide_True by lia.
      * by rewrite decide_False by lia.
Qed.

Lemma reinit_next m0 i m :
  wf m0 -> reinit_upto m0 (S i) i NBUF m -> reinit_upto m0 (S i) (S i) 0 m.
Proof.
  intros Hwf (Hdims & Hdisk & Hticks & Hspin & Hbuf).
  split; [done|]. split; [done|]. split; [done|]. split; [done|].
  intros b. rewrite Hbuf.
  destruct (decide ((b.1 < i)%nat \/ (b.1 = i /\ (b.2 < NBUF)%nat))).
  - by rewrite decide_True by lia.
  - destruct (decide ((b.1 < S i)%nat \/ (b.1 = S i /\ (b.2 < 0)%nat))); [|done].
    rewrite (wf_get_buf_None m0 b Hwf) by lia. done.
Qed.

(** X12. [binit] initializes locks and nothing else.  On an array of the
    declared size, whatever it holds, it returns; every shard lock and
    every slot lock is then free and named, also those that were held,
    while the device, block number, valid flag, reference count, time
    stamp and payload of every slot, the disk and the clock are what they
    were. *)
Theorem binit_only_locks m :
  wf m ->
  exists m',
    binit NBUCKETS NBUF m = Ret tt m' /\
    (forall id, get_spin id m' =
       (fun _ => mkspin 0 (Some "bcache")) <$> get_spin id m) /\
    (forall b, get_buf b m' =
       set_lock (mksleep 0 0 (Some "buffer")) <$> get_buf b m) /\
    dims m' = dims m /\ disk m' = disk m /\ ticks m' = ticks m.
Proof.
  intros Hwf. unfold binit.
  destruct (for_each_seq
    (fun i m1 => reinit_upto m i i 0 m1)
    (fun i => initlock i "bcache" ;;
              for_each (seq 0 NBUF) (fun j => initsleeplock (i, j) "buffer"))
    NBUCKETS 0%nat m) as (m' & Hrun & Hm').
  - split; [done|]. split; [done|]. split; [done|]. split.
    + intros id. by rewrite decide_False by lia.
    + intros b. by rewrite decide_False by lia.
  - intros i m0 Hi Hinit.
    destruct (reinit_initlock m i m0 Hwf ltac:(lia) Hinit) as (m1 & Hrun1 & Hinit1).
    destruct (for_each_seq
      (fun j m2 => reinit_upto m (S i) i j m2)
      (fun j => initsleeplock (i, j) "buffer") NBUF 0%nat m1)
      as (m2 & Hrun2 & Hinit2).
    + done.
    + intros j m3 Hj Hinit3.
      apply (reinit_initsleeplock m i j m3 Hwf); [lia..|done].
    + exists m2. unfold bind. rewrite Hrun1. split; [done|].
      by apply reinit_next.
  - destruct Hm' as (Hdims & Hdisk & Hticks & Hspin & Hbuf). cbn in Hspin, Hbuf.
    exists m'. split; [done|]. split; [|split; [|done]].
    + intros id. rewrite Hspin. case_decide; [done|].
      by rewrite (wf_get_spin_None m id Hwf).
    + intros b. rewrite Hbuf. case_decide as Hc; [done|].
      rewrite (wf_get_buf_None m b Hwf); [done|]. lia.
Qed.

(** X13. A slot that has been released is not the caller's any more:
    after [brelse] by the holder, a second [brelse] and a [bwrite] by the
    same process panic, and neither changes the cache or the disk. *)
Theorem brelse_twice_panics m p b x l :
  get_buf b m = Some x -> holding p x = true ->
  get_spin (bucket_of (blockno x)) m = Some l -> spin_locked l = 0 ->
  exists m1 m2 m3,
    brelse p b m = Ret tt m1 /\
    brelse p b m1 = Panic "brelse" m2 /\
    bwrite p b m1 = Panic "bwrite" m3 /\
    bcache m2 = bcache m1 /\ bcache m3 = bcache m1 /\
    disk m2 = disk m /\ disk m3 = disk m.
Proof.
  intros Hx Hh Hl Hfree.
  destruct (brelse_run _ _ _ _ _ Hx Hh Hl Hfree) as (m1 & Hrun & Hw).
  set (x1 := set_tstamp (ticks m)
               (decr_refcnt (set_lock (mksleep 0 0 (sleep_name (lock x))) x))) in *.
  assert (get_buf b m1 = Some x1) as Hx1 by apply Hw.
  assert (holding p x1 = false) as Hh1 by done.
  exists m1, (log (EvPanic "brelse") m1), (log (EvPanic "bwrite") m1).
  split; [done|]. split; [by apply (brelse_not_holding p b x1 m1)|].
  split; [by apply (bwrite_not_holding p b x1 m1)|].
  split; [done|]. split; [done|].
  split; apply (writes_disk _ _ _ _ _ Hw).
Qed.

(** ** What every state of the cache keeps of [binit] *)

Lemma slots_ok_writes m m' b x' evs :
  (forall c x, get_buf c m = Some x -> slot_ok x) ->
  writes m m' b x' evs -> slot_ok x' ->
  forall c x, get_buf c m' = Some x -> slot_ok x.
Proof.
  intros Hok Hw Hx' c x Hx. destruct (decide (c = b)) as [->|Hne].
  - destruct Hw as [E _]. by simplify_eq.
  - rewrite (writes_other _ _ _ _ _ _ Hw) in Hx by done. by eapply Hok.
Qed.

Lemma reach_slots_ok m R :
  reach m R ->
  (forall b x, get_buf b m = Some x -> slot_ok x) /\
  (forall id l, get_spin id m = Some l -> l = mkspin 0 (Some "bcache")).
Proof.
  induction 1 as [d m Hrun|m R _ IH|m R d n b m' _ IH Hrun|m R p b m' _ IH Hb Hrun
                 |m R b m' _ IH Hrun|m R p b m' _ IH Hrun|m R p b m' _ IH _ Hrun
                 |m R b m' _ IH Hrun|m R b m' _ IH Hrun|m R b m' _ IH Hrun
                 |m R p b dta m' _ IH _ Hrun].
  - destruct (binit_run d) as (m1 & Hrun1 & (Hwf & Hspin & Hbuf) & _).
    rewrite Hrun1 in Hrun. simplify_eq. split.
    + intros b x Hx. destruct (Hbuf b x Hx) as (Hv & _ & _ & _ & _ & Hlk & _ & Hnm).
      split; [by left|]. split; [by left|]. apply Hnm. left.
      apply (wf_get_buf m b Hwf). eauto.
    + intros id l Hl. destruct (Hspin id l Hl) as [Hlk Hnm].
      assert (id < NBUCKETS)%nat as Hid by (apply (wf_get_spin m id Hwf); eauto).
      specialize (Hnm Hid). destruct l; cbn in *. by subst.
  - done.
  - destruct IH as [IHb IHs].
    destruct (bget_locked_pre _ _ _ _ _ Hrun)
      as (l & bufs & Hl & Hfree & Hbufs & [(h & y & Hs & Hy & ->)|(i & x & Hs & Hx & ->)]).
    + destruct (bget_locked_hit _ _ _ _ _ _ _ Hl Hfree Hbufs Hs Hy) as (m1 & Hrun1 & Hw).
      rewrite Hrun1 in Hrun. simplify_eq. split.
      * eapply slots_ok_writes; [done|done|]. change (slot_ok y).
        apply (IHb (bucket_of n, h)). by rewrite (get_bufs_get_buf _ h _ _ Hbufs).
      * intros id l'. rewrite (writes_spin _ _ _ _ _ _ Hw). apply IHs.
    + destruct (bget_locked_miss _ _ _ _ _ _ _ Hl Hfree Hbufs Hs Hx) as (m1 & Hrun1 & Hw).
      rewrite Hrun1 in Hrun. simplify_eq. split.
      * eapply slots_ok_writes; [done|done|].
        assert (slot_ok x) as (_ & Hlk & Hnm).
        { apply (IHb (bucket_of n, i)). by rewrite (get_bufs_get_buf _ i _ _ Hbufs). }
        split; [by left|done].
      * intros id l'. rewrite (writes_spin _ _ _ _ _ _ Hw). apply IHs.
  - destruct IH as [IHb IHs].
    destruct (acquiresleep_pre _ _ _ _ Hrun) as (x & Hx & Hfree).
    destruct (acquiresleep_run p _ _ _ Hx Hfree) as (m1 & Hrun1 & Hw).
    rewrite Hrun1 in Hrun. simplify_eq. split.
    + eapply slots_ok_writes; [done|done|].
      destruct (IHb b x Hx) as (Hv & _ & Hnm). split; [done|]. split; [by right|done].
    + intros id l'. rewrite (writes_spin _ _ _ _ _ _ Hw). apply IHs.
  - destruct IH as [IHb IHs].
    destruct (bread_fill_pre _ _ _ _ Hrun) as (_ & x & Hx).
    destruct (decide (valid x = 0)) as [Hv|Hv].
    + destruct (bread_fill_invalid _ _ _ Hx Hv) as (m1 & Hrun1 & Hw).
      rewrite Hrun1 in Hrun. simplify_eq. split.
      * eapply slots_ok_writes; [done|done|].
        destruct (IHb b x Hx) as (_ & Hlk & Hnm). split; [by right|done].
      * intros id l'. rewrite (writes_spin _ _ _ _ _ _ Hw). apply IHs.
    + rewrite (bread_fill_valid _ _ _ Hx Hv) in Hrun. by simplify_eq.
  - destruct (bwrite_pre _ _ _ _ Hrun) as (x & Hx & Hh).
    rewrite (bwrite_run _ _ _ _ Hx Hh) in Hrun. by simplify_eq.
  - destruct IH as [IHb IHs].
    destruct (releasesleep_pre _ _ _ Hrun) as (x & Hx).
    destruct (releasesleep_run _ _ _ Hx) as (m1 & Hrun1 & Hw).
    rewrite Hrun1 in Hrun. simplify_eq. split.
    + eapply slots_ok_writes; [done|done|].
      destruct (IHb b x Hx) as (Hv & _ & Hnm). split; [done|]. split; [by left|done].
    + intros id l'. rewrite (writes_spin _ _ _ _ _ _ Hw). apply IHs.
  - destruct IH as [IHb IHs].
    destruct (brelse_locked_pre _ _ _ Hrun) as (x & l & Hx & Hl & Hfree).
    destruct (brelse_locked_run _ _ _ _ Hx Hl Hfree) as (m1 & Hrun1 & Hw).
    rewrite Hrun1 in Hrun. simplify_eq. split.
    + eapply slots_ok_writes; [done|done|]. change (slot_ok x).
      apply (IHb b x Hx).
    + intros id l'. rewrite (writes_spin _ _ _ _ _ _ Hw). apply IHs.
  - destruct IH as [IHb IHs].
    destruct (bpin_pre _ _ _ Hrun) as (x & l & Hx & Hl & Hfree).
    destruct (bpin_run _ _ _ _ Hx Hl Hfree) as (m1 & Hrun1 & Hw).
    rewrite Hrun1 in Hrun. simplify_eq. split.
    + eapply slots_ok_writes; [done|done|]. change (slot_ok x).
      apply (IHb b x Hx).
    + intros id l'. rewrite (writes_spin _ _ _ _ _ _ Hw). apply IHs.
  - destruct IH as [IHb IHs].
    destruct (bunpin_pre _ _ _ Hrun) as (x & l & Hx & Hl & Hfree).
    destruct (bunpin_run _ _ _ _ Hx Hl Hfree) as (m1 & Hrun1 & Hw).
    rewrite Hrun1 in Hrun. simplify_eq. split.
    + eapply slots_ok_writes; [done|done|]. change (slot_ok x).
      apply (IHb b x Hx).
    + intros id l'. rewrite (writes_spin _ _ _ _ _ _ Hw). apply IHs.
  - destruct IH as [IHb IHs].
    destruct (write_data_pre _ _ _ _ Hrun) as (x & Hx).
    destruct (write_data_run _ dta _ _ Hx) as (m1 & Hrun1 & Hw).
    rewrite Hrun1 in Hrun. simplify_eq. split.
    + eapply slots_ok_writes; [done|done|]. change (slot_ok x).
      apply (IHb b x Hx).
    + intros id l'. rewrite (writes_spin _ _ _ _ _ _ Hw). apply IHs.
Qed.

(** X14. The calls keep what [binit] has set up.  At every boundary
    between the sections of the calls, that is in every state of the
    cache, also one in which holders have overwritten payloads, the array
    has [NBUCKETS] buckets of [NBUF] slots, every shard lock is still
    named and, no thread being inside a section, free, every slot lock is
    still named, and the valid flag and the lock word of every slot are 0
    or 1. *)
Theorem cache_stays_initialized m R :
  reach m R ->
  dims m = replicate NBUCKETS NBUF /\
  (forall id, (id < NBUCKETS)%nat ->
     get_spin id m = Some (mkspin 0 (Some "bcache"))) /\
  (forall i j, (i < NBUCKETS)%nat -> (j < NBUF)%nat ->
     exists x, get_buf (i, j) m = Some x /\
       (valid x = 0 \/ valid x = 1) /\
       (sleep_locked (lock x) = 0 \/ sleep_locked (lock x) = 1) /\
       sleep_name (lock x) = Some "buffer" /\
       0 <= refcnt x < UINT_MOD).
Proof.
  intros Hreach. pose proof (reach_inv _ _ Hreach) as Hinv.
  pose proof (inv_wf _ _ _ _ Hinv) as Hwf.
  destruct (reach_slots_ok _ _ Hreach) as [Hb Hs].
  split; [done|]. split.
  - intros id Hid. destruct (proj2 (wf_get_spin m id Hwf) Hid) as [l Hl].
    by rewrite Hl, (Hs id l Hl).
  - intros i j Hi Hj.
    destruct (proj2 (wf_get_buf m (i, j) Hwf) (conj Hi Hj)) as [x Hx].
    destruct (Hb _ x Hx) as (Hv & Hlk & Hnm).
    exists x. split; [done|]. split; [done|]. split; [done|]. split; [done|].
    by eapply inv_refcnt.
Qed.

End Proofs.

(** ** The small cache *)

Example fresh_slots :
  get_bufs 1 fresh = Some [fresh_buf; fresh_buf] /\
  get_spin 1 fresh = Some fresh_lock.
Proof. split; vm_compute; reflexivity. Qed.

Example held_slots :
  bget 2 7 1 5 fresh = Ret (1, 0)%nat held /\
  get_bufs 1 held = Some [held_buf; fresh_buf].
Proof. split; vm_compute; reflexivity. Qed.

Example full_slots :
  bget 2 8 1 3 held = Ret (1, 1)%nat full /\
  get_bufs 1 full = Some [held_buf; held_buf'].
Proof. split; vm_compute; reflexivity. Qed.

Example released_slots :
  brelse 2 7 (1, 0)%nat held = Ret tt released /\
  get_bufs 1 released = Some [released_buf; fresh_buf].
Proof. split; vm_compute; reflexivity. Qed.

Lemma reach_fresh : reach 2 2 1 fresh [].
Proof. apply (reach_binit 2 2 1 blank_disk). vm_compute. reflexivity. Qed.

Lemma reach_held : reach 2 2 1 held [(1, 0)%nat].
Proof.
  apply (reach_bget 2 2 1 fresh [] 7 1 5); [apply reach_fresh|].
  vm_compute. reflexivity.
Qed.

Example both_slots :
  bget 2 8 1 4 held = Ret (0, 0)%nat both /\
  get_bufs 0 both = Some [held_buf4; fresh_buf] /\
  get_bufs 1 both = Some [held_buf; fresh_buf].
Proof. split_and!; vm_compute; reflexivity. Qed.

Lemma reach_both : reach 2 2 1 both [(0, 0)%nat; (1, 0)%nat].
Proof.
  apply (reach_bget 2 2 1 held [(1, 0)%nat] 8 1 4); [apply reach_held|].
  vm_compute. reflexivity.
Qed.

Example modified_slots :
  write_data (1, 0)%nat [Byte.x07] read = Ret tt modified /\
  get_bufs 1 modified = Some [modified_buf; fresh_buf].
Proof. split; vm_compute; reflexivity. Qed.

(** A cache in which the holder of a slot has overwritten the payload it
    read is a state of the cache. *)
Lemma reach_modified : reach 2 2 1 modified [(1, 0)%nat].
Proof.
  apply (reach_write_data 2 2 1 read [(1, 0)%nat] 7 (1, 0)%nat [Byte.x07]).
  - apply (reach_bread 2 2 1 fresh [] 7 1 5); [apply reach_fresh|].
    vm_compute. reflexivity.
  - vm_compute. reflexivity.
  - vm_compute. reflexivity.
Qed.

(** Closes [no_match d n bufs] for a list [bufs] that is written out. *)
Ltac no_match_done :=
  let x := fresh "x" in
  let H := fresh "H" in
  let Hd := fresh "Hd" in
  let Hn := fresh "Hn" in
  intros x H [Hd Hn];
  repeat (apply elem_of_cons in H as [->|H]; [cbn in Hd, Hn; lia|]);
  by apply elem_of_nil in H.

(** With slot 0 of bucket 1 held by process 7, a request for block 3 of
    device 1 evicts slot 1. *)
Lemma bget_evicts_first_lru_witness :
  exists m', final (bget 2 8 1 3 held) = Some m' /\
    (forall j y, [held_buf; fresh_buf] !! j = Some y -> refcnt y <> 0 ->
       get_buf (bucket_of 2 3, j) m' = Some y) /\
    ((exists i x', first_lru [held_buf; fresh_buf] i /\
        get_buf (bucket_of 2 3, i) m' = Some x' /\ dev x' = 1 /\ blockno x' = 3 /\
        forall b, b <> (bucket_of 2 3, i) -> get_buf b m' = get_buf b held) \/
     ((forall y, y ∈ [held_buf; fresh_buf] -> refcnt y <> 0) /\
      forall b, get_buf b m' = get_buf b held)).
Proof.
  apply (bget_evicts_first_lru 2 held 8 1 3 fresh_lock [held_buf; fresh_buf]).
  - vm_compute. reflexivity.
  - reflexivity.
  - vm_compute. reflexivity.
  - no_match_done.
Defined.

(** The first request after [binit] recycles a slot of bucket 1. *)
Lemma bget_recycles_witness :
  exists i x, [fresh_buf; fresh_buf] !! i = Some x /\ refcnt x = 0 /\
    let b := (bucket_of 2 5, i) in
    let id := bucket_of 2 5 in
    exists m' x',
      get_buf b m' = Some x' /\
      dev x' = 1 /\ blockno x' = 5 /\ valid x' = 0 /\ refcnt x' = 1 /\
      tstamp x' = ticks fresh /\
      get_spin id m' = Some fresh_lock /\
      ((sleep_locked (lock x) = 0 /\
        bget 2 7 1 5 fresh = Ret b m' /\ holding 7 x' = true /\
        trace m' = trace fresh ++
          [EvAcquire id; EvStore b; EvRelease id; EvAcquireSleep 7 b]) \/
       (sleep_locked (lock x) <> 0 /\
        bget 2 7 1 5 fresh = Blocked (WSleep b) m' /\
        trace m' = trace fresh ++ [EvAcquire id; EvStore b; EvRelease id])).
Proof.
  apply (bget_recycles 2 fresh 7 1 5 fresh_lock [fresh_buf; fresh_buf] fresh_buf).
  - vm_compute. reflexivity.
  - reflexivity.
  - vm_compute. reflexivity.
  - no_match_done.
  - apply elem_of_cons. by left.
  - reflexivity.
Defined.

(** With both slots of bucket 1 held, a request for block 7 panics. *)
Lemma bget_exhausted_witness :
  exists m',
    bget 2 9 1 7 full = Panic "bget: no buffers" m' /\
    trace m' = trace full ++ [EvAcquire (bucket_of 2 7); EvRelease (bucket_of 2 7);
                              EvPanic "bget: no buffers"] /\
    (forall b, get_buf b m' = get_buf b full) /\
    (forall id, get_spin id m' = get_spin id full) /\
    disk m' = disk full /\ ticks m' = ticks full.
Proof.
  apply (bget_exhausted 2 full 9 1 7 fresh_lock [held_buf; held_buf']).
  - vm_compute. reflexivity.
  - reflexivity.
  - vm_compute. reflexivity.
  - no_match_done.
  - intros y Hy.
    repeat (apply elem_of_cons in Hy as [->|Hy]; [cbn; lia|]).
    by apply elem_of_nil in Hy.
Defined.

(** Reading block 5 of device 1 right after [binit]. *)
Lemma bread_valid_locked_witness :
  exists x1 m' x',
    get_buf (1, 0)%nat held = Some x1 /\
    bread 2 7 1 5 fresh = Ret (1, 0)%nat m' /\
    get_buf (1, 0)%nat m' = Some x' /\ valid x' <> 0 /\ holding 7 x' = true /\
    ((valid x1 = 0 /\
      trace m' = trace held ++ [EvDiskRw (1, 0)%nat false; EvStore (1, 0)%nat] /\
      x' = set_valid 1 (set_data (disk held (dev x1, blockno x1)) x1) /\
      forall b', b' <> (1, 0)%nat -> get_buf b' m' = get_buf b' held) \/
     (valid x1 <> 0 /\ m' = held)).
Proof.
  apply (bread_valid_locked 2 fresh 7 1 5 (1, 0)%nat held).
  vm_compute. reflexivity.
Defined.

(** Process 8 on the slot that process 7 holds. *)
Lemma bwrite_brelse_need_lock_witness :
  exists m1 m2,
    bwrite 8 (1, 0)%nat held = Panic "bwrite" m1 /\
    brelse 2 8 (1, 0)%nat held = Panic "brelse" m2 /\
    trace m1 = trace held ++ [EvPanic "bwrite"] /\
    trace m2 = trace held ++ [EvPanic "brelse"] /\
    disk m1 = disk held /\ disk m2 = disk held /\
    bcache m1 = bcache held /\ bcache m2 = bcache held.
Proof.
  apply (bwrite_brelse_need_lock 2 held 8 (1, 0)%nat held_buf).
  - vm_compute. reflexivity.
  - vm_compute. reflexivity.
Defined.

(** Process 7 releases the slot whose payload it has read and then
    overwritten. *)
Lemma brelse_frame_witness :
  exists m' x',
    brelse 2 7 (1, 0)%nat modified = Ret tt m' /\
    trace m' = trace modified ++
      [EvReleaseSleep (1, 0)%nat; EvAcquire 1; EvStore (1, 0)%nat; EvRelease 1] /\
    get_buf (1, 0)%nat m' = Some x' /\
    refcnt x' = wrap (refcnt modified_buf - 1) /\
    (refcnt modified_buf <> 0 -> refcnt x' = refcnt modified_buf - 1) /\
    tstamp x' = ticks modified /\
    sleep_locked (lock x') = 0 /\
    dev x' = dev modified_buf /\ blockno x' = blockno modified_buf /\
    valid x' = valid modified_buf /\ data x' = data modified_buf /\
    (forall b', b' <> (1, 0)%nat -> get_buf b' m' = get_buf b' modified) /\
    (forall id, get_spin id m' = get_spin id modified) /\
    disk m' = disk modified.
Proof.
  apply (brelse_frame 2 2 1 modified [(1, 0)%nat] 7 (1, 0)%nat modified_buf).
  - apply reach_modified.
  - vm_compute. reflexivity.
  - vm_compute. reflexivity.
Defined.

(** The state in which process 7 holds block 5 and process 8 block 4 of
    device 1: block 4 is in bucket 0 and block 5 in bucket 1. *)
Lemma slots_stay_home_witness :
  (forall p d n b m',
     bget 2 p d n both = Ret b m' ->
     reach 2 2 1 m' (b :: [(0, 0)%nat; (1, 0)%nat]) /\
     b.1 = Z.to_nat (n mod Z.of_nat 2) /\
     exists x', get_buf b m' = Some x' /\ blockno x' = n) /\
  (forall b, b ∈ [(0, 0)%nat; (1, 0)%nat] ->
     exists x, get_buf b both = Some x /\
       Z.to_nat (blockno x mod Z.of_nat 2) = b.1 /\
       (exists m', bpin 2 b both = Ret tt m' /\
          trace m' = trace both ++ [EvAcquire b.1; EvStore b; EvRelease b.1]) /\
       (exists m', bunpin 2 b both = Ret tt m' /\
          trace m' = trace both ++ [EvAcquire b.1; EvStore b; EvRelease b.1]) /\
       (forall p, holding p x = true ->
          exists m', brelse 2 p b both = Ret tt m' /\
            trace m' = trace both ++
              [EvReleaseSleep b; EvAcquire b.1; EvStore b; EvRelease b.1])).
Proof.
  apply (slots_stay_home 2 2 1 both [(0, 0)%nat; (1, 0)%nat]).
  apply reach_both.
Defined.

(** [bunpin] on the slot that process 7 has released. *)
Lemma bunpin_underflow_witness :
  (exists m' x',
     bunpin 2 (1, 0)%nat released = Ret tt m' /\
     get_buf (1, 0)%nat m' = Some x' /\
     refcnt x' = 2 ^ 32 - 1 /\
     (forall d n bufs, get_bufs 1 m' = Some bufs ->
        scan d n bufs <> Miss (Some 0%nat)) /\
     (forall d n m'', bget_locked 2 d n m' = Ret (1, 0)%nat m'' ->
        dev released_buf = d /\ blockno released_buf = n)) /\
  (forall p, holding p released_buf = true ->
     exists m' x',
       brelse 2 p (1, 0)%nat released = Ret tt m' /\
       get_buf (1, 0)%nat m' = Some x' /\
       refcnt x' = 2 ^ 32 - 1 /\
       (forall d n bufs, get_bufs 1 m' = Some bufs ->
          scan d n bufs <> Miss (Some 0%nat))).
Proof.
  apply (bunpin_underflow 2 released (1, 0)%nat released_buf fresh_lock).
  - vm_compute. reflexivity.
  - reflexivity.
  - vm_compute. reflexivity.
  - reflexivity.
Defined.

(** C5, as the spec has it, fails: right after [binit] the never-recycled
    slots all read device 0, block 0, so two slots carry that identity. *)
Lemma identity_not_unique :
  ~ (forall m R, reach 2 2 1 m R -> forall d n, unique_ident m d n).
Proof.
  intros H.
  assert ((0, 0)%nat = (0, 1)%nat) as E; [|discriminate E].
  apply (H fresh [] reach_fresh 0 0).
  - exists fresh_buf. split_and!; vm_compute; reflexivity.
  - exists fresh_buf. split_and!; vm_compute; reflexivity.
Qed.

(** Block 5 of device 1, read and then overwritten by process 7, is in
    one slot. *)
Lemma identity_unique_witness :
  unique_ident modified 1 5 /\
  forall b x p, get_buf b modified = Some x -> dev x = 1 -> blockno x = 5 ->
    exists m' x',
      (bget 2 p 1 5 modified = Ret b m' \/
       bget 2 p 1 5 modified = Blocked (WSleep b) m') /\
      get_buf b m' = Some x' /\ refcnt x' = wrap (refcnt x + 1) /\
      dev x' = 1 /\ blockno x' = 5 /\
      forall b', b' <> b -> get_buf b' m' = get_buf b' modified.
Proof.
  apply (identity_unique 2 2 1 modified [(1, 0)%nat] 1 5).
  - apply reach_modified.
  - intros [H _]. discriminate H.
Defined.

(** ** The further properties on the small cache *)

Example read_slots :
  bread 2 7 1 5 fresh = Ret (1, 0)%nat read /\
  get_bufs 1 read = Some [read_buf; fresh_buf].
Proof. split; vm_compute; reflexivity. Qed.

(** Process 8 asks for the block that process 7 has released. *)
Lemma bget_hit_witness :
  exists m' x',
    get_buf (1, 0)%nat m' = Some x' /\
    refcnt x' = wrap (refcnt released_buf + 1) /\
    dev x' = 1 /\ blockno x' = 5 /\
    valid x' = valid released_buf /\ tstamp x' = tstamp released_buf /\
    data x' = data released_buf /\
    (forall b', b' <> (1, 0)%nat -> get_buf b' m' = get_buf b' released) /\
    (forall id, get_spin id m' = get_spin id released) /\
    disk m' = disk released /\
    ((sleep_locked (lock released_buf) = 0 /\
      bget 2 8 1 5 released = Ret (1, 0)%nat m' /\ holding 8 x' = true /\
      trace m' = trace released ++
        [EvAcquire 1; EvStore (1, 0)%nat; EvRelease 1;
         EvAcquireSleep 8 (1, 0)%nat]) \/
     (sleep_locked (lock released_buf) <> 0 /\
      bget 2 8 1 5 released = Blocked (WSleep (1, 0)%nat) m' /\
      lock x' = lock released_buf /\
      trace m' = trace released ++
        [EvAcquire 1; EvStore (1, 0)%nat; EvRelease 1])).
Proof.
  apply (bget_hit 2 released 8 1 5 (1, 0)%nat released_buf fresh_lock).
  - split; [vm_compute; reflexivity|]. split; [reflexivity|].
    split; [reflexivity|]. cbn. intros j z Hj. lia.
  - vm_compute. reflexivity.
  - vm_compute. reflexivity.
  - reflexivity.
Defined.

(** The first read after [binit] fills a slot of bucket 1 from the disk. *)
Lemma bread_miss_reads_disk_witness :
  exists i x m' x',
    [fresh_buf; fresh_buf] !! i = Some x /\ refcnt x = 0 /\
    bread 2 7 1 5 fresh = Ret (bucket_of 2 5, i) m' /\
    get_buf (bucket_of 2 5, i) m' = Some x' /\
    data x' = disk fresh (1, 5) /\ valid x' = 1 /\
    dev x' = 1 /\ blockno x' = 5 /\ refcnt x' = 1 /\ tstamp x' = ticks fresh /\
    holding 7 x' = true /\
    trace m' = trace fresh ++
      [EvAcquire (bucket_of 2 5); EvStore (bucket_of 2 5, i);
       EvRelease (bucket_of 2 5);
       EvAcquireSleep 7 (bucket_of 2 5, i);
       EvDiskRw (bucket_of 2 5, i) false; EvStore (bucket_of 2 5, i)] /\
    (forall b', b' <> (bucket_of 2 5, i) -> get_buf b' m' = get_buf b' fresh) /\
    disk m' = disk fresh.
Proof.
  apply (bread_miss_reads_disk 2 fresh 7 1 5 fresh_lock [fresh_buf; fresh_buf]
           fresh_buf).
  - vm_compute. reflexivity.
  - reflexivity.
  - vm_compute. reflexivity.
  - no_match_done.
  - apply elem_of_cons. by left.
  - reflexivity.
  - intros z Hz _.
    repeat (apply elem_of_cons in Hz as [->|Hz]; [reflexivity|]).
    by apply elem_of_nil in Hz.
Defined.

(** Process 7 reads block 5, releases it, and process 8 reads it. *)
Lemma bread_again_hits_witness :
  exists x1 m2 m3 x3,
    get_buf (1, 0)%nat read = Some x1 /\
    brelse 2 7 (1, 0)%nat read = Ret tt m2 /\
    bread 2 8 1 5 m2 = Ret (1, 0)%nat m3 /\
    get_buf (1, 0)%nat m3 = Some x3 /\
    valid x1 <> 0 /\ valid x3 = valid x1 /\ data x3 = data x1 /\
    refcnt x3 = refcnt x1 /\ tstamp x3 = ticks read /\
    holding 8 x3 = true /\
    trace m3 = trace m2 ++
      [EvAcquire 1; EvStore (1, 0)%nat; EvRelease 1; EvAcquireSleep 8 (1, 0)%nat] /\
    (forall b', b' <> (1, 0)%nat -> get_buf b' m3 = get_buf b' read) /\
    disk m3 = disk read.
Proof.
  apply (bread_again_hits 2 fresh 7 8 1 5 (1, 0)%nat read).
  vm_compute. reflexivity.
Defined.

(** Process 8 asks for block 5 while process 7 holds it. *)
Lemma bget_waiter_gets_slot_witness :
  exists x1 m2 x2 m3 m4 x4,
    get_buf (1, 0)%nat held = Some x1 /\
    bget 2 8 1 5 held = Blocked (WSleep (1, 0)%nat) m2 /\
    get_buf (1, 0)%nat m2 = Some x2 /\ refcnt x2 = wrap (refcnt x1 + 1) /\
    holding 7 x2 = true /\
    brelse 2 7 (1, 0)%nat m2 = Ret tt m3 /\
    acquiresleep 8 (1, 0)%nat m3 = Ret tt m4 /\
    get_buf (1, 0)%nat m4 = Some x4 /\ holding 8 x4 = true /\
    refcnt x4 = refcnt x1 /\
    dev x4 = 1 /\ blockno x4 = 5 /\ valid x4 = valid x1 /\ data x4 = data x1 /\
    (forall b', b' <> (1, 0)%nat -> get_buf b' m4 = get_buf b' held).
Proof.
  apply (bget_waiter_gets_slot 2 fresh 7 8 1 5 (1, 0)%nat held).
  vm_compute. reflexivity.
Defined.

(** The first read after [binit]. *)
Lemma calls_respect_lock_order_witness :
  exists evs, trace read = trace fresh ++ evs /\ lock_order None evs = Some None.
Proof.
  apply (calls_respect_lock_order 2 (CBread 7 1 5) fresh read).
  vm_compute. reflexivity.
Defined.

(** [brelse] of the slot that process 7 holds. *)
Lemma calls_change_one_slot_witness :
  (exists b, forall b', b' <> b -> get_buf b' released = get_buf b' held) /\
  (forall id, get_spin id released = get_spin id held) /\
  dims released = dims held /\
  ticks released = ticks held /\
  disk released = disk held.
Proof.
  apply (calls_change_one_slot 2 (CBrelse 7 (1, 0)%nat) held released).
  vm_compute. reflexivity.
Defined.

(** The slot held by process 7 when process 8 gets another block of the
    bucket. *)
Lemma bget_keeps_used_slots_witness :
  exists x', get_buf (1, 0)%nat full = Some x' /\
    dev x' = dev held_buf /\ blockno x' = blockno held_buf /\
    valid x' = valid held_buf /\ data x' = data held_buf /\
    tstamp x' = tstamp held_buf.
Proof.
  apply (bget_keeps_used_slots 2 8 1 3 held full (1, 0)%nat held_buf).
  - vm_compute. reflexivity.
  - vm_compute. reflexivity.
  - cbn. lia.
Defined.

(** Process 7 writes the slot it holds. *)
Lemma bwrite_persists_witness :
  exists m',
    bwrite 7 (1, 0)%nat held = Ret tt m' /\
    disk m' (dev held_buf, blockno held_buf) = data held_buf /\
    (forall k, k <> (dev held_buf, blockno held_buf) -> disk m' k = disk held k) /\
    bcache m' = bcache held /\ ticks m' = ticks held /\
    trace m' = trace held ++ [EvDiskRw (1, 0)%nat true] /\
    (forall c y, get_buf c m' = Some y -> valid y = 0 ->
       dev y = dev held_buf -> blockno y = blockno held_buf ->
       exists m'' y',
         bread_fill c m' = Ret c m'' /\ get_buf c m'' = Some y' /\
         data y' = data held_buf /\ valid y' = 1).
Proof.
  apply (bwrite_persists held 7 (1, 0)%nat held_buf).
  - vm_compute. reflexivity.
  - vm_compute. reflexivity.
Defined.

(** Pinning and unpinning the slot that process 7 holds. *)
Lemma bpin_bunpin_cancel_witness :
  (exists m1 m2,
     bpin 2 (1, 0)%nat held = Ret tt m1 /\ bunpin 2 (1, 0)%nat m1 = Ret tt m2 /\
     (forall c, get_buf c m2 = get_buf c held) /\
     (forall id, get_spin id m2 = get_spin id held) /\
     disk m2 = disk held /\ ticks m2 = ticks held) /\
  (exists m1 m2,
     bunpin 2 (1, 0)%nat held = Ret tt m1 /\ bpin 2 (1, 0)%nat m1 = Ret tt m2 /\
     (forall c, get_buf c m2 = get_buf c held) /\
     (forall id, get_spin id m2 = get_spin id held) /\
     disk m2 = disk held /\ ticks m2 = ticks held).
Proof.
  apply (bpin_bunpin_cancel 2 held (1, 0)%nat held_buf fresh_lock).
  - vm_compute. reflexivity.
  - unfold UINT_MOD. cbn. lia.
  - vm_compute. reflexivity.
  - reflexivity.
Defined.

Lemma bpin_counts_witness :
  exists m',
    bpin 2 (1, 0)%nat held = Ret tt m' /\
    get_buf (1, 0)%nat m' =
      Some (set_refcnt (if decide (refcnt held_buf = UINT_MOD - 1) then 0
                        else refcnt held_buf + 1) held_buf) /\
    (forall b', b' <> (1, 0)%nat -> get_buf b' m' = get_buf b' held) /\
    (refcnt held_buf <> UINT_MOD - 1 ->
     forall d n bufs, get_bufs 1 m' = Some bufs ->
       scan d n bufs <> Miss (Some 0%nat)).
Proof.
  apply (bpin_counts 2 held (1, 0)%nat held_buf fresh_lock).
  - vm_compute. reflexivity.
  - unfold UINT_MOD. cbn. lia.
  - vm_compute. reflexivity.
  - reflexivity.
Defined.

(** [brelse] by process 7 of the slot whose payload it has overwritten. *)
Lemma calls_end_witness :
  (exists m', exec 2 (CBrelse 7 (1, 0)%nat) modified = Ret tt m') \/
  (exists m', exec 2 (CBrelse 7 (1, 0)%nat) modified = Panic "brelse" m').
Proof.
  apply (calls_end 2 2 1 modified [(1, 0)%nat] (CBrelse 7 (1, 0)%nat)).
  - apply reach_modified.
  - lia.
  - cbn. lia.
Defined.

(** [binit] called again while process 7 holds block 5. *)
Lemma binit_only_locks_witness :
  exists m',
    binit 2 2 held = Ret tt m' /\
    (forall id, get_spin id m' =
       (fun _ => mkspin 0 (Some "bcache"%string)) <$> get_spin id held) /\
    (forall b, get_buf b m' =
       set_lock (mksleep 0 0 (Some "buffer"%string)) <$> get_buf b held) /\
    dims m' = dims held /\ disk m' = disk held /\ ticks m' = ticks held.
Proof.
  apply (binit_only_locks 2 2 held).
  vm_compute. reflexivity.
Defined.

(** Process 7 releases block 5 twice. *)
Lemma brelse_twice_panics_witness :
  exists m1 m2 m3,
    brelse 2 7 (1, 0)%nat held = Ret tt m1 /\
    brelse 2 7 (1, 0)%nat m1 = Panic "brelse" m2 /\
    bwrite 7 (1, 0)%nat m1 = Panic "bwrite" m3 /\
    bcache m2 = bcache m1 /\ bcache m3 = bcache m1 /\
    disk m2 = disk held /\ disk m3 = disk held.
Proof.
  apply (brelse_twice_panics 2 held 7 (1, 0)%nat held_buf fresh_lock).
  - vm_compute. reflexivity.
  - vm_compute. reflexivity.
  - vm_compute. reflexivity.
  - reflexivity.
Defined.

(** The state in which process 7 has overwritten the payload of the slot
    it holds. *)
Lemma cache_stays_initialized_witness :
  dims modified = replicate 2 2%nat /\
  (forall id, (id < 2)%nat ->
     get_spin id modified = Some (mkspin 0 (Some "bcache"%string))) /\
  (forall i j, (i < 2)%nat -> (j < 2)%nat ->
     exists x, get_buf (i, j) modified = Some x /\
       (valid x = 0 \/ valid x = 1) /\
       (sleep_locked (lock x) = 0 \/ sleep_locked (lock x) = 1) /\
       sleep_name (lock x) = Some "buffer"%string /\
       0 <= refcnt x < UINT_MOD).
Proof.
  apply (cache_stays_initialized 2 2 1 modified [(1, 0)%nat]).
  apply reach_modified.
Defined.
